(** * dnn::Network: the feed-forward training engine

    Shallow embedding of [modules/utils/dnn/Network.h].  The network owns an
    ordered vector of layers and one output head, and drives the forward pass,
    back-propagation, the parameter update and the mini-batch training loop.

    The collaborators (Layer, Output, Optimizer, Callback, the batch scheduler
    of Utils/Random.h and the blaze matrix) are consumed through their
    interfaces only; they are type classes here.  Every call the network makes
    on a collaborator, the const accessors apart ([in_size], [out_size],
    [output], [backprop_data], [get_parameters], [get_derivatives], [rows]),
    is recorded in a trace, in call order, with the arguments it received:
    the trace is what a test with recording collaborators would observe.

    Conventions of the model:
    - a C++ [int] is a [Z]; the counters of the loops stay far from the
      bounds of [int], and the sizes the code narrows to an [int], the
      number of layers ([num_layers]) and the number of parameter vectors
      handed to [set_parameters] ([static_cast<int>(param.size())]), are
      taken to fit one, so that the narrowing leaves them as they are;
    - a matrix is passed by value: an argument is taken not to alias a matrix
      cached inside a layer;
    - the layers of [m_layers] are distinct objects, as [addLayer] creates
      them ([std::make_shared] of a copy), so a layer changes only through
      calls on its own index;
    - dereferencing a null [shared_ptr] and indexing a vector past its end
      are undefined in C++; the model ends the call there with an error of
      its own. *)

From Stdlib Require Import ZArith Lia.
From stdpp Require Import base option list list_numbers.

Local Open Scope Z_scope.

(** ** Data model *)

(** [class Network]: the data members.  [m_output] and [m_callback] are
    [std::shared_ptr]s that both constructors initialise with [NULL]; [None]
    is the null handle.  [m_rng] is the generator the reference member refers
    to, the built-in [m_default_rng] or the one of the caller.
    [m_default_callback] is read by no member function that can be
    instantiated ([set_default_callback] assigns a raw pointer to the
    [shared_ptr]) and is left out. *)
#[projections(primitive)]
Record Network (Rng Output Callback Layer : Type) : Type := mkNetwork {
  m_rng : Rng;
  m_output : option Output;
  m_callback : option Callback;
  m_layers : list Layer
}.
Arguments mkNetwork {Rng Output Callback Layer}.
Arguments m_rng {Rng Output Callback Layer}.
Arguments m_output {Rng Output Callback Layer}.
Arguments m_callback {Rng Output Callback Layer}.
Arguments m_layers {Rng Output Callback Layer}.

(** ** Collaborator interfaces *)

(** The blaze matrix: the network queries the row count and, in [predict],
    builds the empty matrix [Matrix()]. *)
Class MatrixOps (Matrix : Type) := {
  rows : Matrix -> Z;
  empty_matrix : Matrix
}.

(** [class Layer] (Layer.h).  A layer holds its parameters, its last forward
    output and its last backward gradient; a mutating member function maps
    the layer to its next state.  [set_parameters] answers [None] when the
    layer rejects the vector by raising, which leaves the layer as it was;
    the other member functions are taken not to raise.  Sizes are integers
    and are compared as such. *)
Module Layer.
Class Ops (Matrix Scalar Rng Optimizer L : Type) := {
  in_size : L -> Z;
  out_size : L -> Z;
  forward : L -> Matrix -> L;
  output : L -> Matrix;
  backprop : L -> Matrix -> Matrix -> L;
  backprop_data : L -> Matrix;
  update : L -> Optimizer -> L * Optimizer;
  init : L -> Scalar -> Scalar -> Rng -> L * Rng;
  get_parameters : L -> list Scalar;
  set_parameters : L -> list Scalar -> option L;
  get_derivatives : L -> list Scalar
}.
End Layer.

(** [class Output] (Output.h).  [check_target_data] answers [false] when the
    head raises on the target. *)
Module Output.
Class Ops (Matrix Target O : Type) := {
  check_target_data : O -> Target -> bool;
  evaluate : O -> Matrix -> Target -> O;
  backprop_data : O -> Matrix
}.
End Output.

(** [class Optimizer]: [reset] is all the network calls directly. *)
Module Optimizer.
Class Ops (Opt : Type) := {
  reset : Opt -> Opt
}.
End Optimizer.

(** [std::mt19937::seed]. *)
Module Random.
Class Ops (Matrix Target Rng : Type) := {
  seed : Z -> Rng;
  (** [internal::create_shuffled_batches(x, y, batch_size, rng, x_batches,
      y_batches)]: the batches it fills the two vectors with, pairwise, and
      the generator it leaves behind; the [int] it returns is their number. *)
  create_shuffled_batches :
    Matrix -> Target -> Z -> Rng -> list (Matrix * Target) * Rng
}.
End Random.

(** [class Callback] (Callback.h): the four public counters are written by
    [fit]; the two hooks receive the network and the batch. *)
Module Callback.
Class Ops (Matrix Target Net C : Type) := {
  set_nbatch : C -> Z -> C;
  set_nepoch : C -> Z -> C;
  set_epoch_id : C -> Z -> C;
  set_batch_id : C -> Z -> C;
  pre_training_batch : C -> Net -> Matrix -> Target -> C;
  post_training_batch : C -> Net -> Matrix -> Target -> C
}.
End Callback.

(** ** Errors and observable calls *)

(** What escapes a member function.  The first three are the
    [std::invalid_argument]s of the network itself and of the output head:
    - [ShapeMismatch]: "Unit sizes do not match" ([check_unit_sizes]) and
      "Input data have incorrect dimension" ([forward]);
    - [ParameterCountMismatch]: "Parameter size does not match"
      ([set_parameters]);
    - [TargetMismatch]: raised by [Output::check_target_data];
    - [LayerRejected]: raised by a layer's own [set_parameters];
    - [NullHandle], [OutOfRange]: a null [shared_ptr] is dereferenced, a
      vector is indexed past its end (undefined behaviour in C++). *)
Inductive Err : Type :=
| ShapeMismatch
| TargetMismatch
| ParameterCountMismatch
| LayerRejected
| NullHandle
| OutOfRange.

Inductive Event (Matrix Target Scalar : Type) : Type :=
| EvLayerForward (i : Z) (input : Matrix)
| EvLayerBackprop (i : Z) (prev_layer_data next_layer_data : Matrix)
| EvLayerUpdate (i : Z)
| EvLayerInit (i : Z)
| EvLayerSetParameters (i : Z) (param : list Scalar)
| EvCheckTargetData (target : Target)
| EvEvaluate (prev_layer_data : Matrix) (target : Target)
| EvOptReset
| EvRngSeed (seed : Z)
| EvCreateShuffledBatches (x : Matrix) (y : Target) (batch_size : Z)
| EvSetNbatch (n : Z)
| EvSetNepoch (n : Z)
| EvSetEpochId (k : Z)
| EvSetBatchId (i : Z)
| EvPreTrainingBatch (x : Matrix) (y : Target)
| EvPostTrainingBatch (x : Matrix) (y : Target).
Arguments EvLayerForward {Matrix Target Scalar}.
Arguments EvLayerBackprop {Matrix Target Scalar}.
Arguments EvLayerUpdate {Matrix Target Scalar}.
Arguments EvLayerInit {Matrix Target Scalar}.
Arguments EvLayerSetParameters {Matrix Target Scalar}.
Arguments EvCheckTargetData {Matrix Target Scalar}.
Arguments EvEvaluate {Matrix Target Scalar}.
Arguments EvOptReset {Matrix Target Scalar}.
Arguments EvRngSeed {Matrix Target Scalar}.
Arguments EvCreateShuffledBatches {Matrix Target Scalar}.
Arguments EvSetNbatch {Matrix Target Scalar}.
Arguments EvSetNepoch {Matrix Target Scalar}.
Arguments EvSetEpochId {Matrix Target Scalar}.
Arguments EvSetBatchId {Matrix Target Scalar}.
Arguments EvPreTrainingBatch {Matrix Target Scalar}.
Arguments EvPostTrainingBatch {Matrix Target Scalar}.

(** ** The state and error monad of the member functions *)

(** What a member function can touch: the network object, the optimizer it
    was handed by reference, and the trace. *)
#[projections(primitive)]
Record World (Net Opt Ev : Type) : Type := mkWorld {
  net : Net;
  opt : Opt;
  trace : list Ev
}.
Arguments mkWorld {Net Opt Ev}.
Arguments net {Net Opt Ev}.
Arguments opt {Net Opt Ev}.
Arguments trace {Net Opt Ev}.

Module SE.
Section SE.
Context {W : Type}.

(** A computation ends normally ([inr]) or by an exception ([inl]); the
    state reached so far is kept in both cases. *)
Definition M (A : Type) : Type := W -> (Err + A) * W.

Definition ret {A} (a : A) : M A := fun w => (inr a, w).

Definition bind {A B} (m : M A) (k : A -> M B) : M B :=
    fun w => match m w with
             | (inr a, w') => k a w'
             | (inl e, w') => (inl e, w')
             end.

Definition throw {A} (e : Err) : M A := fun w => (inl e, w).

Definition gets {A} (f : W -> A) : M A := fun w => (inr (f w), w).

Definition modify (f : W -> W) : M unit := fun w => (inr tt, f w).

(** [for (int i = lo; i < lo + n; i++) body(i)], [n] iterations left. *)
Fixpoint for_up_n (n : nat) (i : Z) (body : Z -> M unit) : M unit :=
    match n with
    | O => ret tt
    | S n' => bind (body i) (fun _ => for_up_n n' (i + 1) body)
    end.

(** [for (int i = lo; i < hi; i++) body(i)]. *)
Definition for_up (lo hi : Z) (body : Z -> M unit) : M unit :=
    for_up_n (Z.to_nat (hi - lo)) lo body.

(** The same loop around a local variable that each iteration may assign. *)
Fixpoint for_up_fold_n {A} (n : nat) (i : Z) (body : Z -> A -> M A) (acc : A) : M A :=
    match n with
    | O => ret acc
    | S n' => bind (body i acc) (fun acc' => for_up_fold_n n' (i + 1) body acc')
    end.

Definition for_up_fold {A} (lo hi : Z) (body : Z -> A -> M A) (acc : A) : M A :=
    for_up_fold_n (Z.to_nat (hi - lo)) lo body acc.

(** [for (int i = hi; i > hi - n; i--) body(i)], [n] iterations left. *)
Fixpoint for_down_n (n : nat) (i : Z) (body : Z -> M unit) : M unit :=
    match n with
    | O => ret tt
    | S n' => bind (body i) (fun _ => for_down_n n' (i - 1) body)
    end.

(** [for (int i = hi; i > lo; i--) body(i)]. *)
Definition for_down (hi lo : Z) (body : Z -> M unit) : M unit :=
    for_down_n (Z.to_nat (hi - lo)) hi body.
End SE.
Arguments M : clear implicits.
End SE.

Declare Scope se_scope.
Delimit Scope se_scope with se.
Notation "x <- m ;; k" := (SE.bind m (fun x => k))
  (at level 100, m at next level, right associativity) : se_scope.
Notation "m ;; k" := (SE.bind m (fun _ => k))
  (at level 100, right associativity) : se_scope.


(** ** A small concrete instance

    One-row matrices over [Z], scalar layers, a squared-error head, a
    counting optimizer, a generator that is a counter, and a callback that
    records which batch of which epoch its pre-training hook has seen.  The
    facts below are run on it. *)

Module Toy.

(** A layer multiplies every entry by its weight; an update moves the
    weight by one against the sign of its derivative. *)
Record layer : Type := mkLayer {
  weight : Z;
  n_in : Z;
  n_out : Z;
  cached_output : list Z;
  cached_gradient : list Z;
  d_weight : Z
}.

Definition sumZ (l : list Z) : Z := foldr Z.add 0 l.

Definition layer_forward (l : layer) (m : list Z) : layer :=
  mkLayer (weight l) (n_in l) (n_out l)
          (Z.mul (weight l) <$> m) (cached_gradient l) (d_weight l).

Definition layer_backprop (l : layer) (prev next : list Z) : layer :=
  mkLayer (weight l) (n_in l) (n_out l) (cached_output l)
          (Z.mul (weight l) <$> next) (sumZ (zip_with Z.mul prev next)).

Definition layer_update (l : layer) (o : Z) : layer * Z :=
  (mkLayer (weight l - Z.sgn (d_weight l)) (n_in l) (n_out l)
           (cached_output l) (cached_gradient l) (d_weight l),
   o + 1).

Definition layer_init (l : layer) (mu sigma r : Z) : layer * Z :=
  (mkLayer (mu + sigma * r) (n_in l) (n_out l)
           (cached_output l) (cached_gradient l) (d_weight l),
   r + 1).

Definition layer_set_parameters (l : layer) (v : list Z) : option layer :=
  match v with
  | [a] => Some (mkLayer a (n_in l) (n_out l)
                         (cached_output l) (cached_gradient l) (d_weight l))
  | _ => None
  end.

#[global] Instance matrix_ops : MatrixOps (list Z) := {
  rows _ := 1;
  empty_matrix := []
}.

#[global] Instance layer_ops : Layer.Ops (list Z) Z Z Z layer := {
  Layer.in_size := n_in;
  Layer.out_size := n_out;
  Layer.forward := layer_forward;
  Layer.output := cached_output;
  Layer.backprop := layer_backprop;
  Layer.backprop_data := cached_gradient;
  Layer.update := layer_update;
  Layer.init := layer_init;
  Layer.get_parameters l := [weight l];
  Layer.set_parameters := layer_set_parameters;
  Layer.get_derivatives l := [d_weight l]
}.

(** The head: targets must not be negative; the gradient is the residual. *)
Record head : Type := mkHead {
  loss : Z;
  gradient : list Z
}.

#[global] Instance output_ops : Output.Ops (list Z) (list Z) head := {
  Output.check_target_data _ t := forallb (Z.leb 0) t;
  Output.evaluate _ p t :=
    mkHead (sumZ ((fun d => d * d) <$> zip_with Z.sub p t)) (zip_with Z.sub p t);
  Output.backprop_data := gradient
}.

(** The optimizer counts the updates since its last reset. *)
#[global] Instance optimizer_ops : Optimizer.Ops Z := {
  Optimizer.reset _ := 0
}.

(** Groups of [n], the last one possibly short. *)
Fixpoint chunks {A} (fuel n : nat) (l : list A) : list (list A) :=
  match fuel with
  | O => []
  | S fuel' =>
      match l with
      | [] => []
      | _ => take n l :: chunks fuel' n (drop n l)
      end
  end.

(** The generator is a counter: a draw rotates the samples by it and
    advances it by one. *)
Definition shuffled_batches (x y : list Z) (batch_size r : Z)
  : list (list Z * list Z) * Z :=
  let samples := rotate (Z.to_nat r) (zip x y) in
  ((fun c : list (Z * Z) => (fst <$> c, snd <$> c))
     <$> chunks (length samples) (Z.to_nat (Z.max 1 batch_size)) samples,
   r + 1).

#[global] Instance random_ops : Random.Ops (list Z) (list Z) Z := {
  Random.seed s := s;
  Random.create_shuffled_batches := shuffled_batches
}.

(** The callback keeps its four counters and the (epoch, batch) pairs its
    pre-training hook was called at. *)
Record callback : Type := mkCallback {
  m_nbatch : Z;
  m_nepoch : Z;
  m_epoch_id : Z;
  m_batch_id : Z;
  seen : list (Z * Z)
}.

#[global] Instance callback_ops
  : Callback.Ops (list Z) (list Z) (Network Z head callback layer) callback := {
  Callback.set_nbatch c n :=
    mkCallback n (m_nepoch c) (m_epoch_id c) (m_batch_id c) (seen c);
  Callback.set_nepoch c n :=
    mkCallback (m_nbatch c) n (m_epoch_id c) (m_batch_id c) (seen c);
  Callback.set_epoch_id c k :=
    mkCallback (m_nbatch c) (m_nepoch c) k (m_batch_id c) (seen c);
  Callback.set_batch_id c i :=
    mkCallback (m_nbatch c) (m_nepoch c) (m_epoch_id c) i (seen c);
  Callback.pre_training_batch c _ _ _ :=
    mkCallback (m_nbatch c) (m_nepoch c) (m_epoch_id c) (m_batch_id c)
               (seen c ++ [(m_epoch_id c, m_batch_id c)]);
  Callback.post_training_batch c _ _ _ := c
}.

(** Two layers of width 1, weights 2 and 3. *)
Definition layer0 : layer := mkLayer 2 1 1 [] [] 0.
Definition layer1 : layer := mkLayer 3 1 1 [] [] 0.

(** A world around the layers [ls], with a head and a callback installed. *)
Definition world_of (ls : list layer)
  : World (Network Z head callback layer) Z (Event (list Z) (list Z) Z) :=
  mkWorld (mkNetwork 0 (Some (mkHead 0 [])) (Some (mkCallback 0 0 0 0 [])) ls)
          0 [].

Definition world2 := world_of [layer0; layer1].

(** The network as default-constructed: no layer, both handles null. *)
Definition world0
  : World (Network Z head callback layer) Z (Event (list Z) (list Z) Z) :=
  mkWorld (mkNetwork 1 None None []) 0 [].

(** Three samples with one feature each, and their targets. *)
Definition x3 : list Z := [1; 2; 3].
Definition y3 : list Z := [10; 20; 30].

End Toy.

(** ** The network *)

Module Network.
Section Network.
Context {Matrix Target Scalar Rng Opt L O C : Type}.
Context `{!MatrixOps Matrix}.
Context `{!Layer.Ops Matrix Scalar Rng Opt L}.
Context `{!Output.Ops Matrix Target O}.
Context `{!Optimizer.Ops Opt}.
Context `{!Random.Ops Matrix Target Rng}.
Context `{!Callback.Ops Matrix Target (Network Rng O C L) C}.

Abbreviation Net := (Network Rng O C L).
Abbreviation Ev := (Event Matrix Target Scalar).
Abbreviation St := (World Net Opt Ev).
Abbreviation M := (SE.M St).

Local Open Scope se_scope.

(** *** State access *)

Definition with_layers (ls : list L) (n : Net) : Net :=
  mkNetwork (m_rng n) (m_output n) (m_callback n) ls.

Definition with_output (o : option O) (n : Net) : Net :=
  mkNetwork (m_rng n) o (m_callback n) (m_layers n).

Definition with_callback (c : option C) (n : Net) : Net :=
  mkNetwork (m_rng n) (m_output n) c (m_layers n).

Definition with_rng (r : Rng) (n : Net) : Net :=
  mkNetwork r (m_output n) (m_callback n) (m_layers n).

Definition on_net (f : Net -> Net) (w : St) : St :=
  mkWorld (f (net w)) (opt w) (trace w).

Definition with_opt (o : Opt) (w : St) : St :=
  mkWorld (net w) o (trace w).

(** Append one observed call to the trace. *)
Definition emit (e : Ev) : M unit :=
  SE.modify (fun w => mkWorld (net w) (opt w) (trace w ++ [e])).

(** [m_layers[i]], read. *)
Definition layer_at (i : Z) : M L :=
  fun w =>
    if i <? 0 then (inl OutOfRange, w)
    else match m_layers (net w) !! Z.to_nat i with
         | Some l => (inr l, w)
         | None => (inl OutOfRange, w)
         end.

(** The object [m_layers[i]] points to is replaced by its next state. *)
Definition set_layer (i : Z) (l : L) : M unit :=
  SE.modify (on_net (fun n => with_layers (<[Z.to_nat i := l]> (m_layers n)) n)).

(** [m_output->], [m_callback->]. *)
Definition the_output : M O :=
  fun w => match m_output (net w) with
           | Some o => (inr o, w)
           | None => (inl NullHandle, w)
           end.

Definition the_callback : M C :=
  fun w => match m_callback (net w) with
           | Some c => (inr c, w)
           | None => (inl NullHandle, w)
           end.

(** *** Calls on the collaborators *)

Definition call_forward (i : Z) (input : Matrix) : M unit :=
  l <- layer_at i ;;
  emit (EvLayerForward i input) ;;
  set_layer i (Layer.forward l input).

Definition call_backprop (i : Z) (prev_layer_data next_layer_data : Matrix) : M unit :=
  l <- layer_at i ;;
  emit (EvLayerBackprop i prev_layer_data next_layer_data) ;;
  set_layer i (Layer.backprop l prev_layer_data next_layer_data).

Definition call_update (i : Z) : M unit :=
  l <- layer_at i ;;
  emit (EvLayerUpdate i) ;;
  o <- SE.gets opt ;;
  let '(l', o') := Layer.update l o in
  SE.modify (with_opt o') ;;
  set_layer i l'.

Definition call_init (i : Z) (mu sigma : Scalar) : M unit :=
  l <- layer_at i ;;
  emit (EvLayerInit i) ;;
  r <- SE.gets (fun w => m_rng (net w)) ;;
  let '(l', r') := Layer.init l mu sigma r in
  SE.modify (on_net (with_rng r')) ;;
  set_layer i l'.

Definition call_set_parameters (i : Z) (param : list Scalar) : M unit :=
  l <- layer_at i ;;
  emit (EvLayerSetParameters i param) ;;
  match Layer.set_parameters l param with
  | Some l' => set_layer i l'
  | None => SE.throw LayerRejected
  end.

Definition call_check_target_data (target : Target) : M unit :=
  o <- the_output ;;
  emit (EvCheckTargetData target) ;;
  if Output.check_target_data o target then SE.ret tt
  else SE.throw TargetMismatch.

Definition call_evaluate (prev_layer_data : Matrix) (target : Target) : M unit :=
  o <- the_output ;;
  emit (EvEvaluate prev_layer_data target) ;;
  SE.modify (on_net (with_output (Some (Output.evaluate o prev_layer_data target)))).

(** *** Member functions *)

(** [int num_layers() const { return m_layers.size(); }]; the size is taken
    to fit an [int]. *)
Definition num_layers : M Z :=
  SE.gets (fun w => Z.of_nat (length (m_layers (net w)))).

(** [void check_unit_sizes() const] *)
Definition check_unit_sizes : M unit :=
  nlayer <- num_layers ;;
  if nlayer <=? 1 then SE.ret tt
  else
    SE.for_up 1 nlayer (fun i =>
      li <- layer_at i ;;
      lp <- layer_at (i - 1) ;;
      if negb (Layer.in_size li =? Layer.out_size lp)
      then SE.throw ShapeMismatch
      else SE.ret tt).

(** [void forward(const Matrix& input)] *)
Definition forward (input : Matrix) : M unit :=
  nlayer <- num_layers ;;
  if nlayer <=? 0 then SE.ret tt
  else
    l0 <- layer_at 0 ;;
    if negb (rows input =? Layer.in_size l0)
    then SE.throw ShapeMismatch
    else
      call_forward 0 input ;;
      SE.for_up 1 nlayer (fun i =>
        lp <- layer_at (i - 1) ;;
        call_forward i (Layer.output lp)).

(** [template <typename TargetType>
     void backprop(const Matrix& input, const TargetType& target)] *)
Definition backprop (input : Matrix) (target : Target) : M unit :=
  nlayer <- num_layers ;;
  if nlayer <=? 0 then SE.ret tt
  else
    (* first_layer = m_layers[0], last_layer = m_layers[nlayer - 1] *)
    layer_at 0 ;;
    last_layer <- layer_at (nlayer - 1) ;;
    call_check_target_data target ;;
    call_evaluate (Layer.output last_layer) target ;;
    if nlayer =? 1 then
      o <- the_output ;;
      call_backprop 0 input (Output.backprop_data o)
    else
      lp <- layer_at (nlayer - 2) ;;
      o <- the_output ;;
      call_backprop (nlayer - 1) (Layer.output lp) (Output.backprop_data o) ;;
      SE.for_down (nlayer - 2) 0 (fun i =>
        lp <- layer_at (i - 1) ;;
        ln <- layer_at (i + 1) ;;
        call_backprop i (Layer.output lp) (Layer.backprop_data ln)) ;;
      l1 <- layer_at 1 ;;
      call_backprop 0 input (Layer.backprop_data l1).

(** [void update(Optimizer<Scalar>& opt)] *)
Definition update : M unit :=
  nlayer <- num_layers ;;
  if nlayer <=? 0 then SE.ret tt
  else SE.for_up 0 nlayer call_update.


(** [Network()]: the built-in generator is seeded with 1, both handles are
    null, there is no layer. *)
Definition default_network : Net :=
  mkNetwork (Random.seed 1) None None [].

(** [Network(std::mt19937& rng)] *)
Definition network_with_rng (rng : Rng) : Net :=
  mkNetwork rng None None [].

(** [addLayer(layer)]: [m_layers.push_back(std::make_shared<T>(layer))] *)
Definition addLayer (layer : L) : M unit :=
  SE.modify (on_net (fun n => with_layers (m_layers n ++ [layer]) n)).

(** [setOutput(output)] *)
Definition setOutput (output : O) : M unit :=
  SE.modify (on_net (with_output (Some output))).

(** [setCallback(callback)] *)
Definition setCallback (callback : C) : M unit :=
  SE.modify (on_net (with_callback (Some callback))).

(** [void init(mu, sigma, seed)] *)
Definition init (mu sigma : Scalar) (seed : Z) : M unit :=
  check_unit_sizes ;;
  (if seed >? 0
   then emit (EvRngSeed seed) ;; SE.modify (on_net (with_rng (Random.seed seed)))
   else SE.ret tt) ;;
  nlayer <- num_layers ;;
  SE.for_up 0 nlayer (fun i => call_init i mu sigma).

(** [std::vector<std::vector<Scalar>> get_parameters() const] *)
Definition get_parameters : M (list (list Scalar)) :=
  nlayer <- num_layers ;;
  SE.for_up_fold 0 nlayer (fun i res =>
    l <- layer_at i ;;
    SE.ret (res ++ [Layer.get_parameters l])) [].

(** [param[i]], read *)
Definition param_at (param : list (list Scalar)) (i : Z) : M (list Scalar) :=
  fun w =>
    if i <? 0 then (inl OutOfRange, w)
    else match param !! Z.to_nat i with
         | Some p => (inr p, w)
         | None => (inl OutOfRange, w)
         end.

(** [void set_parameters(const std::vector<std::vector<Scalar>>& param)].
    The count check compares [static_cast<int>(param.size())] with [nlayer];
    [param.size()] is taken to fit an [int], as the number of layers is, and
    is compared as it is. *)
Definition set_parameters (param : list (list Scalar)) : M unit :=
  nlayer <- num_layers ;;
  if negb (Z.of_nat (length param) =? nlayer)
  then SE.throw ParameterCountMismatch
  else
    SE.for_up 0 nlayer (fun i =>
      p <- param_at param i ;;
      call_set_parameters i p).

(** [std::vector<std::vector<Scalar>> get_derivatives() const] *)
Definition get_derivatives : M (list (list Scalar)) :=
  nlayer <- num_layers ;;
  SE.for_up_fold 0 nlayer (fun i res =>
    l <- layer_at i ;;
    SE.ret (res ++ [Layer.get_derivatives l])) [].

(** [x_batches[i]] and [y_batches[i]], read *)
Definition batch_at (batches : list (Matrix * Target)) (i : Z) : M (Matrix * Target) :=
  fun w =>
    if i <? 0 then (inl OutOfRange, w)
    else match batches !! Z.to_nat i with
         | Some b => (inr b, w)
         | None => (inl OutOfRange, w)
         end.

(** [m_callback->field = v] and the two hooks *)
Definition call_callback (e : Ev) (f : C -> Net -> C) : M unit :=
  c <- the_callback ;;
  emit e ;;
  SE.modify (on_net (fun n => with_callback (Some (f c n)) n)).

(** One pass of the inner loop of [fit] *)
Definition train_batch (batches : list (Matrix * Target)) (i : Z) : M unit :=
  call_callback (EvSetBatchId i) (fun c _ => Callback.set_batch_id c i) ;;
  b <- batch_at batches i ;;
  call_callback (EvPreTrainingBatch (fst b) (snd b))
    (fun c n => Callback.pre_training_batch c n (fst b) (snd b)) ;;
  forward (fst b) ;;
  backprop (fst b) (snd b) ;;
  update ;;
  call_callback (EvPostTrainingBatch (fst b) (snd b))
    (fun c n => Callback.post_training_batch c n (fst b) (snd b)).

(** [bool fit(Optimizer<Scalar>& opt, const DerivedX& x, const DerivedY& y,
              int batch_size, int epoch, int seed = -1)]; [opt] is the
    optimizer of the world. *)
Definition fit (x : Matrix) (y : Target) (batch_size epoch seed : Z) : M bool :=
  nlayer <- num_layers ;;
  if nlayer <=? 0 then SE.ret false
  else
    emit EvOptReset ;;
    SE.modify (fun w => with_opt (Optimizer.reset (opt w)) w) ;;
    (if seed >? 0
     then emit (EvRngSeed seed) ;; SE.modify (on_net (with_rng (Random.seed seed)))
     else SE.ret tt) ;;
    emit (EvCreateShuffledBatches x y batch_size) ;;
    r <- SE.gets (fun w => m_rng (net w)) ;;
    let '(batches, r') := Random.create_shuffled_batches x y batch_size r in
    SE.modify (on_net (with_rng r')) ;;
    let nbatch := Z.of_nat (length batches) in
    call_callback (EvSetNbatch nbatch) (fun c _ => Callback.set_nbatch c nbatch) ;;
    call_callback (EvSetNepoch epoch) (fun c _ => Callback.set_nepoch c epoch) ;;
    SE.for_up 0 epoch (fun k =>
      call_callback (EvSetEpochId k) (fun c _ => Callback.set_epoch_id c k) ;;
      SE.for_up 0 nbatch (train_batch batches)) ;;
    SE.ret true.

(** [Matrix predict(const Matrix& x)] *)
Definition predict (x : Matrix) : M Matrix :=
  nlayer <- num_layers ;;
  if nlayer <=? 0 then SE.ret empty_matrix
  else
    forward x ;;
    l <- layer_at (nlayer - 1) ;;
    SE.ret (Layer.output l).


(** *** Pure descriptions of the passes *)

(** The adjacent widths agree all along the pipeline. *)
Fixpoint sizes_match (ls : list L) : bool :=
  match ls with
  | l :: (l' :: _) as tl => (Layer.in_size l' =? Layer.out_size l) && sizes_match tl
  | _ => true
  end.

(** What the forward pass leaves in the layers: each layer has run [forward]
    on the output its predecessor has just cached, the first one on the
    input. *)
Fixpoint forward_states (input : Matrix) (ls : list L) : list L :=
  match ls with
  | [] => []
  | l :: ls' =>
      let l' := Layer.forward l input in
      l' :: forward_states (Layer.output l') ls'
  end.

(** The calls of the forward pass, layer [i] being the head of [ls]. *)
Fixpoint forward_calls (i : Z) (input : Matrix) (ls : list L) : list Ev :=
  match ls with
  | [] => []
  | l :: ls' =>
      EvLayerForward i input
      :: forward_calls (i + 1) (Layer.output (Layer.forward l input)) ls'
  end.

(** The gradient handed to a layer: the one its successor has just cached,
    the one of the output head for the last layer. *)
Definition next_of (done : list L) (g : Matrix) : Matrix :=
  match done with
  | [] => g
  | l1 :: _ => Layer.backprop_data l1
  end.

(** The forward output cached by the last layer of [pre], [p] if there is
    none. *)
Definition prev_of (pre : list L) (p : Matrix) : Matrix :=
  match last pre with
  | Some l => Layer.output l
  | None => p
  end.

(** What back-propagation leaves in the layers, [prev] being what the head
    of [ls] is to receive as the data of its predecessor and [g] the
    gradient of the output head. *)
Fixpoint backprop_states (prev : Matrix) (ls : list L) (g : Matrix) : list L :=
  match ls with
  | [] => []
  | l :: ls' =>
      let rest := backprop_states (Layer.output l) ls' g in
      Layer.backprop l prev (next_of rest g) :: rest
  end.

(** The calls of back-propagation in call order, layer [i] being the head of
    [ls]: the successors first. *)
Fixpoint backprop_calls (i : Z) (prev : Matrix) (ls : list L) (g : Matrix) : list Ev :=
  match ls with
  | [] => []
  | l :: ls' =>
      backprop_calls (i + 1) (Layer.output l) ls' g
      ++ [EvLayerBackprop i prev (next_of (backprop_states (Layer.output l) ls' g) g)]
  end.

(** Layer by layer: [l] accepts [p] and becomes [l']. *)
Definition accepts (l : L) (p : list Scalar) (l' : L) : Prop :=
  Layer.set_parameters l p = Some l'.

(** What [update] leaves in the layers and in the optimizer. *)
Fixpoint update_states (ls : list L) (o : Opt) : list L * Opt :=
  match ls with
  | [] => ([], o)
  | l :: ls' =>
      let '(l', o') := Layer.update l o in
      let '(r, o'') := update_states ls' o' in
      (l' :: r, o'')
  end.

(** *** The shape of a training run, as [fit] is specified *)

(** The calls of one training pass over the batch [b] through [nlayer]
    layers: [forward] on layers [0 .. nlayer-1], the first one on the batch
    predictors; the output head on the batch targets; [backprop] on layers
    [nlayer-1 .. 0], layer 0 on the batch predictors; [update] on layers
    [0 .. nlayer-1]. *)
Definition pass_calls (nlayer : nat) (b : Matrix * Target) (seg : list Ev) : Prop :=
  exists fargs p bargs,
    seg = imap (fun j a => EvLayerForward (Z.of_nat j) a) fargs
          ++ [EvCheckTargetData (snd b); EvEvaluate p (snd b)]
          ++ reverse (imap (fun j pn => EvLayerBackprop (Z.of_nat j) (fst pn) (snd pn))
                           bargs)
          ++ (EvLayerUpdate <$> seqZ 0 (Z.of_nat nlayer)) /\
    length fargs = nlayer /\ length bargs = nlayer /\
    head fargs = Some (fst b) /\ fst <$> head bargs = Some (fst b).

(** Batch [i] of an epoch: the batch id is set, then the pre-hook, the
    pass, the post-hook. *)
Definition batch_trace (nlayer : nat) (batches : list (Matrix * Target))
    (i : Z) (t : list Ev) : Prop :=
  exists b seg,
    0 <= i /\ batches !! Z.to_nat i = Some b /\
    t = [EvSetBatchId i; EvPreTrainingBatch (fst b) (snd b)]
        ++ seg ++ [EvPostTrainingBatch (fst b) (snd b)] /\
    pass_calls nlayer b seg.

(** Epoch [k]: the epoch id is set, then the batches [0 .. B-1] in order. *)
Definition epoch_trace (nlayer : nat) (batches : list (Matrix * Target))
    (k : Z) (t : list Ev) : Prop :=
  exists bts,
    t = EvSetEpochId k :: concat bts /\
    Forall2 (batch_trace nlayer batches)
            (seqZ 0 (Z.of_nat (length batches))) bts.

(** The calls of a pass: neither a hook nor a draw of the scheduler. *)
Definition pass_event (e : Ev) : Prop :=
  match e with
  | EvLayerForward _ _ | EvLayerBackprop _ _ _ | EvLayerUpdate _
  | EvCheckTargetData _ | EvEvaluate _ _ => True
  | _ => False
  end.

(** The batches handed to the pre-training hook, in call order. *)
Definition pre_batches (tr : list Ev) : list (Matrix * Target) :=
  omap (fun e => match e with
                 | EvPreTrainingBatch x y => Some (x, y)
                 | _ => None
                 end) tr.

(** The number of times the batch scheduler was asked for a partition. *)
Definition partition_draws (tr : list Ev) : nat :=
  length (omap (fun e => match e with
                         | EvCreateShuffledBatches _ _ _ => Some tt
                         | _ => None
                         end) tr).

(** The generator the partition of [fit] is drawn from. *)
Definition fit_rng (seed : Z) (w : St) : Rng :=
  if seed >? 0 then Random.seed seed else m_rng (net w).

(** C3 as the specification words it: a partition per epoch, each drawn from
    the generator as the previous draw has left it. *)
Fixpoint spec_partitions_per_epoch (nepoch : nat) (x : Matrix) (y : Target)
    (batch_size : Z) (r : Rng) : list (list (Matrix * Target)) :=
  match nepoch with
  | 0%nat => []
  | S n =>
      let '(batches, r') := Random.create_shuffled_batches x y batch_size r in
      batches :: spec_partitions_per_epoch n x y batch_size r'
  end.

(** C3 as the specification words it, for one call of [fit]: the batches
    the epochs run over are the partitions drawn one per epoch. *)
Definition spec_fit_reshuffles (w : St) (x : Matrix) (y : Target)
    (batch_size epoch seed : Z) : Prop :=
  forall b w' tr,
    fit x y batch_size epoch seed w = (inr b, w') ->
    trace w' = trace w ++ tr ->
    pre_batches tr
    = concat (spec_partitions_per_epoch (Z.to_nat epoch) x y batch_size
                (m_rng (net w))).

(** What a training pass needs to find: both handles set, and a first layer
    that declares the input size [s]. *)
Definition ready (s : Z) (w : St) : Prop :=
  is_Some (m_callback (net w)) /\ is_Some (m_output (net w)) /\
  exists l0 rest, m_layers (net w) = l0 :: rest /\ Layer.in_size l0 = s.

(** What training leaves alone: the number of layers and the generator. *)
Definition steady (nlayer : nat) (r : Rng) (w : St) : Prop :=
  length (m_layers (net w)) = nlayer /\ m_rng (net w) = r.

(** The world once the layers have become [ls] and the calls [evs] have been
    observed. *)
Definition after (ls : list L) (evs : list Ev) (w : St) : St :=
  mkWorld (with_layers ls (net w)) (opt w) (trace w ++ evs).

(** *** Descriptions used by the further facts *)

(** What [init] leaves in the layers and in the generator: the layers draw
    one after the other from the one stream. *)
Fixpoint init_states (ls : list L) (mu sigma : Scalar) (r : Rng) : list L * Rng :=
  match ls with
  | [] => ([], r)
  | l :: ls' =>
      let '(l', r') := Layer.init l mu sigma r in
      let '(rest, r'') := init_states ls' mu sigma r' in
      (l' :: rest, r'')
  end.

(** What a member function has left alone between [w] and [w']: always the
    number of layers, and each of the generator, the output handle, the
    callback handle and the optimizer whose flag is set. *)
Definition kept (rng out cb op : bool) (w w' : St) : Prop :=
  length (m_layers (net w')) = length (m_layers (net w)) /\
  (rng = true -> m_rng (net w') = m_rng (net w)) /\
  (out = true -> m_output (net w') = m_output (net w)) /\
  (cb = true -> m_callback (net w') = m_callback (net w)) /\
  (op = true -> opt w' = opt w).

(** The calls [fit] makes before its first epoch. *)
Definition fit_header (x : Matrix) (y : Target) (batch_size epoch seed : Z)
    (nbatch : nat) : list Ev :=
  [EvOptReset] ++ (if seed >? 0 then [EvRngSeed seed] else [])
  ++ [EvCreateShuffledBatches x y batch_size;
      EvSetNbatch (Z.of_nat nbatch); EvSetNepoch epoch].

(** The world in which [fit] reaches its first write to the callback: the
    optimizer is reset, the generator reseeded when [seed > 0] and advanced
    by the one draw of the batch scheduler. *)
Definition fit_start (x : Matrix) (y : Target) (batch_size seed : Z) (w : St) : St :=
  mkWorld
    (with_rng (snd (Random.create_shuffled_batches x y batch_size (fit_rng seed w)))
              (net w))
    (Optimizer.reset (opt w))
    (trace w ++ [EvOptReset] ++ (if seed >? 0 then [EvRngSeed seed] else [])
             ++ [EvCreateShuffledBatches x y batch_size]).

(** The rest of [fit], from that write on. *)
Definition fit_loops (batches : list (Matrix * Target)) (epoch : Z) : M bool :=
  let nbatch := Z.of_nat (length batches) in
  call_callback (EvSetNbatch nbatch) (fun c _ => Callback.set_nbatch c nbatch) ;;
  call_callback (EvSetNepoch epoch) (fun c _ => Callback.set_nepoch c epoch) ;;
  SE.for_up 0 epoch (fun k =>
    call_callback (EvSetEpochId k) (fun c _ => Callback.set_epoch_id c k) ;;
    SE.for_up 0 nbatch (train_batch batches)) ;;
  SE.ret true.

(** The outcome [e] is never the one of [m]. *)
Definition never {A} (e : Err) (m : M A) : Prop :=
  forall w, fst (m w) <> inl e.

(** *** A whole run of fit, as it is specified *)

(** The procedure of the specification for [fit], step by step and without
    the machinery of the code (no loop counter, no index read, no check):
    what is left in the world by telling the callback something, by one
    training pass, by one batch, by one epoch and by the whole run.  These
    are total functions; [fit] is compared with them. *)

(** The callback the handle points to is told [e]: it becomes [f c n], [c]
    being the callback and [n] the network as they are at that moment. *)
Definition told (e : Ev) (f : C -> Net -> C) (w : St) : St :=
  match m_callback (net w) with
  | Some c =>
      mkWorld (with_callback (Some (f c (net w))) (net w)) (opt w) (trace w ++ [e])
  | None => w
  end.

(** One training pass over the batch [b]: the layers run forward from the
    batch predictors, the head is evaluated on the last output and the batch
    targets, the layers run backward from the gradient of the head, and every
    layer is updated with the one optimizer. *)
Definition spec_pass (b : Matrix * Target) (w : St) : St :=
  match m_output (net w) with
  | Some o =>
      let ls1 := forward_states (fst b) (m_layers (net w)) in
      let p := prev_of ls1 (fst b) in
      let o' := Output.evaluate o p (snd b) in
      let g := Output.backprop_data o' in
      let ls2 := backprop_states (fst b) ls1 g in
      let us := update_states ls2 (opt w) in
      mkWorld
        (mkNetwork (m_rng (net w)) (Some o') (m_callback (net w)) (fst us))
        (snd us)
        (trace w
         ++ forward_calls 0 (fst b) (m_layers (net w))
         ++ [EvCheckTargetData (snd b); EvEvaluate p (snd b)]
         ++ backprop_calls 0 (fst b) ls1 g
         ++ (EvLayerUpdate <$> seqZ 0 (Z.of_nat (length ls2))))
  | None => w
  end.

(** Batch [i] of an epoch: the callback is told the batch id, its
    pre-training hook runs on the batch, the pass is made, its post-training
    hook runs on the batch. *)
Definition spec_batch (i : Z) (b : Matrix * Target) (w : St) : St :=
  told (EvPostTrainingBatch (fst b) (snd b))
       (fun c n => Callback.post_training_batch c n (fst b) (snd b))
    (spec_pass b
       (told (EvPreTrainingBatch (fst b) (snd b))
             (fun c n => Callback.pre_training_batch c n (fst b) (snd b))
          (told (EvSetBatchId i) (fun c _ => Callback.set_batch_id c i) w))).

(** The batches [bs], numbered from [i] on, one after the other. *)
Fixpoint spec_batches (i : Z) (bs : list (Matrix * Target)) (w : St) : St :=
  match bs with
  | [] => w
  | b :: bs' => spec_batches (i + 1) bs' (spec_batch i b w)
  end.

(** Epoch [k]: the callback is told the epoch id, then come the batches
    [0 .. B-1]. *)
Definition spec_epoch (batches : list (Matrix * Target)) (k : Z) (w : St) : St :=
  spec_batches 0 batches
    (told (EvSetEpochId k) (fun c _ => Callback.set_epoch_id c k) w).

(** The epochs [k, k+1, ...], [n] of them. *)
Fixpoint spec_epochs (batches : list (Matrix * Target)) (n : nat) (k : Z) (w : St) : St :=
  match n with
  | 0%nat => w
  | S n' => spec_epochs batches n' (k + 1) (spec_epoch batches k w)
  end.

(** The whole run: the optimizer is reset and the partition drawn
    ([fit_start]), the callback is told the batch count and the epoch count,
    then come the epochs [0 .. epoch-1]. *)
Definition spec_fit (x : Matrix) (y : Target) (batch_size epoch seed : Z) (w : St) : St :=
  let batches :=
    fst (Random.create_shuffled_batches x y batch_size (fit_rng seed w)) in
  let nbatch := Z.of_nat (length batches) in
  spec_epochs batches (Z.to_nat epoch) 0
    (told (EvSetNepoch epoch) (fun c _ => Callback.set_nepoch c epoch)
       (told (EvSetNbatch nbatch) (fun c _ => Callback.set_nbatch c nbatch)
          (fit_start x y batch_size seed w))).

(** *** What can end a run *)


(** The network a caller gets from a constructor followed by [addLayer] for
    each layer of [ls], in that order, and [setOutput]: no [setCallback]. *)
Definition built (n0 : Net) (ls : list L) (o : O) (op : Opt) : St :=
  snd (setOutput o
         (foldl (fun v l => snd (addLayer l v)) (mkWorld n0 op []) ls)).

(** *** Sizes as [int]s *)

(** The largest [int], and [static_cast<int>(n)] of a [std::size_t]: the low
    32 bits read in two's complement, which is [n] itself up to [max_int]. *)
Definition max_int : Z := 2 ^ 31 - 1.

Definition static_cast_int (n : Z) : Z := (n + 2 ^ 31) mod 2 ^ 32 - 2 ^ 31.


(** ** Facts *)

(** *** The monad *)

Lemma bind_inr {A B} (m : M A) (k : A -> M B) w a w' :
  m w = (inr a, w') -> SE.bind m k w = k a w'.
Proof. unfold SE.bind. intros ->. reflexivity. Qed.

Lemma bind_inl {A B} (m : M A) (k : A -> M B) w e w' :
  m w = (inl e, w') -> SE.bind m k w = (inl e, w').
Proof. unfold SE.bind. intros ->. reflexivity. Qed.

Lemma layer_at_Some w (i : nat) l :
  m_layers (net w) !! i = Some l -> layer_at (Z.of_nat i) w = (inr l, w).
Proof.
  intros Hl. unfold layer_at.
  destruct (Z.ltb_spec (Z.of_nat i) 0) as [Hneg|_]; [lia|].
  rewrite Nat2Z.id, Hl. reflexivity.
Qed.

Lemma after_after ls1 evs1 ls2 evs2 w :
  after ls2 evs2 (after ls1 evs1 w) = after ls2 (evs1 ++ evs2) w.
Proof. unfold after. cbn. rewrite app_assoc. reflexivity. Qed.

Lemma after_id w : after (m_layers (net w)) [] w = w.
Proof. destruct w as [[] ? ?]. unfold after. cbn. rewrite app_nil_r. reflexivity. Qed.

Lemma after_layers ls evs w : m_layers (net (after ls evs w)) = ls.
Proof. reflexivity. Qed.

(** *** check_unit_sizes *)

Lemma sizes_match_false ls :
  sizes_match ls = false <->
  exists i li ln, ls !! i = Some li /\ ls !! S i = Some ln /\
                  Layer.in_size ln <> Layer.out_size li.
Proof.
  induction ls as [|l [|l' tl] IH].
  - split; [discriminate|]. intros (i & li & ln & Hi & _). destruct i; discriminate.
  - split; [discriminate|]. intros (i & li & ln & _ & Hi & _). destruct i; discriminate.
  - change (sizes_match (l :: l' :: tl))
      with ((Layer.in_size l' =? Layer.out_size l) && sizes_match (l' :: tl)).
    rewrite andb_false_iff, IH, Z.eqb_neq. split.
    + intros [Hne|(i & li & ln & Hi & Hn & Hne)].
      * exists 0%nat, l, l'. auto.
      * exists (S i), li, ln. auto.
    + intros (i & li & ln & Hi & Hn & Hne). destruct i as [|i].
      * left. simpl in Hi, Hn. congruence.
      * right. exists i, li, ln. auto.
Qed.

Lemma check_loop w pre lp rest :
  m_layers (net w) = pre ++ lp :: rest ->
  SE.for_up_n (length rest) (Z.of_nat (S (length pre)))
    (fun i =>
       li <- layer_at i ;;
       lp <- layer_at (i - 1) ;;
       if negb (Layer.in_size li =? Layer.out_size lp)
       then SE.throw ShapeMismatch
       else SE.ret tt) w
  = (if sizes_match (lp :: rest) then inr tt else inl ShapeMismatch, w).
Proof.
  revert pre lp. induction rest as [|ln rest IH]; intros pre lp Hw.
  - reflexivity.
  - cbn [length SE.for_up_n].
    assert (Hn : layer_at (Z.of_nat (S (length pre))) w = (inr ln, w)).
    { apply layer_at_Some. rewrite Hw.
      rewrite lookup_app_r by lia.
      replace (S (length pre) - length pre)%nat with 1%nat by lia. reflexivity. }
    assert (Hp : layer_at (Z.of_nat (S (length pre)) - 1) w = (inr lp, w)).
    { replace (Z.of_nat (S (length pre)) - 1) with (Z.of_nat (length pre)) by lia.
      apply layer_at_Some. rewrite Hw. rewrite lookup_app_r by lia.
      rewrite Nat.sub_diag. reflexivity. }
    change (sizes_match (lp :: ln :: rest))
      with ((Layer.in_size ln =? Layer.out_size lp) && sizes_match (ln :: rest)).
    destruct (Layer.in_size ln =? Layer.out_size lp) eqn:Heq; cbn [andb].
    + erewrite bind_inr; cycle 1.
      { erewrite bind_inr by exact Hn. erewrite bind_inr by exact Hp.
        rewrite Heq. reflexivity. }
      replace (Z.of_nat (S (length pre)) + 1)
        with (Z.of_nat (S (length (pre ++ [lp])))) by (rewrite length_app; simpl; lia).
      apply IH. rewrite Hw, <- app_assoc. reflexivity.
    + erewrite bind_inl; [reflexivity|].
      erewrite bind_inr by exact Hn. erewrite bind_inr by exact Hp.
      rewrite Heq. reflexivity.
Qed.

Lemma check_unit_sizes_eval w :
  check_unit_sizes w
  = (if sizes_match (m_layers (net w)) then inr tt else inl ShapeMismatch, w).
Proof.
  unfold check_unit_sizes, num_layers.
  erewrite bind_inr by reflexivity.
  destruct (m_layers (net w)) as [|l0 [|l1 rest]] eqn:Hls.
  - reflexivity.
  - reflexivity.
  - destruct (Z.leb_spec (Z.of_nat (length (l0 :: l1 :: rest))) 1) as [Hle|_].
    { simpl in Hle. lia. }
    unfold SE.for_up.
    replace (Z.to_nat (Z.of_nat (length (l0 :: l1 :: rest)) - 1))
      with (length (l1 :: rest)) by (simpl; lia).
    apply (check_loop w [] l0 (l1 :: rest)). exact Hls.
Qed.

(** *** forward *)

Lemma call_forward_eval w (i : nat) l m :
  m_layers (net w) !! i = Some l ->
  call_forward (Z.of_nat i) m w
  = (inr tt, after (<[i := Layer.forward l m]> (m_layers (net w)))
                   [EvLayerForward (Z.of_nat i) m] w).
Proof.
  intros Hl. unfold call_forward.
  erewrite bind_inr by (apply layer_at_Some; exact Hl).
  unfold emit, set_layer, SE.modify, SE.bind, on_net, after. cbn.
  rewrite Nat2Z.id. reflexivity.
Qed.

Lemma insert_middle {A} (pre : list A) l l' rest :
  <[length pre := l']> (pre ++ l :: rest) = pre ++ l' :: rest.
Proof.
  rewrite insert_app_r_alt by lia. rewrite Nat.sub_diag. reflexivity.
Qed.

Lemma lookup_middle {A} (pre : list A) l rest :
  (pre ++ l :: rest) !! length pre = Some l.
Proof. rewrite lookup_app_r by lia. rewrite Nat.sub_diag. reflexivity. Qed.

Lemma forward_loop rest : forall w pre lp,
  m_layers (net w) = pre ++ lp :: rest ->
  SE.for_up_n (length rest) (Z.of_nat (S (length pre)))
    (fun i => lp <- layer_at (i - 1) ;; call_forward i (Layer.output lp)) w
  = (inr tt,
     after (pre ++ lp :: forward_states (Layer.output lp) rest)
           (forward_calls (Z.of_nat (S (length pre))) (Layer.output lp) rest) w).
Proof.
  induction rest as [|l rest IH]; intros w pre lp Hw.
  - cbn. rewrite <- Hw, after_id. reflexivity.
  - cbn [length SE.for_up_n].
    assert (Hw' : m_layers (net w) = (pre ++ [lp]) ++ l :: rest)
      by (rewrite Hw, <- app_assoc; reflexivity).
    assert (Hlen : length (pre ++ [lp]) = S (length pre))
      by (rewrite length_app; simpl; lia).
    erewrite bind_inr; cycle 1.
    { erewrite bind_inr; cycle 1.
      { replace (Z.of_nat (S (length pre)) - 1) with (Z.of_nat (length pre)) by lia.
        apply layer_at_Some. rewrite Hw. apply lookup_middle. }
      apply call_forward_eval. rewrite <- Hlen, Hw'. apply lookup_middle. }
    rewrite <- Hlen. rewrite Hw', insert_middle.
    replace (Z.of_nat (length (pre ++ [lp])) + 1)
      with (Z.of_nat (S (length (pre ++ [lp])))) by lia.
    rewrite (IH _ (pre ++ [lp]) (Layer.forward l (Layer.output lp)))
      by (rewrite after_layers; reflexivity).
    rewrite after_after. cbn [forward_states forward_calls].
    rewrite <- !app_assoc. cbn [app].
    replace (Z.of_nat (length (pre ++ [lp])) + 1)
      with (Z.of_nat (S (length (pre ++ [lp])))) by lia.
    reflexivity.
Qed.

Lemma forward_eval w input l0 rest :
  m_layers (net w) = l0 :: rest ->
  forward input w
  = if rows input =? Layer.in_size l0
    then (inr tt, after (forward_states input (l0 :: rest))
                        (forward_calls 0 input (l0 :: rest)) w)
    else (inl ShapeMismatch, w).
Proof.
  intros Hw. unfold forward, num_layers.
  erewrite bind_inr by reflexivity. rewrite Hw.
  destruct (Z.leb_spec (Z.of_nat (length (l0 :: rest))) 0) as [Hle|_].
  { simpl in Hle. lia. }
  erewrite bind_inr by (apply (layer_at_Some w 0); rewrite Hw; reflexivity).
  destruct (rows input =? Layer.in_size l0); cbn [negb]; [|reflexivity].
  erewrite bind_inr
    by (apply (call_forward_eval w 0); rewrite Hw; reflexivity).
  rewrite Hw. cbn [insert list_insert]. unfold SE.for_up.
  replace (Z.to_nat (Z.of_nat (length (l0 :: rest)) - 1)) with (length rest)
    by (simpl; lia).
  rewrite (forward_loop rest _ [] (Layer.forward l0 input))
    by (rewrite after_layers; reflexivity).
  rewrite after_after. reflexivity.
Qed.

Lemma forward_empty w input :
  m_layers (net w) = [] -> forward input w = (inr tt, w).
Proof.
  intros Hw. unfold forward, num_layers.
  erewrite bind_inr by reflexivity. rewrite Hw. reflexivity.
Qed.

Lemma forward_states_length input ls :
  length (forward_states input ls) = length ls.
Proof. revert input. induction ls; intros; cbn; auto. Qed.

Lemma forward_states_zip input ls :
  forward_states input ls
  = zip_with Layer.forward ls (input :: (Layer.output <$> forward_states input ls)).
Proof.
  revert input. induction ls as [|l ls IH]; intros input; [reflexivity|].
  cbn [forward_states]. cbn. f_equal. apply IH.
Qed.

Lemma forward_calls_imap k input ls :
  forward_calls k input ls
  = imap (fun i a => EvLayerForward (k + Z.of_nat i) a)
         (take (length ls) (input :: (Layer.output <$> forward_states input ls))).
Proof.
  revert k input. induction ls as [|l ls IH]; intros k input; [reflexivity|].
  cbn [forward_calls forward_states length take fmap list_fmap imap].
  cbn. f_equal; [f_equal; lia|].
  rewrite IH. apply imap_ext. intros i a _. cbn. f_equal. lia.
Qed.

(** *** backprop *)

Lemma call_backprop_eval w (i : nat) l p g :
  m_layers (net w) !! i = Some l ->
  call_backprop (Z.of_nat i) p g w
  = (inr tt, after (<[i := Layer.backprop l p g]> (m_layers (net w)))
                   [EvLayerBackprop (Z.of_nat i) p g] w).
Proof.
  intros Hl. unfold call_backprop.
  erewrite bind_inr by (apply layer_at_Some; exact Hl).
  unfold emit, set_layer, SE.modify, SE.bind, on_net, after. cbn.
  rewrite Nat2Z.id. reflexivity.
Qed.

Lemma prev_of_snoc pre l p : prev_of (pre ++ [l]) p = Layer.output l.
Proof. unfold prev_of. rewrite last_snoc. reflexivity. Qed.

Lemma lookup_prev_of l0 (a : list L) :
  exists lp, (l0 :: a) !! length a = Some lp /\
             Layer.output lp = prev_of a (Layer.output l0).
Proof.
  destruct a as [|x a] using rev_ind.
  - exists l0. split; reflexivity.
  - exists x. rewrite prev_of_snoc. split; [|reflexivity].
    rewrite length_app. cbn [length]. rewrite Nat.add_1_r. cbn.
    apply lookup_middle.
Qed.

Lemma backprop_states_length p ls g :
  length (backprop_states p ls g) = length ls.
Proof. revert p. induction ls; intros; cbn; auto. Qed.

Lemma backprop_loop a : forall w l0 b g,
  b <> [] ->
  m_layers (net w)
  = l0 :: a ++ backprop_states (prev_of a (Layer.output l0)) b g ->
  exists evs,
    SE.for_down_n (length a) (Z.of_nat (length a))
      (fun i =>
         lp <- layer_at (i - 1) ;;
         ln <- layer_at (i + 1) ;;
         call_backprop i (Layer.output lp) (Layer.backprop_data ln)) w
    = (inr tt, after (l0 :: backprop_states (Layer.output l0) (a ++ b) g) evs w) /\
    backprop_calls (Z.of_nat (S (length a))) (prev_of a (Layer.output l0)) b g ++ evs
    = backprop_calls 1 (Layer.output l0) (a ++ b) g.
Proof.
  induction a as [|l a IH] using rev_ind; intros w l0 b g Hb Hw.
  - exists []. cbn. rewrite app_nil_r. split; [|reflexivity].
    cbn in Hw. rewrite <- Hw, after_id. reflexivity.
  - rewrite prev_of_snoc in Hw.
    destruct b as [|lb b]; [congruence|]. clear Hb.
    assert (Hstep : forall p i,
      backprop_states p (l :: lb :: b) g
      = Layer.backprop l p (next_of (backprop_states (Layer.output l) (lb :: b) g) g)
        :: backprop_states (Layer.output l) (lb :: b) g /\
      backprop_calls i p (l :: lb :: b) g
      = backprop_calls (i + 1) (Layer.output l) (lb :: b) g
        ++ [EvLayerBackprop i p
              (next_of (backprop_states (Layer.output l) (lb :: b) g) g)])
      by (intros; split; reflexivity).
    remember (backprop_states (Layer.output l) (lb :: b) g) as dn eqn:Edn.
    assert (Hdn : exists ln dn', dn = ln :: dn') by (subst dn; cbn; eauto).
    destruct Hdn as (ln & dn' & Hdn).
    destruct (lookup_prev_of l0 a) as (lp & Hlp & Hout).
    assert (Hlen : length (a ++ [l]) = S (length a))
      by (rewrite length_app; simpl; lia).
    rewrite Hlen. cbn [SE.for_down_n].
    assert (Hw' : m_layers (net w) = (l0 :: a) ++ l :: dn).
    { rewrite Hw, <- app_assoc. reflexivity. }
    erewrite bind_inr; cycle 1.
    { erewrite bind_inr; cycle 1.
      { replace (Z.of_nat (S (length a)) - 1) with (Z.of_nat (length a)) by lia.
        apply layer_at_Some. rewrite Hw'.
        rewrite lookup_app_l by (simpl; lia). exact Hlp. }
      erewrite bind_inr; cycle 1.
      { replace (Z.of_nat (S (length a)) + 1)
          with (Z.of_nat (S (length (l0 :: a)))) by (simpl; lia).
        apply layer_at_Some. rewrite Hw', Hdn.
        rewrite lookup_app_r by lia.
        replace (S (length (l0 :: a)) - length (l0 :: a))%nat with 1%nat by lia.
        reflexivity. }
      apply call_backprop_eval.
      change (S (length a)) with (length (l0 :: a)).
      rewrite Hw'. apply lookup_middle. }
    change (S (length a)) with (length (l0 :: a)) at 2.
    rewrite Hw', insert_middle.
    replace (Z.of_nat (S (length a)) - 1) with (Z.of_nat (length a)) by lia.
    rewrite Hout.
    destruct (IH (after ((l0 :: a)
                   ++ Layer.backprop l (prev_of a (Layer.output l0))
                                       (Layer.backprop_data ln) :: dn)
                   [EvLayerBackprop (Z.of_nat (S (length a)))
                      (prev_of a (Layer.output l0)) (Layer.backprop_data ln)] w)
                l0 (l :: lb :: b) g) as (evs & Hrun & Hevs).
    { discriminate. }
    { rewrite after_layers. rewrite (proj1 (Hstep _ 0)), Hdn. reflexivity. }
    rewrite Hrun, after_after.
    rewrite <- app_assoc. cbn [app].
    eexists. split; [reflexivity|].
    rewrite <- Hevs. rewrite (proj2 (Hstep _ _)), Hdn. cbn [next_of].
    rewrite prev_of_snoc, <- !app_assoc. cbn [app].
    replace (Z.of_nat (S (length a)) + 1) with (Z.of_nat (S (S (length a)))) by lia.
    reflexivity.
Qed.

Lemma emit_eval e w : emit e w = (inr tt, after (m_layers (net w)) [e] w).
Proof. reflexivity. Qed.

Lemma the_output_Some w o :
  m_output (net w) = Some o -> the_output w = (inr o, w).
Proof. unfold the_output. intros ->. reflexivity. Qed.

Lemma the_output_None w :
  m_output (net w) = None -> the_output w = (inl NullHandle, w).
Proof. unfold the_output. intros ->. reflexivity. Qed.

Lemma call_check_target_data_eval w o target :
  m_output (net w) = Some o ->
  call_check_target_data target w
  = (if Output.check_target_data o target then inr tt else inl TargetMismatch,
     after (m_layers (net w)) [EvCheckTargetData target] w).
Proof.
  intros Ho. unfold call_check_target_data.
  erewrite bind_inr by (apply the_output_Some; exact Ho).
  erewrite bind_inr by apply emit_eval.
  destruct (Output.check_target_data o target); reflexivity.
Qed.

Lemma call_evaluate_eval w o p target :
  m_output (net w) = Some o ->
  call_evaluate p target w
  = (inr tt, after (m_layers (net w)) [EvEvaluate p target]
               (on_net (with_output (Some (Output.evaluate o p target))) w)).
Proof.
  intros Ho. unfold call_evaluate.
  erewrite bind_inr by (apply the_output_Some; exact Ho).
  erewrite bind_inr by apply emit_eval.
  reflexivity.
Qed.

Lemma on_net_output_after o ls evs w :
  on_net (with_output o) (after ls evs w) = after ls evs (on_net (with_output o) w).
Proof. reflexivity. Qed.

Lemma last_layer_at w l0 rest :
  m_layers (net w) = l0 :: rest ->
  exists lz, last (l0 :: rest) = Some lz /\
    layer_at (Z.of_nat (length (l0 :: rest)) - 1) w = (inr lz, w).
Proof.
  intros Hw. destruct (last (l0 :: rest)) as [lz|] eqn:Hlast.
  - exists lz. split; [reflexivity|].
    replace (Z.of_nat (length (l0 :: rest)) - 1)
      with (Z.of_nat (pred (length (l0 :: rest)))) by (simpl; lia).
    apply layer_at_Some. rewrite Hw, <- last_lookup. exact Hlast.
  - apply last_None in Hlast. discriminate.
Qed.

(** The gradient the output head caches for the pipeline [ls] and [target]. *)
Lemma backprop_eval w input target l0 rest o :
  m_layers (net w) = l0 :: rest ->
  m_output (net w) = Some o ->
  let o' := Output.evaluate o (prev_of (l0 :: rest) input) target in
  let g := Output.backprop_data o' in
  backprop input target w
  = if Output.check_target_data o target
    then (inr tt,
          after (backprop_states input (l0 :: rest) g)
            ([EvCheckTargetData target;
              EvEvaluate (prev_of (l0 :: rest) input) target]
             ++ backprop_calls 0 input (l0 :: rest) g)
            (on_net (with_output (Some o')) w))
    else (inl TargetMismatch, after (l0 :: rest) [EvCheckTargetData target] w).
Proof.
  intros Hw Ho o' g. unfold backprop, num_layers.
  erewrite bind_inr by reflexivity. rewrite Hw.
  destruct (Z.leb_spec (Z.of_nat (length (l0 :: rest))) 0) as [Hle|_].
  { simpl in Hle. lia. }
  erewrite bind_inr by (apply (layer_at_Some w 0); rewrite Hw; reflexivity).
  destruct (last_layer_at w l0 rest Hw) as (lz & Hlast & Hlz).
  erewrite bind_inr by exact Hlz.
  assert (Hprev : prev_of (l0 :: rest) input = Layer.output lz)
    by (unfold prev_of; rewrite Hlast; reflexivity).
  pose proof (call_check_target_data_eval w o target Ho) as Hc.
  rewrite Hw in Hc.
  destruct (Output.check_target_data o target);
    [|erewrite bind_inl by exact Hc; reflexivity].
  erewrite bind_inr by exact Hc.
  erewrite bind_inr
    by (apply call_evaluate_eval; exact Ho).
  rewrite after_layers, on_net_output_after, !after_after, <- Hprev. fold o'.
  destruct rest as [|lz' a _] using rev_ind.
  - (* one layer *)
    change (Z.of_nat (length [l0]) =? 1) with true. cbv iota.
    erewrite bind_inr by (apply the_output_Some; reflexivity).
    rewrite (call_backprop_eval _ 0 l0) by reflexivity.
    rewrite after_layers, after_after. reflexivity.
  - (* two layers or more *)
    assert (Hlen : length (l0 :: a ++ [lz']) = S (S (length a)))
      by (cbn; rewrite length_app; simpl; lia).
    rewrite Hlen.
    destruct (Z.eqb_spec (Z.of_nat (S (S (length a)))) 1) as [Hone|_]; [lia|].
    destruct (lookup_prev_of l0 a) as (lp & Hlp & Hout).
    erewrite bind_inr; cycle 1.
    { replace (Z.of_nat (S (S (length a))) - 2) with (Z.of_nat (length a)) by lia.
      apply layer_at_Some. rewrite after_layers.
      change (l0 :: a ++ [lz']) with ((l0 :: a) ++ [lz']).
      rewrite lookup_app_l by (simpl; lia). exact Hlp. }
    erewrite bind_inr by (apply the_output_Some; reflexivity).
    erewrite bind_inr; cycle 1.
    { replace (Z.of_nat (S (S (length a))) - 1)
        with (Z.of_nat (length (l0 :: a))) by (simpl; lia).
      apply call_backprop_eval. rewrite after_layers.
      change (l0 :: a ++ [lz']) with ((l0 :: a) ++ [lz']). apply lookup_middle. }
    rewrite after_layers, after_after.
    change (l0 :: a ++ [lz']) with ((l0 :: a) ++ [lz']) at 1.
    rewrite insert_middle, Hout.
    destruct (backprop_loop a
                (after ((l0 :: a)
                          ++ [Layer.backprop lz' (prev_of a (Layer.output l0)) g])
                   (([EvCheckTargetData target]
                     ++ [EvEvaluate (prev_of (l0 :: a ++ [lz']) input) target])
                    ++ [EvLayerBackprop (Z.of_nat (length (l0 :: a)))
                          (prev_of a (Layer.output l0)) g])
                   (on_net (with_output (Some o')) w))
                l0 [lz'] g) as (evs & Hrun & Hevs);
      [discriminate|reflexivity|].
    unfold SE.for_down.
    replace (Z.to_nat (Z.of_nat (S (S (length a))) - 2 - 0)) with (length a) by lia.
    replace (Z.of_nat (S (S (length a))) - 2) with (Z.of_nat (length a)) by lia.
    erewrite bind_inr by exact Hrun.
    rewrite after_after.
    remember (backprop_states (Layer.output l0) (a ++ [lz']) g) as dn eqn:Edn.
    assert (Hdn : exists l1 dn', dn = l1 :: dn').
    { subst dn. destruct a; cbn; eauto. }
    destruct Hdn as (l1 & dn' & Hdn).
    erewrite bind_inr
      by (apply (layer_at_Some _ 1); rewrite after_layers, Hdn; reflexivity).
    rewrite (call_backprop_eval _ 0 l0) by reflexivity.
    rewrite after_layers, after_after.
    cbn [backprop_states backprop_calls insert list_insert].
    change (0 + 1) with 1.
    rewrite <- Edn, <- Hevs, Hdn. cbn [next_of backprop_calls app].
    reflexivity.
Qed.

Lemma backprop_empty w input target :
  m_layers (net w) = [] -> backprop input target w = (inr tt, w).
Proof.
  intros Hw. unfold backprop, num_layers.
  erewrite bind_inr by reflexivity. rewrite Hw. reflexivity.
Qed.

(** The arguments of the backward calls, by layer: what precedes the layer
    (the input, then the cached outputs) paired with what follows it (the
    gradients the successors have cached, then the one of the output head). *)
Lemma backprop_states_zip p ls g :
  backprop_states p ls g
  = zip_with (fun l pn => Layer.backprop l (fst pn) (snd pn)) ls
      (zip (p :: (Layer.output <$> ls))
           (drop 1 (Layer.backprop_data <$> backprop_states p ls g) ++ [g])).
Proof.
  revert p. induction ls as [|l ls IH]; intros p; [reflexivity|].
  cbn [backprop_states fmap list_fmap drop].
  specialize (IH (Layer.output l)).
  destruct ls as [|l' ls]; [reflexivity|].
  remember (backprop_states (Layer.output l) (l' :: ls) g) as rest eqn:Erest.
  assert (Hrest : exists r rest', rest = r :: rest') by (subst rest; cbn; eauto).
  destruct Hrest as (r & rest' & Hrest).
  rewrite Hrest in IH |- *. cbn [fmap list_fmap drop] in IH.
  cbn [fmap list_fmap app zip zip_with fst snd next_of].
  f_equal. exact IH.
Qed.

Lemma backprop_calls_imap k p l ls g :
  backprop_calls k p (l :: ls) g
  = reverse (imap (fun i pn => EvLayerBackprop (k + Z.of_nat i) (fst pn) (snd pn))
      (zip (p :: (Layer.output <$> l :: ls))
           (drop 1 (Layer.backprop_data <$> backprop_states p (l :: ls) g) ++ [g]))).
Proof.
  revert k p l. induction ls as [|l' ls IH]; intros k p l.
  { cbn. rewrite Z.add_0_r. reflexivity. }
  specialize (IH (k + 1) (Layer.output l) l').
  change (backprop_calls k p (l :: l' :: ls) g)
    with (backprop_calls (k + 1) (Layer.output l) (l' :: ls) g
          ++ [EvLayerBackprop k p
                (next_of (backprop_states (Layer.output l) (l' :: ls) g) g)]).
  change (backprop_states p (l :: l' :: ls) g)
    with (Layer.backprop l p
            (next_of (backprop_states (Layer.output l) (l' :: ls) g) g)
          :: backprop_states (Layer.output l) (l' :: ls) g).
  remember (backprop_states (Layer.output l) (l' :: ls) g) as rest eqn:Erest.
  assert (Hrest : exists r rest', rest = r :: rest') by (subst rest; cbn; eauto).
  destruct Hrest as (r & rest' & Hrest).
  rewrite IH. rewrite Hrest. cbn [fmap list_fmap drop].
  cbn [fmap list_fmap app zip zip_with fst snd next_of imap].
  rewrite (reverse_cons _ (EvLayerBackprop (k + Z.of_nat 0) p (Layer.backprop_data r))).
  rewrite Z.add_0_r. f_equal. f_equal.
  apply imap_ext. intros i pn _. cbn. f_equal. lia.
Qed.

(** *** get_parameters and set_parameters *)

Lemma get_loop (f : L -> list Scalar) rest : forall w pre acc,
  m_layers (net w) = pre ++ rest ->
  SE.for_up_fold_n (length rest) (Z.of_nat (length pre))
    (fun i res => l <- layer_at i ;; SE.ret (res ++ [f l])) acc w
  = (inr (acc ++ (f <$> rest)), w).
Proof.
  induction rest as [|l rest IH]; intros w pre acc Hw.
  - cbn. rewrite app_nil_r. reflexivity.
  - cbn [length SE.for_up_fold_n].
    erewrite bind_inr; cycle 1.
    { erewrite bind_inr
        by (apply layer_at_Some; rewrite Hw; apply lookup_middle).
      reflexivity. }
    replace (Z.of_nat (length pre) + 1) with (Z.of_nat (length (pre ++ [l])))
      by (rewrite length_app; simpl; lia).
    rewrite (IH w (pre ++ [l])) by (rewrite Hw, <- app_assoc; reflexivity).
    rewrite <- app_assoc. reflexivity.
Qed.

Lemma get_parameters_eval w :
  get_parameters w = (inr (Layer.get_parameters <$> m_layers (net w)), w).
Proof.
  unfold get_parameters, num_layers. erewrite bind_inr by reflexivity.
  unfold SE.for_up_fold. rewrite Z.sub_0_r, Nat2Z.id.
  apply (get_loop Layer.get_parameters (m_layers (net w)) w [] []). reflexivity.
Qed.

Lemma get_derivatives_eval w :
  get_derivatives w = (inr (Layer.get_derivatives <$> m_layers (net w)), w).
Proof.
  unfold get_derivatives, num_layers. erewrite bind_inr by reflexivity.
  unfold SE.for_up_fold. rewrite Z.sub_0_r, Nat2Z.id.
  apply (get_loop Layer.get_derivatives (m_layers (net w)) w [] []). reflexivity.
Qed.

Lemma param_at_Some (param : list (list Scalar)) (i : nat) p (w : St) :
  param !! i = Some p -> param_at param (Z.of_nat i) w = (inr p, w).
Proof.
  intros Hp. unfold param_at.
  destruct (Z.ltb_spec (Z.of_nat i) 0) as [Hneg|_]; [lia|].
  rewrite Nat2Z.id, Hp. reflexivity.
Qed.

Lemma call_set_parameters_eval w (i : nat) l p :
  m_layers (net w) !! i = Some l ->
  call_set_parameters (Z.of_nat i) p w
  = match Layer.set_parameters l p with
    | Some l' => (inr tt, after (<[i := l']> (m_layers (net w)))
                            [EvLayerSetParameters (Z.of_nat i) p] w)
    | None => (inl LayerRejected,
               after (m_layers (net w)) [EvLayerSetParameters (Z.of_nat i) p] w)
    end.
Proof.
  intros Hl. unfold call_set_parameters.
  erewrite bind_inr by (apply layer_at_Some; exact Hl).
  erewrite bind_inr by apply emit_eval.
  destruct (Layer.set_parameters l p); [|reflexivity].
  unfold set_layer, SE.modify, on_net, after. cbn.
  rewrite Nat2Z.id. reflexivity.
Qed.

Lemma set_loop a : forall pa news w pre ppre post ppost param,
  Forall3 accepts a pa news ->
  m_layers (net w) = pre ++ a ++ post ->
  param = ppre ++ pa ++ ppost ->
  length ppre = length pre ->
  SE.for_up_n (length a) (Z.of_nat (length pre))
    (fun i => p <- param_at param i ;; call_set_parameters i p) w
  = (inr tt,
     after (pre ++ news ++ post)
       (imap (fun i p => EvLayerSetParameters (Z.of_nat (length pre + i)) p) pa) w).
Proof.
  induction a as [|l a IH];
    intros pa news w pre ppre post ppost param Hacc Hw Hparam Hlen.
  - inversion Hacc; subst. cbn in Hw |- *. rewrite <- Hw, after_id. reflexivity.
  - inversion Hacc as [|? p l' ? pa' news' Hl Hacc']; subst.
    cbn [length SE.for_up_n].
    erewrite bind_inr; cycle 1.
    { erewrite bind_inr; cycle 1.
      { apply param_at_Some. rewrite <- Hlen. cbn [app]. apply lookup_middle. }
      rewrite (call_set_parameters_eval w (length pre) l)
        by (rewrite Hw; apply lookup_middle).
      unfold accepts in Hl. rewrite Hl. reflexivity. }
    rewrite Hw. cbn [app]. rewrite insert_middle.
    replace (Z.of_nat (length pre) + 1) with (Z.of_nat (length (pre ++ [l'])))
      by (rewrite length_app; simpl; lia).
    rewrite (IH pa' news' _ (pre ++ [l']) (ppre ++ [p]) post ppost
               (ppre ++ p :: pa' ++ ppost) Hacc').
    + rewrite after_after, <- !app_assoc. cbn [app imap].
      rewrite Nat.add_0_r. do 3 f_equal.
      apply imap_ext. intros i q _. cbn. rewrite length_app. cbn.
      do 2 f_equal. lia.
    + rewrite after_layers, <- app_assoc. reflexivity.
    + rewrite <- app_assoc. reflexivity.
    + rewrite !length_app. cbn. lia.
Qed.

Lemma for_up_n_app (n m : nat) (i : Z) (body : Z -> M unit) w :
  SE.for_up_n (n + m) i body w
  = SE.bind (SE.for_up_n n i body)
            (fun _ => SE.for_up_n m (i + Z.of_nat n) body) w.
Proof.
  revert i w. induction n as [|n IH]; intros i w.
  - cbn. rewrite Z.add_0_r. reflexivity.
  - cbn [Nat.add SE.for_up_n].
    destruct (body i w) as [[e|[]] w'] eqn:Hb.
    + erewrite bind_inl by exact Hb.
      erewrite (bind_inl (SE.bind _ _)); [reflexivity|].
      erewrite bind_inl by exact Hb. reflexivity.
    + erewrite bind_inr by exact Hb. rewrite IH.
      replace (i + 1 + Z.of_nat n) with (i + Z.of_nat (S n)) by lia.
      unfold SE.bind. rewrite Hb. reflexivity.
Qed.

Lemma Forall3_accepts_length a pa news :
  Forall3 accepts a pa news -> length pa = length a /\ length news = length a.
Proof. induction 1; cbn; lia. Qed.

Lemma set_parameters_accepted w param news :
  Forall3 accepts (m_layers (net w)) param news ->
  set_parameters param w
  = (inr tt,
     after news (imap (fun i p => EvLayerSetParameters (Z.of_nat i) p) param) w).
Proof.
  intros Hacc. destruct (Forall3_accepts_length _ _ _ Hacc) as [Hlen _].
  unfold set_parameters, num_layers. erewrite bind_inr by reflexivity.
  rewrite Hlen, Z.eqb_refl. cbn [negb].
  unfold SE.for_up. rewrite Z.sub_0_r, Nat2Z.id.
  pose proof (set_loop (m_layers (net w)) param news w [] [] [] [] param Hacc)
    as Hl.
  rewrite !app_nil_r in Hl. exact (Hl eq_refl eq_refl eq_refl).
Qed.

Lemma set_parameters_rejected w param a lj post pa pj ppost news :
  m_layers (net w) = a ++ lj :: post ->
  param = pa ++ pj :: ppost ->
  length post = length ppost ->
  Forall3 accepts a pa news ->
  Layer.set_parameters lj pj = None ->
  set_parameters param w
  = (inl LayerRejected,
     after (news ++ lj :: post)
       (imap (fun i p => EvLayerSetParameters (Z.of_nat i) p) (pa ++ [pj])) w).
Proof.
  intros Hw Hparam Hpost Hacc Hrej.
  destruct (Forall3_accepts_length _ _ _ Hacc) as [Hlen Hnews].
  unfold set_parameters, num_layers. erewrite bind_inr by reflexivity.
  replace (Z.of_nat (length param) =? Z.of_nat (length (m_layers (net w))))
    with true
    by (symmetry; apply Z.eqb_eq; rewrite Hw, Hparam, !length_app; cbn; lia).
  cbn [negb]. unfold SE.for_up. rewrite Z.sub_0_r, Nat2Z.id.
  rewrite Hw at 1. rewrite length_app. rewrite for_up_n_app.
  erewrite bind_inr; cycle 1.
  { exact (set_loop a pa news w [] [] (lj :: post) (pj :: ppost) param Hacc
             Hw Hparam eq_refl). }
  cbn [length SE.for_up_n app]. rewrite Z.add_0_l.
  erewrite bind_inl; cycle 1.
  { erewrite bind_inr; cycle 1.
    { apply param_at_Some. rewrite Hparam, <- Hlen. apply lookup_middle. }
    rewrite (call_set_parameters_eval _ (length a) lj)
      by (rewrite after_layers, <- Hnews; apply lookup_middle).
    rewrite Hrej. reflexivity. }
  rewrite after_layers, after_after. f_equal. f_equal.
  rewrite imap_app. cbn [imap]. rewrite Hlen, Nat.add_0_r. reflexivity.
Qed.

Lemma set_parameters_count w param :
  length param <> length (m_layers (net w)) ->
  set_parameters param w = (inl ParameterCountMismatch, w).
Proof.
  intros Hne. unfold set_parameters, num_layers. erewrite bind_inr by reflexivity.
  destruct (Z.eqb_spec (Z.of_nat (length param))
                       (Z.of_nat (length (m_layers (net w))))) as [Heq|_];
    [lia|reflexivity].
Qed.

(** Either every layer accepts its vector, or there is a first one that does
    not. *)
Lemma accepts_or_rejects (ls : list L) : forall (param : list (list Scalar)),
  length param = length ls ->
  (exists news, Forall3 accepts ls param news) \/
  (exists a lj post pa pj ppost news,
     ls = a ++ lj :: post /\ param = pa ++ pj :: ppost /\
     length post = length ppost /\ Forall3 accepts a pa news /\
     Layer.set_parameters lj pj = None).
Proof.
  induction ls as [|l ls IH]; intros [|p param] Hlen; try discriminate.
  - left. exists []. constructor.
  - destruct (Layer.set_parameters l p) as [l'|] eqn:Hl.
    + destruct (IH param) as
        [(news & Hacc)|(a & lj & post & pa & pj & ppost & news & -> & -> & Hp1 & Hp2 & Hp3)].
      { cbn in Hlen. lia. }
      * left. exists (l' :: news). constructor; assumption.
      * right. exists (l :: a), lj, post, (p :: pa), pj, ppost, (l' :: news).
        repeat split; try assumption. constructor; assumption.
    + right. exists [], l, ls, [], p, param, [].
      repeat split; try assumption; [cbn in Hlen; lia | constructor].
Qed.

Lemma Forall3_accepts_lookup ls param news (i : nat) l p :
  Forall3 accepts ls param news ->
  ls !! i = Some l -> param !! i = Some p ->
  exists l', news !! i = Some l' /\ Layer.set_parameters l p = Some l'.
Proof.
  intros Hacc. revert i. induction Hacc as [|l0 p0 l0' ls param news Hl _ IH];
    intros i Hi Hp; [discriminate|].
  destruct i as [|i]; cbn in Hi, Hp.
  - injection Hi as ->. injection Hp as ->. exists l0'. split; [reflexivity|exact Hl].
  - destruct (IH i Hi Hp) as (l' & Hn & Hs). exists l'. split; assumption.
Qed.

(** *** fit *)

Lemma bind_inr_inv {A B} (m : M A) (k : A -> M B) w b w' :
  SE.bind m k w = (inr b, w') ->
  exists a w1, m w = (inr a, w1) /\ k a w1 = (inr b, w').
Proof.
  unfold SE.bind. destruct (m w) as [[e|a] w1]; [discriminate|]. eauto.
Qed.

Lemma call_callback_inv e f w w' :
  call_callback e f w = (inr tt, w') ->
  trace w' = trace w ++ [e] /\
  m_layers (net w') = m_layers (net w) /\
  m_rng (net w') = m_rng (net w).
Proof.
  unfold call_callback, the_callback. intros Hrun.
  apply bind_inr_inv in Hrun as (c & w1 & Hc & Hrun).
  destruct (m_callback (net w)); [|discriminate].
  injection Hc as <- <-. cbn in Hrun. injection Hrun as <-. auto.
Qed.

Lemma call_update_eval w (i : nat) l :
  m_layers (net w) !! i = Some l ->
  call_update (Z.of_nat i) w
  = (inr tt,
     with_opt (snd (Layer.update l (opt w)))
       (after (<[i := fst (Layer.update l (opt w))]> (m_layers (net w)))
              [EvLayerUpdate (Z.of_nat i)] w)).
Proof.
  intros Hl. unfold call_update.
  erewrite bind_inr by (apply layer_at_Some; exact Hl).
  erewrite bind_inr by apply emit_eval.
  erewrite bind_inr by reflexivity.
  cbn [opt after]. destruct (Layer.update l (opt w)) as [l' o'].
  unfold set_layer, SE.modify, SE.bind, on_net, with_opt, after. cbn.
  rewrite Nat2Z.id. reflexivity.
Qed.

Lemma update_loop rest : forall w pre,
  m_layers (net w) = pre ++ rest ->
  SE.for_up_n (length rest) (Z.of_nat (length pre)) call_update w
  = (inr tt,
     with_opt (snd (update_states rest (opt w)))
       (after (pre ++ fst (update_states rest (opt w)))
              (EvLayerUpdate <$> seqZ (Z.of_nat (length pre)) (Z.of_nat (length rest)))
              w)).
Proof.
  induction rest as [|l rest IH]; intros w pre Hw.
  - rewrite app_nil_r in Hw. cbn. unfold with_opt, after. cbn.
    rewrite !app_nil_r, <- Hw. reflexivity.
  - cbn [length SE.for_up_n update_states].
    erewrite bind_inr
      by (apply call_update_eval; rewrite Hw; apply lookup_middle).
    rewrite Hw, insert_middle.
    destruct (Layer.update l (opt w)) as [l' o'] eqn:Hu. cbn [fst snd].
    replace (Z.of_nat (length pre) + 1) with (Z.of_nat (length (pre ++ [l'])))
      by (rewrite length_app; simpl; lia).
    rewrite (IH _ (pre ++ [l'])) by (cbn; rewrite <- app_assoc; reflexivity).
    cbn [opt with_opt after].
    destruct (update_states rest o') as [r o''] eqn:Hr. cbn [fst snd].
    rewrite (seqZ_cons (Z.of_nat (length pre))) by lia.
    unfold with_opt, after. cbn. rewrite <- !app_assoc. cbn [app].
    replace (Z.succ (Z.of_nat (length pre)))
      with (Z.of_nat (length (pre ++ [l']))) by (rewrite length_app; simpl; lia).
    replace (Z.pred (Z.of_nat (S (length rest)))) with (Z.of_nat (length rest))
      by lia.
    reflexivity.
Qed.

Lemma update_states_length ls o : length (fst (update_states ls o)) = length ls.
Proof.
  revert o. induction ls as [|l ls IH]; intros o; [reflexivity|].
  cbn. destruct (Layer.update l o) as [l' o'].
  specialize (IH o'). destruct (update_states ls o') as [r o'']. cbn in *. lia.
Qed.

Lemma update_eval w :
  update w
  = (inr tt,
     with_opt (snd (update_states (m_layers (net w)) (opt w)))
       (after (fst (update_states (m_layers (net w)) (opt w)))
          (EvLayerUpdate <$> seqZ 0 (Z.of_nat (length (m_layers (net w))))) w)).
Proof.
  unfold update, num_layers. erewrite bind_inr by reflexivity.
  destruct (Z.leb_spec (Z.of_nat (length (m_layers (net w)))) 0) as [Hle|_].
  - assert (Hnil : m_layers (net w) = [])
      by (destruct (m_layers (net w)); [reflexivity|simpl in Hle; lia]).
    unfold SE.ret. rewrite <- (after_id w) at 1. rewrite Hnil. reflexivity.
  - unfold SE.for_up. rewrite Z.sub_0_r, Nat2Z.id.
    apply (update_loop (m_layers (net w)) w []). reflexivity.
Qed.

Lemma backprop_null w input target :
  m_layers (net w) <> [] -> m_output (net w) = None ->
  backprop input target w = (inl NullHandle, w).
Proof.
  intros Hne Ho. destruct (m_layers (net w)) as [|l0 rest] eqn:Hw; [congruence|].
  unfold backprop, num_layers. erewrite bind_inr by reflexivity. rewrite Hw.
  destruct (Z.leb_spec (Z.of_nat (length (l0 :: rest))) 0) as [Hle|_].
  { simpl in Hle. lia. }
  erewrite bind_inr by (apply (layer_at_Some w 0); rewrite Hw; reflexivity).
  destruct (last_layer_at w l0 rest Hw) as (lz & _ & Hlz).
  erewrite bind_inr by exact Hlz.
  erewrite bind_inl; [reflexivity|].
  unfold call_check_target_data.
  erewrite bind_inl; [reflexivity|]. apply the_output_None. exact Ho.
Qed.

Lemma trace_after ls evs w : trace (after ls evs w) = trace w ++ evs.
Proof. reflexivity. Qed.

Lemma trace_on_net f w : trace (on_net f w) = trace w.
Proof. reflexivity. Qed.

Lemma trace_with_opt o w : trace (with_opt o w) = trace w.
Proof. reflexivity. Qed.

Lemma layers_with_opt o w : m_layers (net (with_opt o w)) = m_layers (net w).
Proof. reflexivity. Qed.

Lemma rng_after ls evs w : m_rng (net (after ls evs w)) = m_rng (net w).
Proof. reflexivity. Qed.

Lemma rng_with_opt o w : m_rng (net (with_opt o w)) = m_rng (net w).
Proof. reflexivity. Qed.

Lemma rng_on_output o w :
  m_rng (net (on_net (with_output o) w)) = m_rng (net w).
Proof. reflexivity. Qed.

Lemma pass_inv nl r (b : Matrix * Target) w w1 w2 w' :
  steady nl r w -> nl <> 0%nat ->
  forward (fst b) w = (inr tt, w1) ->
  backprop (fst b) (snd b) w1 = (inr tt, w2) ->
  update w2 = (inr tt, w') ->
  steady nl r w' /\
  exists seg, trace w' = trace w ++ seg /\ pass_calls nl b seg.
Proof.
  intros [Hlen Hrng] Hnl Hf Hb Hu.
  destruct (m_layers (net w)) as [|l0 rest] eqn:Hw; [cbn in Hlen; congruence|].
  (* forward *)
  rewrite (forward_eval w (fst b) l0 rest Hw) in Hf.
  destruct (rows (fst b) =? Layer.in_size l0); [|discriminate].
  apply pair_equal_spec in Hf as [_ <-].
  (* backprop *)
  remember (forward_states (fst b) (l0 :: rest)) as ls1 eqn:Els1.
  assert (Hls1 : exists l0' rest', ls1 = l0' :: rest') by (subst ls1; cbn; eauto).
  destruct Hls1 as (l0' & rest' & Hls1).
  assert (Hlen1 : length ls1 = nl)
    by (subst ls1; rewrite forward_states_length; exact Hlen).
  destruct (m_output (net w)) as [o|] eqn:Ho.
  2:{ rewrite backprop_null in Hb; [discriminate| |exact Ho].
      rewrite after_layers, Hls1. discriminate. }
  rewrite (backprop_eval _ (fst b) (snd b) l0' rest' o) in Hb;
    [|rewrite after_layers; exact Hls1|exact Ho].
  destruct (Output.check_target_data o (snd b)); [|discriminate].
  cbv zeta in Hb. apply pair_equal_spec in Hb as [_ <-].
  remember (Output.evaluate o (prev_of (l0' :: rest') (fst b)) (snd b)) as o'.
  remember (Output.backprop_data o') as g.
  assert (Hcalls := backprop_calls_imap 0 (fst b) l0' rest' g).
  rewrite <- Hls1 in *.
  remember (backprop_states (fst b) ls1 g) as ls2 eqn:Els2.
  assert (Hlen2 : length ls2 = nl)
    by (subst ls2; rewrite backprop_states_length; exact Hlen1).
  (* update *)
  rewrite update_eval in Hu. apply pair_equal_spec in Hu as [_ <-].
  rewrite !after_layers. split.
  - split.
    + rewrite layers_with_opt, after_layers, update_states_length. exact Hlen2.
    + rewrite rng_with_opt, !rng_after, rng_on_output, rng_after. exact Hrng.
  - rewrite trace_with_opt, !trace_after, trace_on_net, trace_after.
    eexists. split; [rewrite <- !app_assoc; reflexivity|].
    exists (take (length (l0 :: rest))
                 (fst b :: (Layer.output <$> ls1))),
           (prev_of ls1 (fst b)),
           (zip (fst b :: (Layer.output <$> ls1))
                (drop 1 (Layer.backprop_data <$> ls2) ++ [g])).
    split; [|split; [|split; [|split]]].
    + rewrite forward_calls_imap, <- Els1, Hcalls, Hlen2. reflexivity.
    + rewrite length_take, Hlen. cbn [length]. rewrite length_fmap. lia.
    + rewrite length_zip, length_app, length_drop. cbn [length].
      rewrite !length_fmap. lia.
    + rewrite Hlen. destruct nl; [congruence|reflexivity].
    + destruct ls2 as [|? [|? ?]]; cbn in Hlen2; [congruence| |]; reflexivity.
Qed.

Lemma seqZ_to_nat i n : seqZ i (Z.of_nat (Z.to_nat n)) = seqZ i n.
Proof.
  destruct (Z.le_gt_cases 0 n) as [Hn|Hn].
  - rewrite Z2Nat.id by exact Hn. reflexivity.
  - rewrite !seqZ_nil by lia. reflexivity.
Qed.

(** A loop all of whose iterations return normally: an invariant is carried
    along and the trace grows by one segment per index. *)
Lemma for_up_n_trace (I : St -> Prop) (T : Z -> list Ev -> Prop)
    (body : Z -> M unit) :
  (forall i w w', I w -> body i w = (inr tt, w') ->
     I w' /\ exists t, trace w' = trace w ++ t /\ T i t) ->
  forall n i w w', I w -> SE.for_up_n n i body w = (inr tt, w') ->
    I w' /\
    exists ts, trace w' = trace w ++ concat ts /\
               Forall2 T (seqZ i (Z.of_nat n)) ts.
Proof.
  intros Hbody. induction n as [|n IH]; intros i w w' HI Hrun.
  - cbn in Hrun. apply pair_equal_spec in Hrun as [_ <-].
    split; [exact HI|]. exists []. cbn. rewrite app_nil_r. split; [reflexivity|].
    rewrite seqZ_nil by lia. constructor.
  - cbn [SE.for_up_n] in Hrun.
    apply bind_inr_inv in Hrun as ([] & w1 & Hb & Hrun).
    destruct (Hbody i w w1 HI Hb) as (HI1 & t & Ht & HT).
    destruct (IH (i + 1) w1 w' HI1 Hrun) as (HI' & ts & Hts & HTs).
    split; [exact HI'|]. exists (t :: ts). split.
    + rewrite Hts, Ht. cbn [concat]. rewrite <- app_assoc. reflexivity.
    + rewrite seqZ_cons by lia. constructor; [exact HT|].
      replace (Z.succ i) with (i + 1) by lia.
      replace (Z.pred (Z.of_nat (S n))) with (Z.of_nat n) by lia. exact HTs.
Qed.

Lemma for_up_trace (I : St -> Prop) (T : Z -> list Ev -> Prop)
    (body : Z -> M unit) (hi : Z) w w' :
  (forall i w w', I w -> body i w = (inr tt, w') ->
     I w' /\ exists t, trace w' = trace w ++ t /\ T i t) ->
  I w -> SE.for_up 0 hi body w = (inr tt, w') ->
  I w' /\
  exists ts, trace w' = trace w ++ concat ts /\ Forall2 T (seqZ 0 hi) ts.
Proof.
  intros Hbody HI Hrun. unfold SE.for_up in Hrun. rewrite Z.sub_0_r in Hrun.
  destruct (for_up_n_trace I T body Hbody _ _ _ _ HI Hrun) as (HI' & ts & Hts & HT).
  rewrite seqZ_to_nat in HT. eauto.
Qed.

Lemma steady_callback nl r e f w w' :
  steady nl r w -> call_callback e f w = (inr tt, w') ->
  steady nl r w' /\ trace w' = trace w ++ [e].
Proof.
  intros [Hlen Hrng] Hrun.
  apply call_callback_inv in Hrun as (Ht & Hl & Hr).
  split; [split; congruence|exact Ht].
Qed.

Lemma train_batch_inv nl r batches i w w' :
  nl <> 0%nat -> steady nl r w ->
  train_batch batches i w = (inr tt, w') ->
  steady nl r w' /\
  exists t, trace w' = trace w ++ t /\ batch_trace nl batches i t.
Proof.
  intros Hnl Hst Hrun. unfold train_batch in Hrun.
  apply bind_inr_inv in Hrun as ([] & w1 & Hc1 & Hrun).
  apply bind_inr_inv in Hrun as (b & w1' & Hb & Hrun).
  apply bind_inr_inv in Hrun as ([] & w2 & Hc2 & Hrun).
  apply bind_inr_inv in Hrun as ([] & w3 & Hf & Hrun).
  apply bind_inr_inv in Hrun as ([] & w4 & Hbp & Hrun).
  apply bind_inr_inv in Hrun as ([] & w5 & Hu & Hc3).
  destruct (steady_callback _ _ _ _ _ _ Hst Hc1) as (Hst1 & Ht1).
  unfold batch_at in Hb.
  destruct (Z.ltb_spec i 0) as [|Hi]; [discriminate|].
  destruct (batches !! Z.to_nat i) as [b'|] eqn:Hbi; [|discriminate].
  apply pair_equal_spec in Hb as [Hb <-]. injection Hb as ->.
  destruct (steady_callback _ _ _ _ _ _ Hst1 Hc2) as (Hst2 & Ht2).
  destruct (pass_inv nl r b w2 w3 w4 w5 Hst2 Hnl Hf Hbp Hu)
    as (Hst5 & seg & Ht5 & Hseg).
  destruct (steady_callback _ _ _ _ _ _ Hst5 Hc3) as (Hst' & Ht').
  split; [exact Hst'|].
  eexists. split.
  - rewrite Ht', Ht5, Ht2, Ht1, <- !app_assoc. reflexivity.
  - exists b, seg. repeat split; [exact Hi|exact Hbi|exact Hseg].
Qed.

Lemma epoch_inv nl r batches k w w' :
  nl <> 0%nat -> steady nl r w ->
  SE.bind (call_callback (EvSetEpochId k) (fun c _ => Callback.set_epoch_id c k))
    (fun _ => SE.for_up 0 (Z.of_nat (length batches)) (train_batch batches)) w
  = (inr tt, w') ->
  steady nl r w' /\
  exists t, trace w' = trace w ++ t /\ epoch_trace nl batches k t.
Proof.
  intros Hnl Hst Hrun.
  apply bind_inr_inv in Hrun as ([] & w1 & Hc & Hrun).
  destruct (steady_callback _ _ _ _ _ _ Hst Hc) as (Hst1 & Ht1).
  destruct (for_up_trace (steady nl r) (batch_trace nl batches)
              (train_batch batches) (Z.of_nat (length batches)) w1 w')
    as (Hst' & bts & Hts & HT); [|exact Hst1|exact Hrun|].
  { intros i v v' Hv Hb. apply (train_batch_inv nl r batches i v v' Hnl Hv Hb). }
  split; [exact Hst'|].
  exists (EvSetEpochId k :: concat bts). split.
  - rewrite Hts, Ht1, <- app_assoc. reflexivity.
  - exists bts. split; [reflexivity|exact HT].
Qed.

Lemma fit_empty w x y batch_size epoch seed :
  m_layers (net w) = [] -> fit x y batch_size epoch seed w = (inr false, w).
Proof.
  intros Hw. unfold fit, num_layers.
  erewrite bind_inr by reflexivity. rewrite Hw. reflexivity.
Qed.

Lemma fit_loops_inv nl r batches epoch w b w' :
  nl <> 0%nat -> steady nl r w ->
  SE.bind
    (call_callback (EvSetNbatch (Z.of_nat (length batches)))
       (fun c _ => Callback.set_nbatch c (Z.of_nat (length batches))))
    (fun _ =>
       SE.bind
         (call_callback (EvSetNepoch epoch)
            (fun c _ => Callback.set_nepoch c epoch))
         (fun _ =>
            SE.bind
              (SE.for_up 0 epoch (fun k =>
                 SE.bind
                   (call_callback (EvSetEpochId k)
                      (fun c _ => Callback.set_epoch_id c k))
                   (fun _ =>
                      SE.for_up 0 (Z.of_nat (length batches))
                        (train_batch batches))))
              (fun _ => SE.ret true))) w
  = (inr b, w') ->
  b = true /\
  steady nl r w' /\
  exists ets,
    trace w'
    = trace w
      ++ [EvSetNbatch (Z.of_nat (length batches)); EvSetNepoch epoch]
      ++ concat ets /\
    Forall2 (epoch_trace nl batches) (seqZ 0 epoch) ets.
Proof.
  intros Hnl Hst Hrun.
  apply bind_inr_inv in Hrun as ([] & w1 & Hc1 & Hrun).
  apply bind_inr_inv in Hrun as ([] & w2 & Hc2 & Hrun).
  apply bind_inr_inv in Hrun as ([] & w3 & Hloop & Hret).
  apply pair_equal_spec in Hret as [Hb <-]. injection Hb as <-.
  destruct (steady_callback _ _ _ _ _ _ Hst Hc1) as (Hst1 & Ht1).
  destruct (steady_callback _ _ _ _ _ _ Hst1 Hc2) as (Hst2 & Ht2).
  pose proof (fun Hbody =>
    for_up_trace (steady nl r) (epoch_trace nl batches) _ epoch w2 w3
      Hbody Hst2 Hloop) as Hall.
  destruct Hall as (Hst3 & ets & Hts & HT).
  { intros k v v' Hv Hk. apply (epoch_inv nl r batches k v v' Hnl Hv Hk). }
  split; [reflexivity|]. split; [exact Hst3|].
  exists ets. split; [|exact HT].
  rewrite Hts, Ht2, Ht1, <- !app_assoc. reflexivity.
Qed.

(** A run of [fit] on a non-empty pipeline that no exception ends. *)
Lemma fit_inv w x y batch_size epoch seed b w' :
  m_layers (net w) <> [] ->
  fit x y batch_size epoch seed w = (inr b, w') ->
  let nl := length (m_layers (net w)) in
  let drawn := Random.create_shuffled_batches x y batch_size (fit_rng seed w) in
  b = true /\
  steady nl (snd drawn) w' /\
  exists ets,
    trace w'
    = trace w
      ++ [EvOptReset] ++ (if seed >? 0 then [EvRngSeed seed] else [])
      ++ [EvCreateShuffledBatches x y batch_size;
          EvSetNbatch (Z.of_nat (length (fst drawn)));
          EvSetNepoch epoch]
      ++ concat ets /\
    Forall2 (epoch_trace nl (fst drawn)) (seqZ 0 epoch) ets.
Proof.
  intros Hne Hrun nl drawn.
  assert (Hnl : nl <> 0%nat).
  { subst nl. destruct (m_layers (net w)); [congruence|discriminate]. }
  unfold fit, num_layers in Hrun.
  erewrite bind_inr in Hrun by reflexivity.
  destruct (Z.leb_spec (Z.of_nat (length (m_layers (net w)))) 0) as [Hle|_];
    [fold nl in Hle; lia|].
  erewrite bind_inr in Hrun by reflexivity.
  erewrite bind_inr in Hrun by reflexivity.
  subst drawn. unfold fit_rng.
  destruct (seed >? 0).
  - do 3 (erewrite bind_inr in Hrun by reflexivity).
    cbn [net m_rng on_net with_rng with_opt after] in Hrun.
    destruct (Random.create_shuffled_batches x y batch_size (Random.seed seed))
      as [batches r'].
    erewrite bind_inr in Hrun by reflexivity.
    apply (fit_loops_inv nl r') in Hrun as (Hb & Hst & ets & Hts & HT);
      [|exact Hnl|split; reflexivity].
    split; [exact Hb|]. split; [exact Hst|]. exists ets. split; [|exact HT].
    rewrite Hts. cbn. rewrite <- !app_assoc. reflexivity.
  - do 3 (erewrite bind_inr in Hrun by reflexivity).
    cbn [net m_rng on_net with_rng with_opt after] in Hrun.
    destruct (Random.create_shuffled_batches x y batch_size (m_rng (net w)))
      as [batches r'].
    erewrite bind_inr in Hrun by reflexivity.
    apply (fit_loops_inv nl r') in Hrun as (Hb & Hst & ets & Hts & HT);
      [|exact Hnl|split; reflexivity].
    split; [exact Hb|]. split; [exact Hst|]. exists ets. split; [|exact HT].
    rewrite Hts. cbn. rewrite <- !app_assoc. reflexivity.
Qed.

(** *** One partition per call of fit *)

Lemma pass_event_quiet seg :
  Forall pass_event seg -> pre_batches seg = [] /\ partition_draws seg = 0%nat.
Proof.
  unfold pre_batches, partition_draws.
  induction 1 as [|e seg He _ [IH1 IH2]]; [split; reflexivity|].
  destruct e; cbn in He; try contradiction; cbn; auto.
Qed.

Lemma pass_calls_events nl b seg : pass_calls nl b seg -> Forall pass_event seg.
Proof.
  intros (fargs & p & bargs & -> & _).
  rewrite !Forall_app. repeat split.
  - apply Forall_forall. intros e He.
    apply elem_of_lookup_imap in He as (i & a & -> & _). exact I.
  - repeat constructor.
  - apply Forall_reverse, Forall_forall. intros e He.
    apply elem_of_lookup_imap in He as (i & a & -> & _). exact I.
  - apply Forall_fmap, Forall_forall. intros i _. exact I.
Qed.

Lemma pre_batches_app t1 t2 :
  pre_batches (t1 ++ t2) = pre_batches t1 ++ pre_batches t2.
Proof. apply omap_app. Qed.

Lemma partition_draws_app t1 t2 :
  partition_draws (t1 ++ t2) = (partition_draws t1 + partition_draws t2)%nat.
Proof. unfold partition_draws. rewrite omap_app, length_app. reflexivity. Qed.

Lemma batch_trace_quiet nl batches i t :
  batch_trace nl batches i t ->
  exists b, batches !! Z.to_nat i = Some b /\
            pre_batches t = [b] /\ partition_draws t = 0%nat.
Proof.
  intros (b & seg & _ & Hb & -> & Hseg). exists b. split; [exact Hb|].
  destruct (pass_event_quiet seg (pass_calls_events _ _ _ Hseg)) as [Hp Hd].
  rewrite !pre_batches_app, !partition_draws_app, Hp, Hd.
  destruct b as [bx by']. split; reflexivity.
Qed.

Lemma batches_quiet nl batches (k : nat) bts :
  Forall2 (batch_trace nl batches)
    (seqZ (Z.of_nat k) (Z.of_nat (length batches - k))) bts ->
  pre_batches (concat bts) = drop k batches /\
  partition_draws (concat bts) = 0%nat.
Proof.
  revert k. induction bts as [|t bts IH]; intros k Hall.
  - apply Forall2_length in Hall. rewrite length_seqZ in Hall. cbn in Hall.
    rewrite drop_ge by lia. split; reflexivity.
  - destruct (Nat.le_gt_cases (length batches) k) as [Hk|Hk].
    { rewrite seqZ_nil in Hall by lia. inversion Hall. }
    rewrite seqZ_cons in Hall by lia.
    apply Forall2_cons in Hall as [Ht Hall].
    replace (Z.succ (Z.of_nat k)) with (Z.of_nat (S k)) in Hall by lia.
    replace (Z.pred (Z.of_nat (length batches - k)))
      with (Z.of_nat (length batches - S k)) in Hall by lia.
    destruct (IH (S k) Hall) as [IHp IHd].
    destruct (batch_trace_quiet _ _ _ _ Ht) as (b & Hb & Hp & Hd).
    rewrite Nat2Z.id in Hb.
    cbn [concat]. rewrite pre_batches_app, partition_draws_app, Hp, Hd, IHp, IHd.
    split; [|reflexivity]. symmetry. apply drop_S. exact Hb.
Qed.

Lemma epoch_trace_quiet nl batches k t :
  epoch_trace nl batches k t ->
  pre_batches t = batches /\ partition_draws t = 0%nat.
Proof.
  intros (bts & -> & Hall).
  destruct (batches_quiet nl batches 0 bts) as [Hp Hd].
  { rewrite Nat.sub_0_r. exact Hall. }
  change (EvSetEpochId k :: concat bts) with ([EvSetEpochId k] ++ concat bts).
  rewrite pre_batches_app, partition_draws_app, Hp, Hd. split; reflexivity.
Qed.

Lemma epochs_quiet nl batches ks ets :
  Forall2 (epoch_trace nl batches) ks ets ->
  pre_batches (concat ets) = concat (replicate (length ks) batches) /\
  partition_draws (concat ets) = 0%nat.
Proof.
  induction 1 as [|k t ks ets Ht _ [IHp IHd]]; [split; reflexivity|].
  destruct (epoch_trace_quiet _ _ _ _ Ht) as [Hp Hd].
  cbn [concat length replicate].
  rewrite pre_batches_app, partition_draws_app, Hp, Hd, IHp, IHd.
  split; reflexivity.
Qed.

(** *** fit returns when the collaborators raise nothing *)

Lemma call_callback_eval e f w c :
  m_callback (net w) = Some c ->
  call_callback e f w
  = (inr tt,
     on_net (with_callback (Some (f c (net w)))) (after (m_layers (net w)) [e] w)).
Proof.
  intros Hc. unfold call_callback, the_callback, SE.bind. rewrite Hc. reflexivity.
Qed.

Lemma for_up_n_total (I : St -> Prop) (body : Z -> M unit) (lo hi : Z) :
  (forall i w, lo <= i < hi -> I w ->
     exists w', body i w = (inr tt, w') /\ I w') ->
  forall n i w, lo <= i -> i + Z.of_nat n <= hi -> I w ->
    exists w', SE.for_up_n n i body w = (inr tt, w') /\ I w'.
Proof.
  intros Hbody. induction n as [|n IH]; intros i w Hlo Hhi HI.
  - exists w. split; [reflexivity|exact HI].
  - destruct (Hbody i w) as (w1 & Hb & HI1); [lia|exact HI|].
    destruct (IH (i + 1) w1) as (w' & Hrun & HI'); [lia|lia|exact HI1|].
    exists w'. split; [|exact HI'].
    cbn [SE.for_up_n]. erewrite bind_inr by exact Hb. exact Hrun.
Qed.

Lemma for_up_total (I : St -> Prop) (body : Z -> M unit) (hi : Z) w :
  (forall i w, 0 <= i < hi -> I w ->
     exists w', body i w = (inr tt, w') /\ I w') ->
  I w -> exists w', SE.for_up 0 hi body w = (inr tt, w') /\ I w'.
Proof.
  intros Hbody HI. unfold SE.for_up.
  destruct (Z.le_gt_cases 0 hi) as [Hhi|Hhi].
  - apply (for_up_n_total I body 0 hi Hbody); [lia|lia|exact HI].
  - replace (Z.to_nat (hi - 0)) with 0%nat by lia.
    exists w. split; [reflexivity|exact HI].
Qed.

Section WellBehaved.
(** The declared input size of a layer is not changed by what a training
    pass does to the layer. *)
Hypothesis in_size_forward :
  forall l m, Layer.in_size (Layer.forward l m) = Layer.in_size l.
Hypothesis in_size_backprop :
  forall l p g, Layer.in_size (Layer.backprop l p g) = Layer.in_size l.
Hypothesis in_size_update :
  forall l o, Layer.in_size (fst (Layer.update l o)) = Layer.in_size l.

Lemma ready_callback s e f w :
  ready s w -> exists w', call_callback e f w = (inr tt, w') /\ ready s w'.
Proof.
  intros ([c Hc] & Ho & Hl).
  eexists. split; [apply call_callback_eval; exact Hc|].
  split; [eexists; reflexivity|]. split; [exact Ho|exact Hl].
Qed.

Lemma ready_pass s (b : Matrix * Target) w :
  ready s w -> rows (fst b) = s ->
  (forall o, Output.check_target_data o (snd b) = true) ->
  exists w',
    SE.bind (forward (fst b))
      (fun _ => SE.bind (backprop (fst b) (snd b)) (fun _ => update)) w
    = (inr tt, w') /\ ready s w'.
Proof.
  intros (Hc & [o Ho] & l0 & rest & Hw & Hs) Hrows Hcheck.
  assert (Hf := forward_eval w (fst b) l0 rest Hw).
  replace (rows (fst b) =? Layer.in_size l0) with true in Hf
    by (symmetry; apply Z.eqb_eq; congruence).
  erewrite bind_inr by exact Hf.
  assert (Hb := backprop_eval
                  (after (forward_states (fst b) (l0 :: rest))
                         (forward_calls 0 (fst b) (l0 :: rest)) w)
                  (fst b) (snd b) (Layer.forward l0 (fst b))
                  (forward_states (Layer.output (Layer.forward l0 (fst b))) rest)
                  o eq_refl Ho).
  cbv zeta in Hb. rewrite Hcheck in Hb.
  erewrite bind_inr by exact Hb.
  rewrite update_eval. eexists. split; [reflexivity|].
  split; [exact Hc|]. split; [eexists; reflexivity|].
  rewrite layers_with_opt, !after_layers.
  cbn [backprop_states update_states].
  destruct (Layer.update _ _) as [l' o'] eqn:Hu.
  destruct (update_states _ o') as [r o''].
  exists l', r. split; [reflexivity|].
  change l' with (fst (l', o')). rewrite <- Hu.
  rewrite in_size_update, in_size_backprop, in_size_forward. exact Hs.
Qed.

Lemma ready_train_batch s batches i w :
  ready s w -> 0 <= i < Z.of_nat (length batches) ->
  (forall b, b ∈ batches ->
     rows (fst b) = s /\ forall o, Output.check_target_data o (snd b) = true) ->
  exists w', train_batch batches i w = (inr tt, w') /\ ready s w'.
Proof.
  intros Hr Hi Hall. unfold train_batch.
  destruct (ready_callback s (EvSetBatchId i)
              (fun c _ => Callback.set_batch_id c i) w Hr) as (w1 & Hc1 & Hr1).
  erewrite bind_inr by exact Hc1.
  destruct (lookup_lt_is_Some_2 batches (Z.to_nat i)) as [b Hb]; [lia|].
  erewrite bind_inr; cycle 1.
  { unfold batch_at. destruct (Z.ltb_spec i 0); [lia|]. rewrite Hb. reflexivity. }
  destruct (Hall b) as [Hrows Hcheck]; [eapply list_elem_of_lookup_2; exact Hb|].
  destruct (ready_callback s (EvPreTrainingBatch (fst b) (snd b))
              (fun c n => Callback.pre_training_batch c n (fst b) (snd b)) w1 Hr1)
    as (w2 & Hc2 & Hr2).
  erewrite bind_inr by exact Hc2.
  destruct (ready_pass s b w2 Hr2 Hrows Hcheck) as (w3 & Hp & Hr3).
  apply bind_inr_inv in Hp as ([] & v1 & Hf & Hp).
  apply bind_inr_inv in Hp as ([] & v2 & Hbp & Hu).
  erewrite bind_inr by exact Hf. erewrite bind_inr by exact Hbp.
  erewrite bind_inr by exact Hu.
  apply ready_callback. exact Hr3.
Qed.

Lemma fit_returns w x y batch_size epoch seed s :
  ready s w ->
  (forall b,
     b ∈ fst (Random.create_shuffled_batches x y batch_size (fit_rng seed w)) ->
     rows (fst b) = s /\ forall o, Output.check_target_data o (snd b) = true) ->
  exists w', fit x y batch_size epoch seed w = (inr true, w').
Proof.
  intros Hr Hall.
  assert (Hloops : forall batches v,
    (forall b, b ∈ batches ->
       rows (fst b) = s /\ forall o, Output.check_target_data o (snd b) = true) ->
    ready s v ->
    exists v',
      SE.bind
        (call_callback (EvSetNbatch (Z.of_nat (length batches)))
           (fun c _ => Callback.set_nbatch c (Z.of_nat (length batches))))
        (fun _ =>
           SE.bind
             (call_callback (EvSetNepoch epoch)
                (fun c _ => Callback.set_nepoch c epoch))
             (fun _ =>
                SE.bind
                  (SE.for_up 0 epoch (fun k =>
                     SE.bind
                       (call_callback (EvSetEpochId k)
                          (fun c _ => Callback.set_epoch_id c k))
                       (fun _ =>
                          SE.for_up 0 (Z.of_nat (length batches))
                            (train_batch batches))))
                  (fun _ => SE.ret true))) v
      = (inr true, v')).
  { intros batches v Hb Hv.
    destruct (ready_callback s (EvSetNbatch (Z.of_nat (length batches)))
                (fun c _ => Callback.set_nbatch c (Z.of_nat (length batches)))
                v Hv) as (v1 & Hc1 & Hv1).
    erewrite bind_inr by exact Hc1.
    destruct (ready_callback s (EvSetNepoch epoch)
                (fun c _ => Callback.set_nepoch c epoch) v1 Hv1)
      as (v2 & Hc2 & Hv2).
    erewrite bind_inr by exact Hc2.
    destruct (for_up_total (ready s)
                (fun k =>
                   SE.bind
                     (call_callback (EvSetEpochId k)
                        (fun c _ => Callback.set_epoch_id c k))
                     (fun _ =>
                        SE.for_up 0 (Z.of_nat (length batches))
                          (train_batch batches)))
                epoch v2) as (v3 & Hloop & _); [|exact Hv2|].
    { intros k u _ Hu.
      destruct (ready_callback s (EvSetEpochId k)
                  (fun c _ => Callback.set_epoch_id c k) u Hu)
        as (u1 & Hc & Hu1).
      erewrite bind_inr by exact Hc.
      apply for_up_total; [|exact Hu1].
      intros i u2 Hi Hu2. apply ready_train_batch; assumption. }
    erewrite bind_inr by exact Hloop. eexists. reflexivity. }
  destruct Hr as (Hc & Ho & l0 & rest & Hw & Hs).
  unfold fit, num_layers. erewrite bind_inr by reflexivity.
  destruct (Z.leb_spec (Z.of_nat (length (m_layers (net w)))) 0) as [Hle|_];
    [rewrite Hw in Hle; simpl in Hle; lia|].
  erewrite bind_inr by reflexivity. erewrite bind_inr by reflexivity.
  unfold fit_rng in Hall.
  destruct (seed >? 0).
  - do 3 (erewrite bind_inr by reflexivity).
    cbn [net m_rng on_net with_rng with_opt after].
    destruct (Random.create_shuffled_batches x y batch_size (Random.seed seed))
      as [batches r'].
    erewrite bind_inr by reflexivity.
    apply Hloops; [exact Hall|].
    split; [exact Hc|]. split; [exact Ho|]. exists l0, rest. split; assumption.
  - do 3 (erewrite bind_inr by reflexivity).
    cbn [net m_rng on_net with_rng with_opt after].
    destruct (Random.create_shuffled_batches x y batch_size (m_rng (net w)))
      as [batches r'].
    erewrite bind_inr by reflexivity.
    apply Hloops; [exact Hall|].
    split; [exact Hc|]. split; [exact Ho|]. exists l0, rest. split; assumption.
Qed.

End WellBehaved.

(** *** The calls, layer by layer *)

Lemma forward_by_layer (input : Matrix) (ls ls' : list L) :
  length ls' = length ls ->
  ls' = zip_with Layer.forward ls (input :: (Layer.output <$> ls')) ->
  forall (i : nat) l, ls !! i = Some l ->
    exists a,
      imap (fun i a => EvLayerForward (Z.of_nat i) a : Ev)
           (take (length ls) (input :: (Layer.output <$> ls'))) !! i
      = Some (EvLayerForward (Z.of_nat i) a) /\
      ls' !! i = Some (Layer.forward l a) /\
      (i = 0%nat -> a = input) /\
      (forall j lp, i = S j -> ls' !! j = Some lp -> a = Layer.output lp).
Proof.
  intros Hlen Hfix i l Hl.
  assert (Hi : (i < length ls)%nat) by (eapply lookup_lt_Some; exact Hl).
  destruct (lookup_lt_is_Some_2 ls' i) as [l' Hl']; [lia|].
  assert (Hz : zip_with Layer.forward ls (input :: (Layer.output <$> ls')) !! i
               = Some l') by (rewrite <- Hfix; exact Hl').
  apply lookup_zip_with_Some in Hz as (l1 & a & -> & Hl1 & Ha).
  assert (l1 = l) as -> by congruence.
  exists a. split; [|split; [|split]].
  - rewrite list_lookup_imap, lookup_take_lt by exact Hi. rewrite Ha. reflexivity.
  - exact Hl'.
  - intros ->. cbn in Ha. congruence.
  - intros j lp -> Hlp.
    change ((Layer.output <$> ls') !! j = Some a) in Ha.
    rewrite list_lookup_fmap, Hlp in Ha. cbn in Ha. congruence.
Qed.

Lemma backprop_by_layer (input g : Matrix) (ls1 ls2 : list L) :
  length ls2 = length ls1 ->
  ls2 = zip_with (fun l pn => Layer.backprop l (fst pn) (snd pn)) ls1
          (zip (input :: (Layer.output <$> ls1))
               (drop 1 (Layer.backprop_data <$> ls2) ++ [g])) ->
  forall (i : nat) l, ls1 !! i = Some l ->
    exists p n,
      reverse (imap (fun i pn => EvLayerBackprop (Z.of_nat i) (fst pn) (snd pn) : Ev)
                 (zip (input :: (Layer.output <$> ls1))
                      (drop 1 (Layer.backprop_data <$> ls2) ++ [g])))
        !! (length ls1 - S i)%nat
      = Some (EvLayerBackprop (Z.of_nat i) p n) /\
      ls2 !! i = Some (Layer.backprop l p n) /\
      (i = 0%nat -> p = input) /\
      (forall j lp, i = S j -> ls1 !! j = Some lp -> p = Layer.output lp) /\
      (S i = length ls1 -> n = g) /\
      (forall ln, ls2 !! S i = Some ln -> n = Layer.backprop_data ln).
Proof.
  intros Hlen Hfix i l Hl.
  assert (Hi : (i < length ls1)%nat) by (eapply lookup_lt_Some; exact Hl).
  destruct (lookup_lt_is_Some_2 ls2 i) as [l' Hl']; [lia|].
  set (args := zip (input :: (Layer.output <$> ls1))
                   (drop 1 (Layer.backprop_data <$> ls2) ++ [g])) in *.
  assert (Hz : zip_with (fun l pn => Layer.backprop l (fst pn) (snd pn)) ls1 args
               !! i = Some l') by (rewrite <- Hfix; exact Hl').
  apply lookup_zip_with_Some in Hz as (l1 & [p n] & -> & Hl1 & Hpn).
  assert (l1 = l) as -> by congruence.
  pose proof Hpn as Hpn'. apply lookup_zip_Some in Hpn' as [Hp Hn].
  assert (Hargs : length args = length ls1).
  { subst args. rewrite length_zip, length_app, length_drop. cbn [length].
    rewrite !length_fmap. lia. }
  exists p, n. split; [|split; [|split; [|split; [|split]]]].
  - rewrite reverse_lookup by (rewrite length_imap; lia).
    rewrite length_imap, Hargs, list_lookup_imap.
    replace (length ls1 - S (length ls1 - S i))%nat with i by lia.
    rewrite Hpn. reflexivity.
  - exact Hl'.
  - intros ->. cbn in Hp. congruence.
  - intros j lp -> Hlp.
    change ((Layer.output <$> ls1) !! j = Some p) in Hp.
    rewrite list_lookup_fmap, Hlp in Hp. cbn in Hp. congruence.
  - intros Hlast.
    rewrite lookup_app_r in Hn by (rewrite length_drop, length_fmap; lia).
    rewrite length_drop, length_fmap in Hn.
    replace (i - (length ls2 - 1))%nat with 0%nat in Hn by lia.
    cbn in Hn. congruence.
  - intros ln Hln.
    assert (Hlt : (S i < length ls2)%nat) by (eapply lookup_lt_Some; exact Hln).
    rewrite lookup_app_l in Hn by (rewrite length_drop, length_fmap; lia).
    rewrite lookup_drop, list_lookup_fmap in Hn. cbn [Nat.add] in Hn.
    rewrite Hln in Hn. cbn in Hn. congruence.
Qed.

(** Without a callback installed the first write to it ends [fit]. *)
Lemma fit_null_callback w x y batch_size epoch seed :
  m_layers (net w) <> [] -> m_callback (net w) = None ->
  fst (fit x y batch_size epoch seed w) = inl NullHandle.
Proof.
  intros Hne Hc. unfold fit, num_layers.
  erewrite bind_inr by reflexivity.
  destruct (Z.leb_spec (Z.of_nat (length (m_layers (net w)))) 0) as [Hle|_].
  { destruct (m_layers (net w)); [congruence|simpl in Hle; lia]. }
  erewrite bind_inr by reflexivity. erewrite bind_inr by reflexivity.
  destruct (seed >? 0).
  - do 3 (erewrite bind_inr by reflexivity).
    cbn [net m_rng on_net with_rng with_opt after].
    destruct (Random.create_shuffled_batches _ _ _ _) as [batches r'].
    erewrite bind_inr by reflexivity.
    erewrite bind_inl; [reflexivity|].
    unfold call_callback. erewrite bind_inl; [reflexivity|].
    unfold the_callback. cbn. rewrite Hc. reflexivity.
  - do 3 (erewrite bind_inr by reflexivity).
    cbn [net m_rng on_net with_rng with_opt after].
    destruct (Random.create_shuffled_batches _ _ _ _) as [batches r'].
    erewrite bind_inr by reflexivity.
    erewrite bind_inl; [reflexivity|].
    unfold call_callback. erewrite bind_inl; [reflexivity|].
    unfold the_callback. cbn. rewrite Hc. reflexivity.
Qed.

(** ** Facts about a whole run of fit *)

(** *** The start of a run *)

(** [fit] up to its first write to the callback. *)
Lemma fit_prefix w x y batch_size epoch seed :
  m_layers (net w) <> [] ->
  fit x y batch_size epoch seed w
  = fit_loops
      (fst (Random.create_shuffled_batches x y batch_size (fit_rng seed w)))
      epoch (fit_start x y batch_size seed w).
Proof.
  intros Hne. unfold fit, num_layers, fit_start, fit_rng.
  erewrite bind_inr by reflexivity.
  destruct (Z.leb_spec (Z.of_nat (length (m_layers (net w)))) 0) as [Hle|_].
  { destruct (m_layers (net w)); [congruence|simpl in Hle; lia]. }
  erewrite bind_inr by reflexivity. erewrite bind_inr by reflexivity.
  destruct (seed >? 0).
  - do 3 (erewrite bind_inr by reflexivity).
    cbn [net m_rng on_net with_rng with_opt after].
    destruct (Random.create_shuffled_batches x y batch_size (Random.seed seed))
      as [batches r'].
    erewrite bind_inr by reflexivity. cbn [fst snd].
    unfold fit_loops, on_net, with_opt. cbn.
    rewrite <- !app_assoc. reflexivity.
  - do 3 (erewrite bind_inr by reflexivity).
    cbn [net m_rng on_net with_rng with_opt after].
    destruct (Random.create_shuffled_batches x y batch_size (m_rng (net w)))
      as [batches r'].
    erewrite bind_inr by reflexivity. cbn [fst snd].
    unfold fit_loops, on_net, with_opt. cbn.
    rewrite <- !app_assoc. reflexivity.
Qed.

(** *** Sizes as [int]s *)

Lemma static_cast_int_fits (n : Z) :
  0 <= n <= max_int -> static_cast_int n = n.
Proof.
  unfold max_int, static_cast_int. intros Hn.
  rewrite Z.mod_small by lia. lia.
Qed.

(** *** The steps of a run *)

Lemma told_eval e f w c :
  m_callback (net w) = Some c -> call_callback e f w = (inr tt, told e f w).
Proof.
  intros Hc. rewrite (call_callback_eval e f w c Hc). unfold told. rewrite Hc.
  reflexivity.
Qed.

Lemma call_callback_null e f w :
  m_callback (net w) = None -> call_callback e f w = (inl NullHandle, w).
Proof.
  intros Hc. unfold call_callback, the_callback, SE.bind. rewrite Hc. reflexivity.
Qed.

Lemma pass_outcome (b : Matrix * Target) w l0 rest :
  m_layers (net w) = l0 :: rest ->
  SE.bind (forward (fst b))
    (fun _ => SE.bind (backprop (fst b) (snd b)) (fun _ => update)) w
  = if rows (fst b) =? Layer.in_size l0 then
      let v := after (forward_states (fst b) (l0 :: rest))
                     (forward_calls 0 (fst b) (l0 :: rest)) w in
      match m_output (net w) with
      | Some o =>
          if Output.check_target_data o (snd b)
          then (inr tt, spec_pass b w)
          else (inl TargetMismatch,
                after (m_layers (net v)) [EvCheckTargetData (snd b)] v)
      | None => (inl NullHandle, v)
      end
    else (inl ShapeMismatch, w).
Proof.
  intros Hw. pose proof (forward_eval w (fst b) l0 rest Hw) as Hf.
  destruct (rows (fst b) =? Layer.in_size l0);
    [|erewrite bind_inl by exact Hf; reflexivity].
  erewrite bind_inr by exact Hf. cbv zeta.
  remember (forward_states (fst b) (l0 :: rest)) as ls1 eqn:Els1.
  assert (Hls1 : exists l0' rest', ls1 = l0' :: rest') by (subst ls1; cbn; eauto).
  destruct Hls1 as (l0' & rest' & Hls1).
  destruct (m_output (net w)) as [o|] eqn:Ho.
  - pose proof (backprop_eval (after ls1 (forward_calls 0 (fst b) (l0 :: rest)) w)
                  (fst b) (snd b) l0' rest' o Hls1 Ho) as Hb.
    cbv zeta in Hb. rewrite <- Hls1 in Hb.
    destruct (Output.check_target_data o (snd b)).
    + erewrite bind_inr by exact Hb. rewrite update_eval.
      unfold spec_pass. rewrite Ho, Hw, <- Els1. cbv zeta.
      rewrite !after_layers. unfold with_opt, after, on_net, with_output, with_layers.
      cbn [net opt trace m_rng m_output m_callback m_layers].
      rewrite backprop_states_length, <- !app_assoc. reflexivity.
    + erewrite bind_inl by exact Hb. rewrite after_layers. reflexivity.
  - erewrite bind_inl; [reflexivity|].
    apply backprop_null; [rewrite after_layers, Hls1; discriminate|exact Ho].
Qed.

Lemma told_layers e f w : m_layers (net (told e f w)) = m_layers (net w).
Proof. unfold told. destruct (m_callback (net w)); reflexivity. Qed.


Lemma told_callback e f w c :
  m_callback (net w) = Some c ->
  m_callback (net (told e f w)) = Some (f c (net w)).
Proof. unfold told. intros ->. reflexivity. Qed.

Lemma spec_pass_callback b w :
  m_callback (net (spec_pass b w)) = m_callback (net w).
Proof. unfold spec_pass. destruct (m_output (net w)); reflexivity. Qed.

Lemma spec_pass_length b w :
  length (m_layers (net (spec_pass b w))) = length (m_layers (net w)).
Proof.
  unfold spec_pass. destruct (m_output (net w)); [|reflexivity]. cbn.
  rewrite update_states_length, backprop_states_length, forward_states_length.
  reflexivity.
Qed.


Lemma spec_batch_length i b w :
  length (m_layers (net (spec_batch i b w))) = length (m_layers (net w)).
Proof.
  unfold spec_batch. rewrite told_layers, spec_pass_length, !told_layers.
  reflexivity.
Qed.



(** The steps of [train_batch] once the batch is read and the callback is
    known to be installed. *)
Lemma train_batch_split batches i (b : Matrix * Target) w c :
  m_callback (net w) = Some c ->
  0 <= i -> batches !! Z.to_nat i = Some b ->
  train_batch batches i w
  = SE.bind (forward (fst b))
      (fun _ => SE.bind (backprop (fst b) (snd b))
         (fun _ => SE.bind update
            (fun _ => call_callback (EvPostTrainingBatch (fst b) (snd b))
               (fun c n => Callback.post_training_batch c n (fst b) (snd b)))))
      (told (EvPreTrainingBatch (fst b) (snd b))
            (fun c n => Callback.pre_training_batch c n (fst b) (snd b))
         (told (EvSetBatchId i) (fun c _ => Callback.set_batch_id c i) w)).
Proof.
  intros Hc Hi Hb. unfold train_batch.
  erewrite bind_inr by (apply (told_eval _ _ _ c); exact Hc).
  erewrite bind_inr; cycle 1.
  { unfold batch_at. destruct (Z.ltb_spec i 0); [lia|]. rewrite Hb. reflexivity. }
  erewrite bind_inr by (eapply told_eval, told_callback; exact Hc).
  reflexivity.
Qed.

Lemma pass_then {A} (k : M A) (b : Matrix * Target) v :
  SE.bind (forward (fst b))
    (fun _ => SE.bind (backprop (fst b) (snd b)) (fun _ => SE.bind update (fun _ => k))) v
  = SE.bind
      (SE.bind (forward (fst b))
         (fun _ => SE.bind (backprop (fst b) (snd b)) (fun _ => update)))
      (fun _ => k) v.
Proof.
  unfold SE.bind. destruct (forward (fst b) v) as [[e|[]] v1]; [reflexivity|].
  destruct (backprop (fst b) (snd b) v1) as [[e|[]] v2]; [reflexivity|].
  destruct (update v2) as [[e|[]] v3]; reflexivity.
Qed.

(** A batch that no exception ends. *)
Lemma train_batch_run batches i w w' :
  m_layers (net w) <> [] ->
  train_batch batches i w = (inr tt, w') ->
  exists b, 0 <= i /\ batches !! Z.to_nat i = Some b /\ w' = spec_batch i b w.
Proof.
  intros Hne Hrun.
  destruct (m_callback (net w)) as [c|] eqn:Hc; cycle 1.
  { unfold train_batch in Hrun.
    erewrite bind_inl in Hrun by (apply call_callback_null; exact Hc).
    discriminate. }
  destruct (Z.ltb_spec i 0) as [Hneg|Hi].
  { unfold train_batch in Hrun.
    erewrite bind_inr in Hrun by (apply (told_eval _ _ _ c); exact Hc).
    erewrite bind_inl in Hrun; [discriminate|].
    unfold batch_at. destruct (Z.ltb_spec i 0); [reflexivity|lia]. }
  destruct (batches !! Z.to_nat i) as [b|] eqn:Hb; cycle 1.
  { unfold train_batch in Hrun.
    erewrite bind_inr in Hrun by (apply (told_eval _ _ _ c); exact Hc).
    erewrite bind_inl in Hrun; [discriminate|].
    unfold batch_at. destruct (Z.ltb_spec i 0); [lia|]. rewrite Hb. reflexivity. }
  exists b. split; [exact Hi|]. split; [reflexivity|].
  rewrite (train_batch_split batches i b w c Hc Hi Hb), pass_then in Hrun.
  set (v := told (EvPreTrainingBatch (fst b) (snd b))
              (fun c n => Callback.pre_training_batch c n (fst b) (snd b))
              (told (EvSetBatchId i) (fun c _ => Callback.set_batch_id c i) w)) in *.
  assert (Hv : exists l0 rest, m_layers (net v) = l0 :: rest).
  { subst v. rewrite !told_layers. destruct (m_layers (net w)); [congruence|eauto]. }
  destruct Hv as (l0 & rest & Hv).
  apply bind_inr_inv in Hrun as ([] & v3 & Hpass & Hpost).
  rewrite (pass_outcome b v l0 rest Hv) in Hpass.
  destruct (rows (fst b) =? Layer.in_size l0); [|discriminate].
  cbv zeta in Hpass.
  destruct (m_output (net v)) as [o|]; [|discriminate].
  destruct (Output.check_target_data o (snd b)); [|discriminate].
  apply pair_equal_spec in Hpass as [_ <-].
  assert (Hc3 : exists c3, m_callback (net (spec_pass b v)) = Some c3).
  { rewrite spec_pass_callback. subst v.
    erewrite told_callback; [eexists; reflexivity|].
    erewrite told_callback; [reflexivity|exact Hc]. }
  destruct Hc3 as (c3 & Hc3).
  rewrite (told_eval _ _ _ c3 Hc3) in Hpost.
  apply pair_equal_spec in Hpost as [_ <-]. reflexivity.
Qed.


(** *** The loops of fit *)

Lemma nonempty_length (w w' : St) :
  length (m_layers (net w')) = length (m_layers (net w)) ->
  m_layers (net w) <> [] -> m_layers (net w') <> [].
Proof.
  intros Hlen Hne Hnil. rewrite Hnil in Hlen.
  destruct (m_layers (net w)); [congruence|discriminate].
Qed.

Lemma call_callback_run e f w w' :
  call_callback e f w = (inr tt, w') -> w' = told e f w.
Proof.
  intros Hrun. destruct (m_callback (net w)) as [c|] eqn:Hc.
  - rewrite (told_eval e f w c Hc) in Hrun.
    apply pair_equal_spec in Hrun as [_ <-]. reflexivity.
  - rewrite (call_callback_null e f w Hc) in Hrun. discriminate.
Qed.

Lemma batches_run batches rest : forall pre w w',
  batches = pre ++ rest ->
  m_layers (net w) <> [] ->
  SE.for_up_n (length rest) (Z.of_nat (length pre)) (train_batch batches) w
  = (inr tt, w') ->
  w' = spec_batches (Z.of_nat (length pre)) rest w.
Proof.
  induction rest as [|b rest IH]; intros pre w w' Hbs Hne Hrun.
  - cbn in Hrun. apply pair_equal_spec in Hrun as [_ <-]. reflexivity.
  - cbn [length SE.for_up_n] in Hrun.
    apply bind_inr_inv in Hrun as ([] & w1 & Hb & Hrun).
    destruct (train_batch_run batches _ w w1 Hne Hb) as (b' & _ & Hb' & ->).
    rewrite Nat2Z.id, Hbs, lookup_middle in Hb'. injection Hb' as <-.
    replace (Z.of_nat (length pre) + 1) with (Z.of_nat (length (pre ++ [b])))
      in Hrun by (rewrite length_app; simpl; lia).
    apply (IH (pre ++ [b])) in Hrun.
    + rewrite Hrun. cbn [spec_batches]. rewrite length_app. cbn [length].
      replace (Z.of_nat (length pre + 1)) with (Z.of_nat (length pre) + 1) by lia.
      reflexivity.
    + rewrite Hbs, <- app_assoc. reflexivity.
    + eapply nonempty_length; [apply spec_batch_length|exact Hne].
Qed.

Lemma spec_batches_length bs : forall i w,
  length (m_layers (net (spec_batches i bs w))) = length (m_layers (net w)).
Proof.
  induction bs as [|b bs IH]; intros i w; [reflexivity|].
  cbn [spec_batches]. rewrite IH. apply spec_batch_length.
Qed.

Lemma spec_epoch_length batches k w :
  length (m_layers (net (spec_epoch batches k w))) = length (m_layers (net w)).
Proof. unfold spec_epoch. rewrite spec_batches_length, told_layers. reflexivity. Qed.

Lemma epoch_run batches k w w' :
  m_layers (net w) <> [] ->
  SE.bind (call_callback (EvSetEpochId k) (fun c _ => Callback.set_epoch_id c k))
    (fun _ => SE.for_up 0 (Z.of_nat (length batches)) (train_batch batches)) w
  = (inr tt, w') ->
  w' = spec_epoch batches k w.
Proof.
  intros Hne Hrun.
  apply bind_inr_inv in Hrun as ([] & w1 & Hc & Hrun).
  apply call_callback_run in Hc as ->.
  unfold SE.for_up in Hrun. rewrite Z.sub_0_r, Nat2Z.id in Hrun.
  apply (batches_run batches batches [] _ w' eq_refl) in Hrun; [exact Hrun|].
  rewrite told_layers. exact Hne.
Qed.

Lemma epochs_run batches n : forall k w w',
  m_layers (net w) <> [] ->
  SE.for_up_n n k
    (fun k =>
       SE.bind (call_callback (EvSetEpochId k) (fun c _ => Callback.set_epoch_id c k))
         (fun _ => SE.for_up 0 (Z.of_nat (length batches)) (train_batch batches))) w
  = (inr tt, w') ->
  w' = spec_epochs batches n k w.
Proof.
  induction n as [|n IH]; intros k w w' Hne Hrun.
  - cbn in Hrun. apply pair_equal_spec in Hrun as [_ <-]. reflexivity.
  - cbn [SE.for_up_n] in Hrun.
    apply bind_inr_inv in Hrun as ([] & w1 & Hk & Hrun).
    apply (epoch_run batches k w w1 Hne) in Hk as ->.
    apply IH in Hrun; [exact Hrun|].
    eapply nonempty_length; [apply spec_epoch_length|exact Hne].
Qed.

(** A run of [fit] that no exception ends leaves the world of [spec_fit]. *)
Lemma fit_run w x y batch_size epoch seed b w' :
  m_layers (net w) <> [] ->
  fit x y batch_size epoch seed w = (inr b, w') ->
  b = true /\ w' = spec_fit x y batch_size epoch seed w.
Proof.
  intros Hne Hrun. rewrite (fit_prefix w x y batch_size epoch seed Hne) in Hrun.
  unfold fit_loops in Hrun.
  apply bind_inr_inv in Hrun as ([] & w1 & Hc1 & Hrun).
  apply bind_inr_inv in Hrun as ([] & w2 & Hc2 & Hrun).
  apply bind_inr_inv in Hrun as ([] & w3 & Hloop & Hret).
  apply pair_equal_spec in Hret as [Hb <-]. injection Hb as <-.
  split; [reflexivity|].
  apply call_callback_run in Hc1 as ->. apply call_callback_run in Hc2 as ->.
  unfold SE.for_up in Hloop. rewrite Z.sub_0_r in Hloop.
  apply epochs_run in Hloop; [exact Hloop|].
  rewrite !told_layers. exact Hne.
Qed.

(** *** What ends a run of fit *)








(** *** Networks as the constructors and the builders leave them *)

Lemma built_fields n0 (ls : list L) o op :
  m_layers (net (built n0 ls o op)) = m_layers n0 ++ ls /\
  m_callback (net (built n0 ls o op)) = m_callback n0 /\
  m_output (net (built n0 ls o op)) = Some o /\
  m_rng (net (built n0 ls o op)) = m_rng n0 /\
  opt (built n0 ls o op) = op /\ trace (built n0 ls o op) = [].
Proof.
  unfold built.
  assert (Hfold : forall (v : St),
    let v' := foldl (fun v l => snd (addLayer l v)) v ls in
    m_layers (net v') = m_layers (net v) ++ ls /\
    m_callback (net v') = m_callback (net v) /\
    m_rng (net v') = m_rng (net v) /\ opt v' = opt v /\ trace v' = trace v).
  { induction ls as [|l ls IH]; intros v.
    - cbn. rewrite app_nil_r. repeat split.
    - cbn [foldl].
      destruct (IH (snd (addLayer l v))) as (Ea & Eb & Ec & Ed & Ee).
      cbv zeta. rewrite Ea, Eb, Ec, Ed, Ee. cbn. rewrite <- app_assoc.
      repeat split. }
  destruct (Hfold (mkWorld n0 op [])) as (Ea & Eb & Ec & Ed & Ee).
  cbn [setOutput SE.modify snd on_net with_output net m_layers m_callback
       m_output m_rng opt trace].
  cbv zeta in Ea, Eb, Ec, Ed, Ee. rewrite Ea, Eb, Ec, Ed, Ee. repeat split.
Qed.

(** ** The claims *)

(** C1.  On a network of [L >= 1] layers on which [forward input] has just
    returned, with an output head that accepts [target], [backprop input
    target] returns normally after these calls, in this order: the head
    checks the target and evaluates the last layer's cached output, then
    [backprop] is called on the layers in decreasing index order [L-1 .. 0].
    Layer [i] receives the pair number [i] of [zip prevs nexts], where
    [prevs] is the input followed by the forward outputs cached in the
    layers, so layer 0 receives the input and layer [i > 0] the output of
    layer [i - 1], and [nexts] is the gradients cached in layers [1 .. L-1]
    once their own [backprop] has run, followed by the gradient of the
    output head, so layer [L - 1] receives the head's gradient and layer
    [i < L - 1] the gradient layer [i + 1] has just produced.  With one
    layer the only call is on the input and the head's gradient.  The last
    part says the same layer by layer: the call on layer [i] is the one
    number [L - 1 - i]. *)
Theorem backprop_spec (w w1 : St) (input : Matrix) (target : Target) (o : O) :
  forward input w = (inr tt, w1) ->
  m_layers (net w1) <> [] ->
  m_output (net w1) = Some o ->
  Output.check_target_data o target = true ->
  exists lz o' ls2,
    let ls1 := m_layers (net w1) in
    let prevs := input :: (Layer.output <$> ls1) in
    let nexts := drop 1 (Layer.backprop_data <$> ls2) ++ [Output.backprop_data o'] in
    let calls :=
      reverse (imap (fun i pn => EvLayerBackprop (Z.of_nat i) (fst pn) (snd pn))
                    (zip prevs nexts)) in
    last ls1 = Some lz /\
    o' = Output.evaluate o (Layer.output lz) target /\
    backprop input target w1
    = (inr tt,
       after ls2
         ([EvCheckTargetData target; EvEvaluate (Layer.output lz) target] ++ calls)
         (on_net (with_output (Some o')) w1)) /\
    length ls2 = length ls1 /\
    ls2 = zip_with (fun l pn => Layer.backprop l (fst pn) (snd pn)) ls1
            (zip prevs nexts) /\
    (forall l0, ls1 = [l0] ->
       calls = [EvLayerBackprop 0 input (Output.backprop_data o')]) /\
    (forall (i : nat) l, ls1 !! i = Some l ->
       exists p n,
         calls !! (length ls1 - S i)%nat
         = Some (EvLayerBackprop (Z.of_nat i) p n) /\
         ls2 !! i = Some (Layer.backprop l p n) /\
         (i = 0%nat -> p = input) /\
         (forall j lp, i = S j -> ls1 !! j = Some lp -> p = Layer.output lp) /\
         (S i = length ls1 -> n = Output.backprop_data o') /\
         (forall ln, ls2 !! S i = Some ln -> n = Layer.backprop_data ln)).
Proof.
  intros _ Hne Ho Hc.
  destruct (m_layers (net w1)) as [|l0 rest] eqn:Hw; [congruence|]. clear Hne.
  destruct (last (l0 :: rest)) as [lz|] eqn:Hlast;
    [|apply last_None in Hlast; discriminate].
  pose proof (backprop_eval w1 input target l0 rest o Hw Ho) as Hrun.
  cbv zeta in Hrun. rewrite Hc in Hrun.
  assert (Hprev : prev_of (l0 :: rest) input = Layer.output lz)
    by (unfold prev_of; rewrite Hlast; reflexivity).
  rewrite Hprev in Hrun.
  set (o' := Output.evaluate o (Layer.output lz) target) in *.
  set (g := Output.backprop_data o') in *.
  exists lz, o', (backprop_states input (l0 :: rest) g).
  cbv zeta. split; [exact Hlast|]. split; [reflexivity|].
  split; [|split; [|split; [|split]]].
  - rewrite Hrun, backprop_calls_imap. reflexivity.
  - apply backprop_states_length.
  - apply backprop_states_zip.
  - intros l1 Hl1. injection Hl1 as -> ->. reflexivity.
  - apply backprop_by_layer;
      [apply backprop_states_length|apply backprop_states_zip].
Qed.

(** C2.  [forward] on an empty pipeline returns normally and changes
    nothing; on a non-empty pipeline whose first layer declares an input
    size other than the row count of [input] it raises [ShapeMismatch]
    before any call; otherwise it returns normally after calling [forward]
    on the layers in increasing index order, layer 0 on [input] and layer
    [i > 0] on the output that layer [i - 1] has cached in this pass.  The
    arguments are the first [L] entries of [input :: outputs of the new layer
    states], and the new state of each layer is its [forward] on its
    argument; the last part says the same layer by layer. *)
Theorem forward_spec (w : St) (input : Matrix) :
  (m_layers (net w) = [] -> forward input w = (inr tt, w)) /\
  (forall l0, m_layers (net w) !! 0%nat = Some l0 ->
     rows input <> Layer.in_size l0 ->
     forward input w = (inl ShapeMismatch, w)) /\
  (forall l0, m_layers (net w) !! 0%nat = Some l0 ->
     rows input = Layer.in_size l0 ->
     exists ls',
       let calls :=
         imap (fun i a => EvLayerForward (Z.of_nat i) a)
              (take (length (m_layers (net w)))
                    (input :: (Layer.output <$> ls'))) in
       forward input w = (inr tt, after ls' calls w) /\
       length ls' = length (m_layers (net w)) /\
       ls' = zip_with Layer.forward (m_layers (net w))
                      (input :: (Layer.output <$> ls')) /\
       (forall (i : nat) l, m_layers (net w) !! i = Some l ->
          exists a,
            calls !! i = Some (EvLayerForward (Z.of_nat i) a) /\
            ls' !! i = Some (Layer.forward l a) /\
            (i = 0%nat -> a = input) /\
            (forall j lp, i = S j -> ls' !! j = Some lp -> a = Layer.output lp))).
Proof.
  split; [apply forward_empty|]. split.
  - intros l0 Hl0 Hne.
    destruct (m_layers (net w)) as [|l rest] eqn:Hw; [discriminate|].
    injection Hl0 as ->. rewrite (forward_eval w input l0 rest Hw).
    apply Z.eqb_neq in Hne. rewrite Hne. reflexivity.
  - intros l0 Hl0 Heq.
    destruct (m_layers (net w)) as [|l rest] eqn:Hw; [discriminate|].
    injection Hl0 as ->. exists (forward_states input (l0 :: rest)).
    rewrite (forward_eval w input l0 rest Hw).
    apply Z.eqb_eq in Heq. rewrite Heq. cbv zeta.
    split; [|split; [|split]].
    + rewrite forward_calls_imap. reflexivity.
    + apply forward_states_length.
    + apply forward_states_zip.
    + apply forward_by_layer;
        [apply forward_states_length|apply forward_states_zip].
Qed.

(** C3 (amended).  With [seed <= 0], a call of [fit] on a non-empty pipeline
    that no exception ends asks the batch scheduler for a partition exactly
    once, from the generator as the call found it and before the first
    epoch; the generator is left as that one draw left it; and every epoch
    hands to the pre-training hook the batches of that same partition, in the
    same order: the batches seen by the hook over the whole call are the
    partition repeated once per epoch. *)
Theorem fit_single_partition (w w' : St) (x : Matrix) (y : Target)
    (batch_size epoch seed : Z) (b : bool) :
  seed <= 0 ->
  m_layers (net w) <> [] ->
  fit x y batch_size epoch seed w = (inr b, w') ->
  let drawn := Random.create_shuffled_batches x y batch_size (m_rng (net w)) in
  exists tr,
    trace w' = trace w ++ tr /\
    partition_draws tr = 1%nat /\
    m_rng (net w') = snd drawn /\
    pre_batches tr = concat (replicate (Z.to_nat epoch) (fst drawn)).
Proof.
  intros Hseed Hne Hrun.
  destruct (fit_inv w x y batch_size epoch seed b w' Hne Hrun)
    as (_ & [_ Hrng] & ets & Htr & Hall).
  unfold fit_rng in *.
  destruct (Z.gtb_spec seed 0) as [Hpos|_]; [lia|].
  cbv zeta. eexists. split; [exact Htr|].
  destruct (epochs_quiet _ _ _ _ Hall) as [Hp Hd].
  rewrite length_seqZ in Hp.
  rewrite !partition_draws_app, !pre_batches_app, Hp, Hd.
  split; [reflexivity|]. split; [exact Hrng|reflexivity].
Qed.

(** C4.  A call of [fit] on a non-empty pipeline that no exception ends
    returns the success indicator and leaves the world of [spec_fit]: the
    optimizer is reset and the partition drawn, the callback is told the
    batch count [B] and the epoch count [E], and then, for each epoch
    [k = 0 .. E-1], it is told the epoch id [k] and, for each batch
    [i = 0 .. B-1], it is told the batch id [i], its pre-training hook runs
    on batch [i], the forward pass is made on the batch predictors,
    back-propagation on the batch predictors and targets, the update on all
    layers, and its post-training hook runs on batch [i].  The callback the
    handle points to at the end is the one these writes and hooks have
    produced in this order, each hook having received the network as it was
    then; the layers, the head and the optimizer are the ones the passes have
    produced; the trace shows the same calls in the same order.  No exception
    ends the call when both handles are set, the layers keep their declared
    input size, and every batch has the row count the first layer declares
    and targets the output head accepts.  The callback has to be installed
    by the caller, though: on a network as a constructor, [addLayer] and
    [setOutput] leave it, the handle is null and the call ends at its first
    write to the callback, before any epoch. *)
Theorem fit_order (w : St) (x : Matrix) (y : Target) (batch_size epoch seed : Z) :
  m_layers (net w) <> [] ->
  let nl := length (m_layers (net w)) in
  let batches :=
    fst (Random.create_shuffled_batches x y batch_size (fit_rng seed w)) in
  (forall b w',
     fit x y batch_size epoch seed w = (inr b, w') ->
     b = true /\
     w' = spec_fit x y batch_size epoch seed w /\
     exists ets,
       trace w'
       = trace w
         ++ [EvOptReset] ++ (if seed >? 0 then [EvRngSeed seed] else [])
         ++ [EvCreateShuffledBatches x y batch_size;
             EvSetNbatch (Z.of_nat (length batches));
             EvSetNepoch epoch]
         ++ concat ets /\
       Forall2 (epoch_trace nl batches) (seqZ 0 epoch) ets) /\
  (forall s,
     ready s w ->
     (forall l m, Layer.in_size (Layer.forward l m) = Layer.in_size l) ->
     (forall l p g, Layer.in_size (Layer.backprop l p g) = Layer.in_size l) ->
     (forall l o, Layer.in_size (fst (Layer.update l o)) = Layer.in_size l) ->
     (forall b, b ∈ batches ->
        rows (fst b) = s /\
        forall o, Output.check_target_data o (snd b) = true) ->
     fit x y batch_size epoch seed w
     = (inr true, spec_fit x y batch_size epoch seed w)) /\
  (forall n0 ls o op,
     n0 = default_network \/ (exists r, n0 = network_with_rng r) ->
     ls <> [] ->
     m_layers (net (built n0 ls o op)) = ls /\
     m_output (net (built n0 ls o op)) = Some o /\
     m_callback (net (built n0 ls o op)) = None /\
     fit x y batch_size epoch seed (built n0 ls o op)
     = (inl NullHandle, fit_start x y batch_size seed (built n0 ls o op))).
Proof.
  intros Hne. cbv zeta. split; [|split].
  - intros b w' Hrun.
    destruct (fit_inv w x y batch_size epoch seed b w' Hne Hrun)
      as (Hb & _ & ets & Htr & Hall).
    destruct (fit_run w x y batch_size epoch seed b w' Hne Hrun) as [_ Hw'].
    split; [exact Hb|]. split; [exact Hw'|].
    exists ets. split; [exact Htr|exact Hall].
  - intros s Hr Hf Hb Hu Hall.
    destruct (fit_returns Hf Hb Hu w x y batch_size epoch seed s Hr Hall)
      as [w' Hrun].
    destruct (fit_run w x y batch_size epoch seed true w' Hne Hrun) as [_ <-].
    exact Hrun.
  - intros n0 ls o op Hn0 Hls.
    destruct (built_fields n0 ls o op) as (Hl & Hc & Ho & _).
    assert (Hl0 : m_layers n0 = [] /\ m_callback n0 = None)
      by (destruct Hn0 as [->|[r ->]]; split; reflexivity).
    destruct Hl0 as [Hl0 Hc0]. rewrite Hl0 in Hl. rewrite Hc0 in Hc.
    split; [exact Hl|]. split; [exact Ho|]. split; [exact Hc|].
    rewrite fit_prefix by (rewrite Hl; exact Hls).
    unfold fit_loops. erewrite bind_inl; [reflexivity|].
    apply call_callback_null. exact Hc.
Qed.

(** C5.  [check_unit_sizes] never changes the state; on a pipeline of zero or
    one layer it returns normally; on every pipeline it raises
    [ShapeMismatch] exactly when some adjacent pair of layers disagrees
    (width out of layer [i] against width into layer [i + 1]), and returns
    normally otherwise. *)
Theorem check_unit_sizes_spec (w : St) :
  snd (check_unit_sizes w) = w /\
  ((length (m_layers (net w)) <= 1)%nat -> fst (check_unit_sizes w) = inr tt) /\
  (fst (check_unit_sizes w) = inl ShapeMismatch <->
   exists i li ln,
     m_layers (net w) !! i = Some li /\ m_layers (net w) !! S i = Some ln /\
     Layer.out_size li <> Layer.in_size ln) /\
  (fst (check_unit_sizes w) = inr tt \/ fst (check_unit_sizes w) = inl ShapeMismatch).
Proof.
  rewrite check_unit_sizes_eval. cbn [fst snd].
  split; [reflexivity|]. split; [|split].
  - intros Hlen. destruct (m_layers (net w)) as [|l0 [|l1 rest]]; try reflexivity.
    simpl in Hlen. lia.
  - destruct (sizes_match (m_layers (net w))) eqn:Hm.
    + split; [discriminate|]. intros (i & li & ln & Hi & Hn & Hne).
      assert (sizes_match (m_layers (net w)) = false); [|congruence].
      apply sizes_match_false. exists i, li, ln. auto.
    + split; [|reflexivity]. intros _.
      apply sizes_match_false in Hm as (i & li & ln & Hi & Hn & Hne).
      exists i, li, ln. auto.
  - destruct (sizes_match (m_layers (net w))); auto.
Qed.


(** C7.  For a sequence of vectors whose number fits an [int], which the
    narrowing [static_cast<int>(param.size())] of the count check leaves as
    it is: [set_parameters] raises [ParameterCountMismatch] exactly when the
    number of vectors differs from the number of layers, and then nothing is
    changed and no layer is called.  When the two numbers agree, the network
    itself checks nothing more: the call returns normally exactly when every
    layer accepts its vector, and otherwise the exception is the one of the
    layer that rejects its vector. *)
Theorem set_parameters_count_spec (w : St) (param : list (list Scalar)) :
  Z.of_nat (length param) <= max_int ->
  static_cast_int (Z.of_nat (length param)) = Z.of_nat (length param) /\
  (fst (set_parameters param w) = inl ParameterCountMismatch <->
   static_cast_int (Z.of_nat (length param))
   <> Z.of_nat (length (m_layers (net w)))) /\
  (fst (set_parameters param w) = inl ParameterCountMismatch <->
   length param <> length (m_layers (net w))) /\
  (length param <> length (m_layers (net w)) ->
   set_parameters param w = (inl ParameterCountMismatch, w)) /\
  (length param = length (m_layers (net w)) ->
   (fst (set_parameters param w) = inr tt <->
    exists news, Forall3 accepts (m_layers (net w)) param news) /\
   (fst (set_parameters param w) = inl LayerRejected <->
    exists (i : nat) l p,
      m_layers (net w) !! i = Some l /\ param !! i = Some p /\
      Layer.set_parameters l p = None)).
Proof.
  intros Hfits.
  assert (Hcast : static_cast_int (Z.of_nat (length param))
                  = Z.of_nat (length param))
    by (apply static_cast_int_fits; lia).
  assert (Hcases : length param = length (m_layers (net w)) ->
    (exists news, Forall3 accepts (m_layers (net w)) param news /\
                  fst (set_parameters param w) = inr tt) \/
    ((exists (i : nat) l p,
        m_layers (net w) !! i = Some l /\ param !! i = Some p /\
        Layer.set_parameters l p = None) /\
     fst (set_parameters param w) = inl LayerRejected)).
  { intros Hlen.
    destruct (accepts_or_rejects (m_layers (net w)) param Hlen)
      as [(news & Hacc)|(a & lj & post & pa & pj & ppost & news
                         & Hw & Hparam & Hpost & Hacc & Hrej)].
    - left. exists news. split; [exact Hacc|].
      rewrite (set_parameters_accepted w param news Hacc). reflexivity.
    - right. destruct (Forall3_accepts_length _ _ _ Hacc) as [Hpa _]. split.
      + exists (length a), lj, pj. rewrite Hw, Hparam. split; [|split].
        * apply lookup_middle.
        * rewrite <- Hpa. apply lookup_middle.
        * exact Hrej.
      + rewrite (set_parameters_rejected w param a lj post pa pj ppost news
                   Hw Hparam Hpost Hacc Hrej). reflexivity. }
  assert (Hiff : fst (set_parameters param w) = inl ParameterCountMismatch <->
                 length param <> length (m_layers (net w))).
  { split.
    - intros Hres Hlen.
      destruct (Hcases Hlen) as [(news & _ & Hr)|(_ & Hr)]; congruence.
    - intros Hne. rewrite (set_parameters_count w param Hne). reflexivity. }
  split; [exact Hcast|]. split; [|split; [exact Hiff|split]].
  - rewrite Hcast, Hiff. split; [intros Hne Heq|intros Hne Heq]; apply Hne; lia.
  - apply set_parameters_count.
  - intros Hlen. split; split.
    + intros Hres. destruct (Hcases Hlen) as [(news & Hacc & _)|(_ & Hr)];
        [eauto|congruence].
    + intros (news & Hacc).
      rewrite (set_parameters_accepted w param news Hacc). reflexivity.
    + intros Hres. destruct (Hcases Hlen) as [(news & _ & Hr)|(Hex & _)];
        [congruence|exact Hex].
    + intros (i & l & p & Hi & Hp & Hrej).
      destruct (Hcases Hlen) as [(news & Hacc & _)|(_ & Hr)]; [|exact Hr].
      destruct (Forall3_accepts_lookup _ _ _ i l p Hacc Hi Hp) as (l' & _ & Hs).
      congruence.
Qed.

(** C8.  When the number of vectors is the number of layers and each layer
    accepts its vector, [set_parameters] returns normally and a following
    [get_parameters] returns the vectors that were set, layer by layer,
    provided each layer of the network reports back the vector it has
    accepted (the serialization contract of Layer, which the network relies
    on). *)
Theorem set_get_parameters (w : St) (param : list (list Scalar)) :
  length param = length (m_layers (net w)) ->
  (forall (i : nat) l p,
     m_layers (net w) !! i = Some l -> param !! i = Some p ->
     is_Some (Layer.set_parameters l p)) ->
  (forall l p l',
     l ∈ m_layers (net w) -> Layer.set_parameters l p = Some l' ->
     Layer.get_parameters l' = p) ->
  exists w',
    set_parameters param w = (inr tt, w') /\
    get_parameters w' = (inr param, w').
Proof.
  intros Hlen Hok Hlaw.
  destruct (accepts_or_rejects (m_layers (net w)) param Hlen)
    as [(news & Hacc)|(a & lj & post & pa & pj & ppost & news
                       & Hw & Hparam & Hpost & Hacc & Hrej)].
  - eexists. split; [apply (set_parameters_accepted w param news Hacc)|].
    rewrite get_parameters_eval, after_layers. do 2 f_equal.
    clear Hlen Hok. induction Hacc as [|l p l' ls ps news Hl _ IH]; [reflexivity|].
    cbn. f_equal.
    + apply (Hlaw l p l'); [left|exact Hl].
    + apply IH. intros l1 p1 l1' Hin. apply Hlaw. right. exact Hin.
  - destruct (Forall3_accepts_length _ _ _ Hacc) as [Hpa _].
    destruct (Hok (length a) lj pj) as [l' Hl'].
    + rewrite Hw. apply lookup_middle.
    + rewrite Hparam, <- Hpa. apply lookup_middle.
    + congruence.
Qed.

(** C9.  On a network without layers [backprop] returns normally at once and
    changes nothing, whatever the output handle: no operation of the output
    head is called (the trace is as before), and a null output handle, as the
    default constructor leaves it, is not dereferenced (no [NullHandle]). *)
Theorem backprop_no_layers (w : St) (input : Matrix) (target : Target) :
  (m_layers (net w) = [] -> backprop input target w = (inr tt, w)) /\
  (forall op tr,
     m_output default_network = None /\
     backprop input target (mkWorld default_network op tr)
     = (inr tt, mkWorld default_network op tr)).
Proof.
  split; [apply backprop_empty|].
  intros op tr. split; [reflexivity|]. apply backprop_empty. reflexivity.
Qed.

(** C10.  Once the count check has passed, the vectors go to the layers in
    pipeline order, vector [i] to layer [i].  When all layers accept, all
    have their new values.  When layer [j] is the first to reject its vector,
    the exception of that layer ends the call: layers [0 .. j-1] keep the
    values just set, layers [j .. L-1] keep their old ones, the layers after
    [j] are not called, and nothing is rolled back. *)
Theorem set_parameters_in_order (w : St) (param : list (list Scalar)) :
  (forall news,
     Forall3 accepts (m_layers (net w)) param news ->
     set_parameters param w
     = (inr tt,
        after news
          (imap (fun i p => EvLayerSetParameters (Z.of_nat i) p) param) w)) /\
  (forall a lj post pa pj ppost news,
     m_layers (net w) = a ++ lj :: post ->
     param = pa ++ pj :: ppost ->
     length post = length ppost ->
     Forall3 accepts a pa news ->
     Layer.set_parameters lj pj = None ->
     set_parameters param w
     = (inl LayerRejected,
        after (news ++ lj :: post)
          (imap (fun i p => EvLayerSetParameters (Z.of_nat i) p) (pa ++ [pj])) w)).
Proof.
  split.
  - apply set_parameters_accepted.
  - intros. eapply set_parameters_rejected; eassumption.
Qed.

(** ** Further facts on the member functions *)

(** *** update, init, predict and the two getters *)

(** X1.  [update] never raises, whatever the handles: it calls [update] on
    every layer once, in index order [0 .. L-1], handing the one optimizer
    from each layer to the next, and touches neither the generator nor the
    output and callback handles; without layers it does nothing. *)
Theorem update_spec (w : St) :
  let ls := m_layers (net w) in
  update w
  = (inr tt,
     with_opt (snd (update_states ls (opt w)))
       (after (fst (update_states ls (opt w)))
              (EvLayerUpdate <$> seqZ 0 (Z.of_nat (length ls))) w)) /\
  length (fst (update_states ls (opt w))) = length ls /\
  (ls = [] -> update w = (inr tt, w)).
Proof.
  cbv zeta. split; [apply update_eval|]. split; [apply update_states_length|].
  intros Hnil. rewrite update_eval. f_equal. symmetry.
  etransitivity; [symmetry; apply after_id|]. rewrite Hnil. reflexivity.
Qed.

Lemma call_init_eval w (i : nat) l mu sigma :
  m_layers (net w) !! i = Some l ->
  call_init (Z.of_nat i) mu sigma w
  = (inr tt,
     on_net (with_rng (snd (Layer.init l mu sigma (m_rng (net w)))))
       (after (<[i := fst (Layer.init l mu sigma (m_rng (net w)))]>
                 (m_layers (net w)))
              [EvLayerInit (Z.of_nat i)] w)).
Proof.
  intros Hl. unfold call_init.
  erewrite bind_inr by (apply layer_at_Some; exact Hl).
  erewrite bind_inr by apply emit_eval.
  erewrite bind_inr by reflexivity.
  cbn [net m_rng after with_layers].
  destruct (Layer.init l mu sigma (m_rng (net w))) as [l' r'].
  unfold set_layer, SE.modify, SE.bind, on_net, after. cbn.
  rewrite Nat2Z.id. reflexivity.
Qed.

Lemma init_loop mu sigma rest : forall w pre,
  m_layers (net w) = pre ++ rest ->
  SE.for_up_n (length rest) (Z.of_nat (length pre))
    (fun i => call_init i mu sigma) w
  = (inr tt,
     on_net (with_rng (snd (init_states rest mu sigma (m_rng (net w)))))
       (after (pre ++ fst (init_states rest mu sigma (m_rng (net w))))
              (EvLayerInit <$> seqZ (Z.of_nat (length pre)) (Z.of_nat (length rest)))
              w)).
Proof.
  induction rest as [|l rest IH]; intros w pre Hw.
  - rewrite app_nil_r in Hw. cbn. unfold on_net, after. cbn.
    rewrite !app_nil_r, <- Hw. reflexivity.
  - cbn [length SE.for_up_n init_states].
    erewrite bind_inr
      by (apply call_init_eval; rewrite Hw; apply lookup_middle).
    rewrite Hw, insert_middle.
    destruct (Layer.init l mu sigma (m_rng (net w))) as [l' r'] eqn:Hi.
    cbn [fst snd].
    replace (Z.of_nat (length pre) + 1) with (Z.of_nat (length (pre ++ [l'])))
      by (rewrite length_app; simpl; lia).
    rewrite (IH _ (pre ++ [l'])) by (cbn; rewrite <- app_assoc; reflexivity).
    cbn [net m_rng on_net with_rng after with_layers].
    destruct (init_states rest mu sigma r') as [rs r''] eqn:Hr. cbn [fst snd].
    rewrite (seqZ_cons (Z.of_nat (length pre))) by lia.
    unfold on_net, after. cbn. rewrite <- !app_assoc. cbn [app].
    replace (Z.succ (Z.of_nat (length pre)))
      with (Z.of_nat (length (pre ++ [l']))) by (rewrite length_app; simpl; lia).
    replace (Z.pred (Z.of_nat (S (length rest)))) with (Z.of_nat (length rest))
      by lia.
    reflexivity.
Qed.

Lemma init_states_length ls mu sigma r :
  length (fst (init_states ls mu sigma r)) = length ls.
Proof.
  revert r. induction ls as [|l ls IH]; intros r; [reflexivity|].
  cbn. destruct (Layer.init l mu sigma r) as [l' r'].
  specialize (IH r'). destruct (init_states ls mu sigma r') as [rs r''].
  cbn in *. lia.
Qed.

Lemma init_eval w mu sigma seed :
  init mu sigma seed w
  = if sizes_match (m_layers (net w))
    then
      (inr tt,
       on_net (with_rng (snd (init_states (m_layers (net w)) mu sigma
                                (fit_rng seed w))))
         (after (fst (init_states (m_layers (net w)) mu sigma (fit_rng seed w)))
            ((if seed >? 0 then [EvRngSeed seed] else [])
             ++ (EvLayerInit <$> seqZ 0 (Z.of_nat (length (m_layers (net w))))))
            w))
    else (inl ShapeMismatch, w).
Proof.
  unfold init, fit_rng.
  destruct (sizes_match (m_layers (net w))) eqn:Hm.
  - erewrite bind_inr by (rewrite check_unit_sizes_eval, Hm; reflexivity).
    destruct (seed >? 0).
    + erewrite bind_inr by reflexivity.
      unfold num_layers. erewrite bind_inr by reflexivity.
      unfold SE.for_up. rewrite Z.sub_0_r.
      cbn [net m_layers on_net with_rng after]. rewrite Nat2Z.id.
      rewrite (init_loop mu sigma (m_layers (net w)) _ []) by reflexivity.
      unfold on_net, after. cbn. rewrite <- app_assoc. reflexivity.
    + erewrite bind_inr by reflexivity.
      unfold num_layers. erewrite bind_inr by reflexivity.
      unfold SE.for_up. rewrite Z.sub_0_r, Nat2Z.id.
      rewrite (init_loop mu sigma (m_layers (net w)) _ []) by reflexivity.
      reflexivity.
  - erewrite bind_inl; [reflexivity|].
    rewrite check_unit_sizes_eval, Hm. reflexivity.
Qed.

(** X2.  [init] checks the unit sizes first: when some adjacent pair of
    layers disagrees it raises [ShapeMismatch] and nothing has happened, the
    generator is not reseeded and no layer is initialised.  Otherwise it
    returns normally: the generator is reseeded when [seed > 0], then the
    layers are initialised in index order [0 .. L-1], each drawing from the
    generator as the previous layer has left it, and the generator keeps the
    state the last layer has left; with [seed > 0] nothing depends on the
    state the generator had before. *)
Theorem init_spec (w : St) (mu sigma : Scalar) (seed : Z) :
  let ls := m_layers (net w) in
  let r0 := if seed >? 0 then Random.seed seed else m_rng (net w) in
  ((exists i li ln, ls !! i = Some li /\ ls !! S i = Some ln /\
                    Layer.out_size li <> Layer.in_size ln) ->
   init mu sigma seed w = (inl ShapeMismatch, w)) /\
  (~ (exists i li ln, ls !! i = Some li /\ ls !! S i = Some ln /\
                      Layer.out_size li <> Layer.in_size ln) ->
   init mu sigma seed w
   = (inr tt,
      on_net (with_rng (snd (init_states ls mu sigma r0)))
        (after (fst (init_states ls mu sigma r0))
           ((if seed >? 0 then [EvRngSeed seed] else [])
            ++ (EvLayerInit <$> seqZ 0 (Z.of_nat (length ls)))) w)) /\
   length (fst (init_states ls mu sigma r0)) = length ls).
Proof.
  cbv zeta. rewrite init_eval. unfold fit_rng. split.
  - intros (i & li & ln & Hi & Hn & Hne).
    replace (sizes_match (m_layers (net w))) with false; [reflexivity|].
    symmetry. apply sizes_match_false. exists i, li, ln. auto.
  - intros Hno. split; [|apply init_states_length].
    destruct (sizes_match (m_layers (net w))) eqn:Hm; [reflexivity|].
    exfalso. apply Hno.
    apply sizes_match_false in Hm as (i & li & ln & Hi & Hn & Hne).
    exists i, li, ln. auto.
Qed.

Lemma forward_outcome w input :
  m_layers (net w) <> [] ->
  (exists ls', forward input w
               = (inr tt, after ls' (forward_calls 0 input (m_layers (net w))) w) /\
               length ls' = length (m_layers (net w))) \/
  forward input w = (inl ShapeMismatch, w).
Proof.
  intros Hne. destruct (m_layers (net w)) as [|l0 rest] eqn:Hw; [congruence|].
  rewrite (forward_eval w input l0 rest Hw).
  destruct (rows input =? Layer.in_size l0); [left|right; reflexivity].
  eexists. split; [reflexivity|apply forward_states_length].
Qed.

(** X3.  [predict] on a network without layers returns the empty matrix and
    nothing has happened.  On a network with layers it is [forward] followed
    by a read: when [forward] raises, [predict] raises the same with the same
    state, and when [forward] returns, [predict] returns the output the last
    layer has cached in that pass, in the state [forward] has left; the
    output head, the callback and the optimizer play no part. *)
Theorem predict_spec (w : St) (x : Matrix) :
  (m_layers (net w) = [] -> predict x w = (inr empty_matrix, w)) /\
  (m_layers (net w) <> [] ->
   (forall e w', forward x w = (inl e, w') -> predict x w = (inl e, w')) /\
   (forall w', forward x w = (inr tt, w') ->
      exists lz, last (m_layers (net w')) = Some lz /\
                 predict x w = (inr (Layer.output lz), w'))).
Proof.
  split.
  - intros Hnil. unfold predict, num_layers.
    erewrite bind_inr by reflexivity. rewrite Hnil. reflexivity.
  - intros Hne.
    assert (Hpos : (Z.of_nat (length (m_layers (net w))) <=? 0) = false).
    { apply Z.leb_gt. destruct (m_layers (net w)); [congruence|simpl; lia]. }
    split.
    + intros e w' Hf. unfold predict, num_layers.
      erewrite bind_inr by reflexivity. rewrite Hpos.
      erewrite bind_inl by exact Hf. reflexivity.
    + intros w' Hf.
      destruct (forward_outcome w x Hne) as [(ls' & Hrun & Hlen)|Hrun];
        [|congruence].
      rewrite Hrun in Hf. apply pair_equal_spec in Hf as [_ <-].
      destruct ls' as [|l0' rest'].
      { destruct (m_layers (net w)); [congruence|discriminate]. }
      destruct (last_layer_at
                  (after (l0' :: rest') (forward_calls 0 x (m_layers (net w))) w)
                  l0' rest' eq_refl) as (lz & Hlast & Hlz).
      exists lz. split; [exact Hlast|].
      unfold predict, num_layers.
      erewrite bind_inr by reflexivity. rewrite Hpos.
      erewrite bind_inr by exact Hrun.
      rewrite <- Hlen. erewrite bind_inr by exact Hlz. reflexivity.
Qed.

(** X4.  [get_parameters] and [get_derivatives] never raise and change
    nothing; each returns exactly one vector per layer, in pipeline order,
    the vector number [i] being the one layer [i] reports. *)
Theorem getters_spec (w : St) :
  exists ps ds,
    get_parameters w = (inr ps, w) /\
    get_derivatives w = (inr ds, w) /\
    length ps = length (m_layers (net w)) /\
    length ds = length (m_layers (net w)) /\
    (forall (i : nat) l, m_layers (net w) !! i = Some l ->
       ps !! i = Some (Layer.get_parameters l) /\
       ds !! i = Some (Layer.get_derivatives l)).
Proof.
  exists (Layer.get_parameters <$> m_layers (net w)),
         (Layer.get_derivatives <$> m_layers (net w)).
  split; [apply get_parameters_eval|]. split; [apply get_derivatives_eval|].
  rewrite !length_fmap. split; [reflexivity|]. split; [reflexivity|].
  intros i l Hl. rewrite !list_lookup_fmap, Hl. split; reflexivity.
Qed.

Lemma accepts_own_vectors (ls : list L) :
  (forall l, l ∈ ls -> is_Some (Layer.set_parameters l (Layer.get_parameters l))) ->
  exists news, Forall3 accepts ls (Layer.get_parameters <$> ls) news.
Proof.
  induction ls as [|l ls IH]; intros Hall.
  - exists []. constructor.
  - destruct (Hall l) as [l' Hl']; [left|].
    destruct IH as [news Hnews]; [intros l1 Hin; apply Hall; right; exact Hin|].
    exists (l' :: news). constructor; assumption.
Qed.

(** X5.  A snapshot taken with [get_parameters] always has the shape
    [set_parameters] asks for on the same network: restoring it is never
    ended by [ParameterCountMismatch], and it returns normally as soon as
    every layer accepts the vector it has itself reported. *)
Theorem snapshot_restore (w : St) :
  exists ps,
    get_parameters w = (inr ps, w) /\
    fst (set_parameters ps w) <> inl ParameterCountMismatch /\
    ((forall l, l ∈ m_layers (net w) ->
        is_Some (Layer.set_parameters l (Layer.get_parameters l))) ->
     exists w', set_parameters ps w = (inr tt, w')).
Proof.
  exists (Layer.get_parameters <$> m_layers (net w)).
  split; [apply get_parameters_eval|]. split.
  - assert (Hlen : length (Layer.get_parameters <$> m_layers (net w))
                   = length (m_layers (net w))) by apply length_fmap.
    destruct (accepts_or_rejects (m_layers (net w)) _ Hlen)
      as [(news & Hacc)|(a & lj & post & pa & pj & ppost & news
                         & Hw & Hparam & Hpost & Hacc & Hrej)].
    + rewrite (set_parameters_accepted w _ news Hacc). discriminate.
    + rewrite (set_parameters_rejected w _ a lj post pa pj ppost news
                 Hw Hparam Hpost Hacc Hrej). discriminate.
  - intros Hall. destruct (accepts_own_vectors _ Hall) as [news Hacc].
    eexists. apply (set_parameters_accepted w _ news Hacc).
Qed.

(** *** What the member functions leave alone *)

Lemma kept_refl rng out cb op w : kept rng out cb op w w.
Proof. unfold kept. auto. Qed.

Lemma kept_trans rng out cb op w w1 w2 :
  kept rng out cb op w w1 -> kept rng out cb op w1 w2 -> kept rng out cb op w w2.
Proof.
  unfold kept. intros (Hl & Hr & Ho & Hc & Hp) (Hl' & Hr' & Ho' & Hc' & Hp').
  split; [congruence|]. split; [|split; [|split]]; intros Hflag.
  - rewrite (Hr' Hflag). apply Hr, Hflag.
  - rewrite (Ho' Hflag). apply Ho, Hflag.
  - rewrite (Hc' Hflag). apply Hc, Hflag.
  - rewrite (Hp' Hflag). apply Hp, Hflag.
Qed.

Lemma bind_kept {A B} rng out cb op (m : M A) (k : A -> M B) w :
  (forall v, kept rng out cb op v (snd (m v))) ->
  (forall a v, kept rng out cb op v (snd (k a v))) ->
  kept rng out cb op w (snd (SE.bind m k w)).
Proof.
  intros Hm Hk. unfold SE.bind. specialize (Hm w).
  destruct (m w) as [[e|a] w1]; [exact Hm|].
  eapply kept_trans; [exact Hm|apply Hk].
Qed.

Lemma for_up_n_kept rng out cb op (body : Z -> M unit) :
  (forall i v, kept rng out cb op v (snd (body i v))) ->
  forall n i w, kept rng out cb op w (snd (SE.for_up_n n i body w)).
Proof.
  intros Hbody. induction n as [|n IH]; intros i w; [apply kept_refl|].
  cbn [SE.for_up_n]. apply bind_kept; [apply Hbody|intros _ v; apply IH].
Qed.

Lemma for_up_kept rng out cb op (body : Z -> M unit) lo hi w :
  (forall i v, kept rng out cb op v (snd (body i v))) ->
  kept rng out cb op w (snd (SE.for_up lo hi body w)).
Proof. intros Hbody. apply for_up_n_kept. exact Hbody. Qed.

Lemma for_down_kept rng out cb op (body : Z -> M unit) hi lo w :
  (forall i v, kept rng out cb op v (snd (body i v))) ->
  kept rng out cb op w (snd (SE.for_down hi lo body w)).
Proof.
  intros Hbody. unfold SE.for_down. generalize (Z.to_nat (hi - lo)) as n.
  intros n. revert w. generalize hi as i. induction n as [|n IH]; intros i w;
    [apply kept_refl|].
  cbn [SE.for_down_n]. apply bind_kept; [apply Hbody|intros _ v; apply IH].
Qed.

Lemma layer_at_kept rng out cb op i w : kept rng out cb op w (snd (layer_at i w)).
Proof.
  unfold layer_at. destruct (i <? 0); [apply kept_refl|].
  destruct (_ !! _); apply kept_refl.
Qed.

Lemma param_at_kept rng out cb op param i w :
  kept rng out cb op w (snd (param_at param i w)).
Proof.
  unfold param_at. destruct (i <? 0); [apply kept_refl|].
  destruct (_ !! _); apply kept_refl.
Qed.

Lemma batch_at_kept rng out cb op batches i w :
  kept rng out cb op w (snd (batch_at batches i w)).
Proof.
  unfold batch_at. destruct (i <? 0); [apply kept_refl|].
  destruct (_ !! _); apply kept_refl.
Qed.

Lemma the_output_kept rng out cb op w : kept rng out cb op w (snd (the_output w)).
Proof. unfold the_output. destruct (m_output _); apply kept_refl. Qed.

Lemma the_callback_kept rng out cb op w :
  kept rng out cb op w (snd (the_callback w)).
Proof. unfold the_callback. destruct (m_callback _); apply kept_refl. Qed.

Lemma gets_kept {A} rng out cb op (f : St -> A) w :
  kept rng out cb op w (snd (SE.gets f w)).
Proof. apply kept_refl. Qed.

Lemma ret_kept {A} rng out cb op (a : A) w :
  kept rng out cb op w (snd (SE.ret a w)).
Proof. apply kept_refl. Qed.

Lemma throw_kept {A} rng out cb op e w :
  kept rng out cb op w (snd (@SE.throw St A e w)).
Proof. apply kept_refl. Qed.

Lemma emit_kept rng out cb op e w : kept rng out cb op w (snd (emit e w)).
Proof. unfold kept. cbn. auto. Qed.

Lemma set_layer_kept rng out cb op i l w :
  kept rng out cb op w (snd (set_layer i l w)).
Proof. unfold kept. cbn. rewrite length_insert. auto. Qed.

Lemma set_opt_kept rng out cb (f : St -> Opt) w :
  kept rng out cb false w (snd (SE.modify (fun v => with_opt (f v) v) w)).
Proof. unfold kept. cbn. repeat split; auto; discriminate. Qed.

Lemma set_output_kept rng cb op o w :
  kept rng false cb op w (snd (SE.modify (on_net (with_output o)) w)).
Proof. unfold kept. cbn. repeat split; auto; discriminate. Qed.

Lemma set_callback_kept rng out op (f : Net -> option C) w :
  kept rng out false op w
    (snd (SE.modify (on_net (fun n => with_callback (f n) n)) w)).
Proof. unfold kept. cbn. repeat split; auto; discriminate. Qed.

Lemma set_rng_kept out cb op r w :
  kept false out cb op w (snd (SE.modify (on_net (with_rng r)) w)).
Proof. unfold kept. cbn. repeat split; auto; discriminate. Qed.

Create HintDb kept.
#[local] Hint Resolve kept_refl layer_at_kept param_at_kept batch_at_kept
  the_output_kept the_callback_kept gets_kept ret_kept throw_kept emit_kept
  set_layer_kept set_opt_kept set_output_kept set_callback_kept set_rng_kept
  : kept.

(** One step through a member function: a sequence, a loop, a branch. *)
Ltac kept_step :=
  first
    [ solve [auto with kept]
    | apply bind_kept; [intros ?|intros ? ?]
    | apply for_up_kept; intros ? ?
    | apply for_down_kept; intros ? ?
    | match goal with
      | |- kept _ _ _ _ _ (snd ((if ?c then _ else _) _)) => destruct c
      | |- kept _ _ _ _ _ (snd ((let '(_, _) := ?p in _) _)) => destruct p
      | |- kept _ _ _ _ _ (snd (match ?x with _ => _ end _)) => destruct x
      end ].

Lemma call_forward_kept rng out cb op i m w :
  kept rng out cb op w (snd (call_forward i m w)).
Proof. unfold call_forward. repeat kept_step. Qed.

Lemma call_backprop_kept rng out cb op i p g w :
  kept rng out cb op w (snd (call_backprop i p g w)).
Proof. unfold call_backprop. repeat kept_step. Qed.

Lemma call_set_parameters_kept rng out cb op i p w :
  kept rng out cb op w (snd (call_set_parameters i p w)).
Proof. unfold call_set_parameters. repeat kept_step. Qed.

Lemma call_check_target_data_kept rng out cb op t w :
  kept rng out cb op w (snd (call_check_target_data t w)).
Proof. unfold call_check_target_data. repeat kept_step. Qed.

Lemma call_evaluate_kept rng cb op p t w :
  kept rng false cb op w (snd (call_evaluate p t w)).
Proof. unfold call_evaluate. repeat kept_step. Qed.

Lemma call_update_kept rng out cb i w :
  kept rng out cb false w (snd (call_update i w)).
Proof.
  unfold call_update. repeat kept_step.
Qed.

Lemma call_init_kept out cb op i mu sigma w :
  kept false out cb op w (snd (call_init i mu sigma w)).
Proof. unfold call_init. repeat kept_step. Qed.

Lemma call_callback_kept rng out op e f w :
  kept rng out false op w (snd (call_callback e f w)).
Proof.
  unfold call_callback. repeat kept_step.
Qed.

#[local] Hint Resolve call_forward_kept call_backprop_kept
  call_set_parameters_kept call_check_target_data_kept call_evaluate_kept
  call_update_kept call_init_kept call_callback_kept : kept.

Lemma forward_kept rng out cb op input w :
  kept rng out cb op w (snd (forward input w)).
Proof. unfold forward, num_layers. repeat kept_step. Qed.

Lemma backprop_kept rng cb op input target w :
  kept rng false cb op w (snd (backprop input target w)).
Proof. unfold backprop, num_layers. repeat kept_step. Qed.

Lemma update_kept rng out cb w : kept rng out cb false w (snd (update w)).
Proof. unfold update, num_layers. repeat kept_step. Qed.

Lemma set_parameters_kept rng out cb op param w :
  kept rng out cb op w (snd (set_parameters param w)).
Proof. unfold set_parameters, num_layers. repeat kept_step. Qed.

Lemma predict_kept rng out cb op x w :
  kept rng out cb op w (snd (predict x w)).
Proof.
  unfold predict, num_layers. repeat kept_step.
Qed.

Lemma check_unit_sizes_kept rng out cb op w :
  kept rng out cb op w (snd (check_unit_sizes w)).
Proof. rewrite check_unit_sizes_eval. apply kept_refl. Qed.

Lemma init_kept out cb op mu sigma seed w :
  kept false out cb op w (snd (init mu sigma seed w)).
Proof.
  unfold init, num_layers. repeat kept_step.
Qed.

Lemma train_batch_kept rng batches i w :
  kept rng false false false w (snd (train_batch batches i w)).
Proof.
  unfold train_batch. repeat kept_step.
Qed.

Lemma fit_kept x y batch_size epoch seed w :
  kept false false false false w (snd (fit x y batch_size epoch seed w)).
Proof.
  unfold fit, num_layers. repeat kept_step.
Qed.

(** X6.  Whatever their outcome, normal or an exception, none of these adds
    or removes a layer, and: [forward], [predict] and [set_parameters] leave
    the generator, both handles and the optimizer as they were; [backprop]
    leaves the generator, the callback handle and the optimizer; [update]
    leaves the generator and both handles; [init] leaves both handles and
    the optimizer. *)
Theorem passes_leave_alone (w : St) :
  (forall input, kept true true true true w (snd (forward input w))) /\
  (forall x, kept true true true true w (snd (predict x w))) /\
  (forall param, kept true true true true w (snd (set_parameters param w))) /\
  (forall input target,
     kept true false true true w (snd (backprop input target w))) /\
  kept true true true false w (snd (update w)) /\
  (forall mu sigma seed,
     kept false true true true w (snd (init mu sigma seed w))).
Proof.
  split; [intros; apply forward_kept|]. split; [intros; apply predict_kept|].
  split; [intros; apply set_parameters_kept|].
  split; [intros; apply backprop_kept|]. split; [apply update_kept|].
  intros. apply init_kept.
Qed.

(** X7.  [fit] never adds or removes a layer, whatever ends the call: the
    success indicator, the failure indicator or an exception raised in the
    middle of an epoch. *)
Theorem fit_keeps_layer_count (w : St) (x : Matrix) (y : Target)
    (batch_size epoch seed : Z) :
  length (m_layers (net (snd (fit x y batch_size epoch seed w))))
  = length (m_layers (net w)).
Proof.
  destruct (fit_kept x y batch_size epoch seed w) as [Hlen _]. exact Hlen.
Qed.

(** *** The start of fit *)

(** X8.  With an epoch count of zero or less, [fit] on a non-empty network
    with a callback installed trains nothing and still returns the success
    indicator: the optimizer is reset, the generator is advanced by the one
    draw of the batch scheduler, the callback is told the batch count and the
    epoch count as given, no hook is called and no layer is touched. *)
Theorem fit_no_epochs (w : St) (x : Matrix) (y : Target)
    (batch_size epoch seed : Z) (c : C) :
  m_layers (net w) <> [] ->
  m_callback (net w) = Some c ->
  epoch <= 0 ->
  let drawn := Random.create_shuffled_batches x y batch_size (fit_rng seed w) in
  let nbatch := Z.of_nat (length (fst drawn)) in
  exists w',
    fit x y batch_size epoch seed w = (inr true, w') /\
    trace w' = trace w ++ fit_header x y batch_size epoch seed (length (fst drawn)) /\
    m_layers (net w') = m_layers (net w) /\
    m_output (net w') = m_output (net w) /\
    m_callback (net w')
    = Some (Callback.set_nepoch (Callback.set_nbatch c nbatch) epoch) /\
    m_rng (net w') = snd drawn /\
    opt w' = Optimizer.reset (opt w).
Proof.
  intros Hne Hc Hep. cbv zeta. rewrite (fit_prefix w x y batch_size epoch seed Hne).
  unfold fit_loops.
  erewrite bind_inr by (apply call_callback_eval; exact Hc).
  erewrite bind_inr by (apply call_callback_eval; reflexivity).
  unfold SE.for_up. replace (Z.to_nat (epoch - 0)) with 0%nat by lia.
  cbn [SE.for_up_n]. erewrite bind_inr by reflexivity.
  eexists. split; [reflexivity|]. unfold fit_header.
  cbn. rewrite <- !app_assoc. repeat split.
  f_equal. destruct (seed >? 0); reflexivity.
Qed.

(** X9.  With [seed > 0] a run does not depend on the state the generator
    was in: [fit] on a non-empty network, and [init] on a network whose unit
    sizes agree, give the same outcome and leave the same world whatever the
    generator held before. *)
Theorem seeded_runs_reproducible (w : St) (r : Rng) (seed : Z) :
  0 < seed ->
  (forall x y batch_size epoch,
     m_layers (net w) <> [] ->
     fit x y batch_size epoch seed (on_net (with_rng r) w)
     = fit x y batch_size epoch seed w) /\
  (forall mu sigma,
     fst (check_unit_sizes w) = inr tt ->
     init mu sigma seed (on_net (with_rng r) w) = init mu sigma seed w).
Proof.
  intros Hseed.
  assert (Hgt : (seed >? 0) = true) by (apply Z.gtb_lt; exact Hseed).
  split.
  - intros x y batch_size epoch Hne.
    rewrite !fit_prefix by exact Hne.
    unfold fit_start, fit_rng. rewrite Hgt. reflexivity.
  - intros mu sigma Hok. rewrite check_unit_sizes_eval in Hok.
    rewrite !init_eval. unfold fit_rng. rewrite Hgt.
    cbn [net m_layers on_net with_rng].
    destruct (sizes_match (m_layers (net w))); [reflexivity|discriminate].
Qed.

(** X10.  Both constructors leave the callback handle null.  On a non-empty
    network on which no callback was installed, [fit] reaches its first write
    to the callback with a null handle: by then the optimizer has been reset
    and the generator advanced by the draw of the batch scheduler, and no
    layer and no output head has been called. *)
Theorem fit_without_callback (w : St) (x : Matrix) (y : Target)
    (batch_size epoch seed : Z) :
  m_callback default_network = None /\
  (forall r, m_callback (network_with_rng r) = None) /\
  (m_layers (net w) <> [] -> m_callback (net w) = None ->
   fit x y batch_size epoch seed w
   = (inl NullHandle, fit_start x y batch_size seed w)).
Proof.
  split; [reflexivity|]. split; [reflexivity|].
  intros Hne Hc. rewrite (fit_prefix w x y batch_size epoch seed Hne).
  unfold fit_loops. erewrite bind_inl; [reflexivity|].
  unfold call_callback. erewrite bind_inl; [reflexivity|].
  unfold the_callback. cbn [net fit_start m_callback with_rng]. rewrite Hc.
  reflexivity.
Qed.

(** X11.  The outcomes of [backprop] on a network with layers: a null output
    handle ends it at once, with nothing changed; a target the head rejects
    ends it with [TargetMismatch] right after the check, before the head
    evaluates anything and before any layer is called, so that the layers and
    the head are as before; in every other case it returns normally. *)
Theorem backprop_outcomes (w : St) (input : Matrix) (target : Target) :
  m_layers (net w) <> [] ->
  (m_output (net w) = None ->
   backprop input target w = (inl NullHandle, w)) /\
  (forall o, m_output (net w) = Some o ->
     Output.check_target_data o target = false ->
     backprop input target w
     = (inl TargetMismatch,
        after (m_layers (net w)) [EvCheckTargetData target] w)) /\
  (forall o, m_output (net w) = Some o ->
     Output.check_target_data o target = true ->
     fst (backprop input target w) = inr tt).
Proof.
  intros Hne. split; [apply backprop_null; exact Hne|].
  destruct (m_layers (net w)) as [|l0 rest] eqn:Hw; [congruence|].
  split; intros o Ho Hc.
  - rewrite (backprop_eval w input target l0 rest o Hw Ho). cbv zeta.
    rewrite Hc. reflexivity.
  - rewrite (backprop_eval w input target l0 rest o Hw Ho). cbv zeta.
    rewrite Hc. reflexivity.
Qed.

(** X12.  [fit] checks no batch in advance.  When the first batch does not
    have the row count the first layer declares, the call is ended by the
    [ShapeMismatch] of [forward] in epoch 0, batch 0: the callback has been
    told the counts and the ids and its pre-training hook has run on that
    batch, the post-training hook has not, and no layer has been called. *)
Theorem fit_first_batch_mismatch (w : St) (x : Matrix) (y : Target)
    (batch_size epoch seed : Z) (c : C) (l0 : L) (b0 : Matrix * Target) :
  m_layers (net w) !! 0%nat = Some l0 ->
  m_callback (net w) = Some c ->
  0 < epoch ->
  head (fst (Random.create_shuffled_batches x y batch_size (fit_rng seed w)))
  = Some b0 ->
  rows (fst b0) <> Layer.in_size l0 ->
  exists w',
    fit x y batch_size epoch seed w = (inl ShapeMismatch, w') /\
    trace w'
    = trace w
      ++ fit_header x y batch_size epoch seed
           (length (fst (Random.create_shuffled_batches x y batch_size
                           (fit_rng seed w))))
      ++ [EvSetEpochId 0; EvSetBatchId 0;
          EvPreTrainingBatch (fst b0) (snd b0)] /\
    m_layers (net w') = m_layers (net w).
Proof.
  intros Hl0 Hc Hep Hb0 Hrows.
  assert (Hne : m_layers (net w) <> [])
    by (destruct (m_layers (net w)); [discriminate|discriminate]).
  rewrite (fit_prefix w x y batch_size epoch seed Hne).
  destruct (fst (Random.create_shuffled_batches x y batch_size (fit_rng seed w)))
    as [|b batches] eqn:Hdrawn; [discriminate|].
  cbn in Hb0. injection Hb0 as ->.
  unfold fit_loops.
  erewrite bind_inr by (apply call_callback_eval; exact Hc).
  erewrite bind_inr by (apply call_callback_eval; reflexivity).
  unfold SE.for_up at 1.
  destruct (Z.to_nat (epoch - 0)) as [|n] eqn:Hn; [lia|].
  cbn [SE.for_up_n].
  eexists. split.
  - erewrite bind_inl; [reflexivity|].
    erewrite bind_inl; [reflexivity|].
    erewrite bind_inr by (apply call_callback_eval; reflexivity).
    unfold SE.for_up. rewrite Z.sub_0_r, Nat2Z.id. cbn [length SE.for_up_n].
    erewrite bind_inl; [reflexivity|].
    unfold train_batch.
    erewrite bind_inr by (apply call_callback_eval; reflexivity).
    erewrite bind_inr by reflexivity.
    erewrite bind_inr by (apply call_callback_eval; reflexivity).
    erewrite bind_inl; [reflexivity|].
    destruct (m_layers (net w)) as [|l rest] eqn:Hw; [discriminate|].
    injection Hl0 as ->.
    rewrite (forward_eval _ (fst b0) l0 rest) by exact Hw.
    apply Z.eqb_neq in Hrows. rewrite Hrows. reflexivity.
  - unfold fit_header, fit_start. cbn. rewrite <- !app_assoc. split; [|reflexivity].
    f_equal. cbn. f_equal. destruct (seed >? 0); reflexivity.
Qed.

(** *** Building the pipeline *)

Lemma sizes_match_snoc (ls : list L) (l : L) :
  sizes_match (ls ++ [l])
  = sizes_match ls
    && match last ls with
       | Some lz => Layer.in_size l =? Layer.out_size lz
       | None => true
       end.
Proof.
  induction ls as [|a [|b ls] IH].
  - reflexivity.
  - cbn. rewrite andb_true_r. reflexivity.
  - change (sizes_match ((a :: b :: ls) ++ [l]))
      with ((Layer.in_size b =? Layer.out_size a) && sizes_match ((b :: ls) ++ [l])).
    change (sizes_match (a :: b :: ls))
      with ((Layer.in_size b =? Layer.out_size a) && sizes_match (b :: ls)).
    rewrite IH, andb_assoc. reflexivity.
Qed.

(** X13.  [addLayer] never raises and checks nothing: the layer becomes the
    last of the pipeline, the layers before it keep their places, and
    nothing else moves.  The unit sizes agree afterwards exactly when they
    agreed before and the new layer takes in what the former last layer puts
    out, which only [check_unit_sizes] (through [init]) will tell.  Layers
    added one after the other are in the pipeline in the order they were
    added. *)
Theorem addLayer_spec (w : St) (l : L) :
  let w' := snd (addLayer l w) in
  fst (addLayer l w) = inr tt /\
  m_layers (net w') = m_layers (net w) ++ [l] /\
  m_rng (net w') = m_rng (net w) /\
  m_output (net w') = m_output (net w) /\
  m_callback (net w') = m_callback (net w) /\
  opt w' = opt w /\
  trace w' = trace w /\
  (fst (check_unit_sizes w') = inr tt <->
   fst (check_unit_sizes w) = inr tt /\
   forall lz, last (m_layers (net w)) = Some lz ->
              Layer.in_size l = Layer.out_size lz) /\
  (forall more,
     m_layers (net (foldl (fun v a => snd (addLayer a v)) w more))
     = m_layers (net w) ++ more).
Proof.
  cbv zeta. do 7 (split; [reflexivity|]). split.
  - rewrite !check_unit_sizes_eval. cbn [fst snd addLayer].
    change (m_layers (net (snd (addLayer l w)))) with (m_layers (net w) ++ [l]).
    rewrite sizes_match_snoc.
    destruct (sizes_match (m_layers (net w))); cbn [andb].
    + destruct (last (m_layers (net w))) as [lz|].
      * destruct (Z.eqb_spec (Layer.in_size l) (Layer.out_size lz)) as [Heq|Hne].
        -- split; [|reflexivity]. intros _. split; [reflexivity|].
           intros lz' Hlz. injection Hlz as <-. exact Heq.
        -- split; [discriminate|]. intros [_ Hall].
           exfalso. apply Hne. apply Hall. reflexivity.
      * split; [|reflexivity]. intros _. split; [reflexivity|]. discriminate.
    + split; [discriminate|]. intros [Hd _]. discriminate.
  - intros more. revert w. induction more as [|a more IH]; intros w.
    + cbn. rewrite app_nil_r. reflexivity.
    + cbn [foldl]. rewrite IH. cbn. rewrite <- app_assoc. reflexivity.
Qed.

(** *** Indices stay in range *)

Lemma bind_never {A B} e (m : M A) (k : A -> M B) :
  never e m -> (forall a, never e (k a)) -> never e (SE.bind m k).
Proof.
  intros Hm Hk w. unfold SE.bind. specialize (Hm w).
  destruct (m w) as [[e'|a] w1]; [|apply Hk].
  cbn in Hm |- *. intros Heq. apply Hm. injection Heq as ->. reflexivity.
Qed.

Lemma for_up_n_never e (body : Z -> M unit) (lo hi : Z) :
  (forall i, lo <= i < hi -> never e (body i)) ->
  forall n i, lo <= i -> i + Z.of_nat n <= hi -> never e (SE.for_up_n n i body).
Proof.
  intros Hbody. induction n as [|n IH]; intros i Hlo Hhi.
  - intros w. discriminate.
  - cbn [SE.for_up_n]. apply bind_never; [apply Hbody; lia|].
    intros _. apply IH; lia.
Qed.

Lemma for_up_never e (body : Z -> M unit) (hi : Z) :
  (forall i, 0 <= i < hi -> never e (body i)) -> never e (SE.for_up 0 hi body).
Proof.
  intros Hbody. unfold SE.for_up.
  destruct (Z.le_gt_cases 0 hi) as [Hhi|Hhi].
  - apply (for_up_n_never e body 0 hi Hbody); lia.
  - replace (Z.to_nat (hi - 0)) with 0%nat by lia. intros w. discriminate.
Qed.

Lemma call_callback_in_range e f : never OutOfRange (call_callback e f).
Proof.
  intros w. unfold call_callback, the_callback, SE.bind.
  destruct (m_callback (net w)); cbn; discriminate.
Qed.

Lemma forward_in_range input : never OutOfRange (forward input).
Proof.
  intros w. destruct (m_layers (net w)) as [|l0 rest] eqn:Hw.
  - rewrite (forward_empty w input Hw). discriminate.
  - rewrite (forward_eval w input l0 rest Hw).
    destruct (rows input =? Layer.in_size l0); discriminate.
Qed.

Lemma backprop_in_range input target : never OutOfRange (backprop input target).
Proof.
  intros w. destruct (m_layers (net w)) as [|l0 rest] eqn:Hw.
  - rewrite (backprop_empty w input target Hw). discriminate.
  - destruct (m_output (net w)) as [o|] eqn:Ho.
    + rewrite (backprop_eval w input target l0 rest o Hw Ho). cbv zeta.
      destruct (Output.check_target_data o target); discriminate.
    + rewrite backprop_null; [discriminate|rewrite Hw; discriminate|exact Ho].
Qed.

Lemma update_in_range : never OutOfRange update.
Proof. intros w. rewrite update_eval. discriminate. Qed.

Lemma set_parameters_in_range param : never OutOfRange (set_parameters param).
Proof.
  intros w.
  destruct (Nat.eq_dec (length param) (length (m_layers (net w)))) as [Hlen|Hlen].
  - destruct (accepts_or_rejects (m_layers (net w)) param Hlen)
      as [(news & Hacc)|(a & lj & post & pa & pj & ppost & news
                         & Hw & Hparam & Hpost & Hacc & Hrej)].
    + rewrite (set_parameters_accepted w param news Hacc). discriminate.
    + rewrite (set_parameters_rejected w param a lj post pa pj ppost news
                 Hw Hparam Hpost Hacc Hrej). discriminate.
  - rewrite (set_parameters_count w param Hlen). discriminate.
Qed.

Lemma init_in_range mu sigma seed : never OutOfRange (init mu sigma seed).
Proof.
  intros w. rewrite init_eval.
  destruct (sizes_match (m_layers (net w))); discriminate.
Qed.

Lemma predict_in_range x : never OutOfRange (predict x).
Proof.
  intros w. destruct (m_layers (net w)) as [|l0 rest] eqn:Hw.
  - unfold predict, num_layers. erewrite bind_inr by reflexivity.
    rewrite Hw. discriminate.
  - assert (Hne : m_layers (net w) <> []) by (rewrite Hw; discriminate).
    assert (Hpos : (Z.of_nat (length (m_layers (net w))) <=? 0) = false).
    { apply Z.leb_gt. rewrite Hw. simpl. lia. }
    unfold predict, num_layers. erewrite bind_inr by reflexivity. rewrite Hpos.
    destruct (forward_outcome w x Hne) as [(ls' & Hrun & Hlen)|Hrun].
    + erewrite bind_inr by exact Hrun.
      destruct ls' as [|l0' rest']; [rewrite Hw in Hlen; discriminate|].
      destruct (last_layer_at
                  (after (l0' :: rest') (forward_calls 0 x (m_layers (net w))) w)
                  l0' rest' eq_refl) as (lz & _ & Hlz).
      rewrite <- Hlen. erewrite bind_inr by exact Hlz. discriminate.
    + erewrite bind_inl by exact Hrun. discriminate.
Qed.

Lemma train_batch_in_range batches i :
  0 <= i < Z.of_nat (length batches) -> never OutOfRange (train_batch batches i).
Proof.
  intros Hi. unfold train_batch.
  apply bind_never; [apply call_callback_in_range|intros _].
  apply bind_never.
  { intros w. unfold batch_at. destruct (Z.ltb_spec i 0); [lia|].
    destruct (lookup_lt_is_Some_2 batches (Z.to_nat i)) as [b Hb]; [lia|].
    rewrite Hb. discriminate. }
  intros b. apply bind_never; [apply call_callback_in_range|intros _].
  apply bind_never; [apply forward_in_range|intros _].
  apply bind_never; [apply backprop_in_range|intros _].
  apply bind_never; [apply update_in_range|intros _].
  apply call_callback_in_range.
Qed.

Lemma fit_in_range x y batch_size epoch seed :
  never OutOfRange (fit x y batch_size epoch seed).
Proof.
  intros w. destruct (m_layers (net w)) as [|l0 rest] eqn:Hw.
  - rewrite (fit_empty w x y batch_size epoch seed Hw). discriminate.
  - rewrite fit_prefix by (rewrite Hw; discriminate).
    generalize (fit_start x y batch_size seed w).
    generalize (fst (Random.create_shuffled_batches x y batch_size
                       (fit_rng seed w))).
    intros batches. change (never OutOfRange (fit_loops batches epoch)).
    unfold fit_loops.
    apply bind_never; [apply call_callback_in_range|intros _].
    apply bind_never; [apply call_callback_in_range|intros _].
    apply bind_never; [|intros _ v; discriminate].
    apply for_up_never. intros k _.
    apply bind_never; [apply call_callback_in_range|intros _].
    apply for_up_never. intros i Hi. apply train_batch_in_range. exact Hi.
Qed.

(** X14.  No member function reads [m_layers], the parameter vectors or the
    batch vectors past their ends, in any state and for any arguments: the
    indices of every loop and the fixed indices [0], [1], [nlayer - 1] and
    [nlayer - 2] are in range wherever the code reaches them. *)
Theorem indices_in_range :
  (forall input, never OutOfRange (forward input)) /\
  (forall input target, never OutOfRange (backprop input target)) /\
  never OutOfRange update /\
  (forall x, never OutOfRange (predict x)) /\
  (forall mu sigma seed, never OutOfRange (init mu sigma seed)) /\
  (forall param, never OutOfRange (set_parameters param)) /\
  never OutOfRange get_parameters /\
  never OutOfRange get_derivatives /\
  never OutOfRange check_unit_sizes /\
  (forall x y batch_size epoch seed,
     never OutOfRange (fit x y batch_size epoch seed)).
Proof.
  split; [exact forward_in_range|]. split; [exact backprop_in_range|].
  split; [exact update_in_range|]. split; [exact predict_in_range|].
  split; [exact init_in_range|]. split; [exact set_parameters_in_range|].
  split; [intros w; rewrite get_parameters_eval; discriminate|].
  split; [intros w; rewrite get_derivatives_eval; discriminate|].
  split; [|exact fit_in_range].
  intros w. rewrite check_unit_sizes_eval.
  destruct (sizes_match (m_layers (net w))); discriminate.
Qed.

End Network.

(** ** The facts on the concrete instance *)

Example check_unit_sizes_mismatch_example :
  check_unit_sizes
    (Toy.world_of [Toy.mkLayer 2 1 4 [] [] 0; Toy.layer1])
  = (inl ShapeMismatch,
     Toy.world_of [Toy.mkLayer 2 1 4 [] [] 0; Toy.layer1]).
Proof. vm_compute. reflexivity. Qed.

Example forward_example :
  trace (snd (forward Toy.x3 Toy.world2))
  = [EvLayerForward 0 [1; 2; 3]; EvLayerForward 1 [2; 4; 6]].
Proof. vm_compute. reflexivity. Qed.

Example forward_mismatch_example :
  forward Toy.x3
    (Toy.world_of [Toy.mkLayer 2 5 1 [] [] 0])
  = (inl ShapeMismatch,
     Toy.world_of [Toy.mkLayer 2 5 1 [] [] 0]).
Proof. vm_compute. reflexivity. Qed.

Example backprop_default_network_example :
  backprop Toy.x3 Toy.y3 Toy.world0 = (inr tt, Toy.world0).
Proof. vm_compute. reflexivity. Qed.

Example fit_default_network_example :
  fit Toy.x3 Toy.y3 2 5 0 Toy.world0 = (inr false, Toy.world0).
Proof. vm_compute. reflexivity. Qed.

Example set_parameters_count_example :
  set_parameters [[5]] Toy.world2 = (inl ParameterCountMismatch, Toy.world2).
Proof. vm_compute. reflexivity. Qed.

Example set_parameters_rejected_example :
  let r := set_parameters [[5]; [6; 7]] Toy.world2 in
  fst r = inl LayerRejected /\
  Toy.weight <$> m_layers (net (snd r)) = [5; 3] /\
  trace (snd r) = [EvLayerSetParameters 0 [5]; EvLayerSetParameters 1 [6; 7]].
Proof. vm_compute. repeat split. Qed.

(** The callback of the specification's example: 3 samples, batches of 2,
    5 epochs. *)
Example fit_callback_example :
  let r := fit Toy.x3 Toy.y3 2 5 0 Toy.world2 in
  fst r = inr true /\
  (Toy.m_nbatch <$> m_callback (net (snd r))) = Some 2 /\
  (Toy.m_nepoch <$> m_callback (net (snd r))) = Some 5 /\
  (Toy.seen <$> m_callback (net (snd r)))
  = Some [(0, 0); (0, 1); (1, 0); (1, 1); (2, 0); (2, 1);
          (3, 0); (3, 1); (4, 0); (4, 1)].
Proof. vm_compute. repeat split. Qed.

(** The same data on a network built without [setCallback]: the default
    constructor, two [addLayer] and [setOutput].  The call ends at the first
    write to the callback; the optimizer has been reset and the partition
    drawn, and that is all. *)
Example fit_no_callback_example :
  let w := built default_network [Toy.layer0; Toy.layer1] (Toy.mkHead 0 []) 7 in
  let r := fit Toy.x3 Toy.y3 2 5 0 w in
  m_callback (net w) = None /\
  fst r = inl NullHandle /\
  trace (snd r) = [EvOptReset; EvCreateShuffledBatches Toy.x3 Toy.y3 2] /\
  m_callback (net (snd r)) = None /\
  opt (snd r) = 0.
Proof. vm_compute. repeat split. Qed.

Lemma backprop_spec_witness :
  let w1 := snd (forward Toy.x3 Toy.world2) in
  exists lz o' ls2,
    last (m_layers (net w1)) = Some lz /\
    o' = Output.evaluate (Toy.mkHead 0 []) (Layer.output lz) Toy.y3 /\
    backprop Toy.x3 Toy.y3 w1
    = (inr tt,
       after ls2
         ([EvCheckTargetData Toy.y3; EvEvaluate (Layer.output lz) Toy.y3]
          ++ reverse
               (imap (fun i pn => EvLayerBackprop (Z.of_nat i) (fst pn) (snd pn))
                  (zip (Toy.x3 :: (Layer.output <$> m_layers (net w1)))
                       (drop 1 (Layer.backprop_data <$> ls2)
                        ++ [Output.backprop_data o']))))
         (on_net (with_output (Some o')) w1)).
Proof.
  assert (Hf : forward Toy.x3 Toy.world2
               = (inr tt, snd (forward Toy.x3 Toy.world2)))
    by (vm_compute; reflexivity).
  assert (Hne : m_layers (net (snd (forward Toy.x3 Toy.world2))) <> [])
    by (vm_compute; discriminate).
  assert (Ho : m_output (net (snd (forward Toy.x3 Toy.world2)))
               = Some (Toy.mkHead 0 [])) by (vm_compute; reflexivity).
  assert (Hc : Output.check_target_data (Toy.mkHead 0 []) Toy.y3 = true)
    by (vm_compute; reflexivity).
  destruct (backprop_spec Toy.world2 (snd (forward Toy.x3 Toy.world2))
              Toy.x3 Toy.y3 (Toy.mkHead 0 []) Hf Hne Ho Hc)
    as (lz & o' & ls2 & Hlast & Ho' & Hrun & _).
  exists lz, o', ls2. split; [exact Hlast|]. split; [exact Ho'|exact Hrun].
Defined.

Lemma fit_single_partition_witness :
  let w' := snd (fit Toy.x3 Toy.y3 2 2 0 Toy.world2) in
  exists tr,
    trace w' = trace Toy.world2 ++ tr /\
    partition_draws tr = 1%nat /\
    m_rng (net w') = 1 /\
    pre_batches tr
    = [([1; 2], [10; 20]); ([3], [30]); ([1; 2], [10; 20]); ([3], [30])].
Proof.
  assert (Hseed : 0 <= 0) by lia.
  assert (Hne : m_layers (net Toy.world2) <> []) by (vm_compute; discriminate).
  assert (Hrun : fit Toy.x3 Toy.y3 2 2 0 Toy.world2
                 = (inr true, snd (fit Toy.x3 Toy.y3 2 2 0 Toy.world2)))
    by (vm_compute; reflexivity).
  exact (fit_single_partition Toy.world2
           (snd (fit Toy.x3 Toy.y3 2 2 0 Toy.world2)) Toy.x3 Toy.y3 2 2 0 true
           Hseed Hne Hrun).
Defined.

Lemma fit_order_witness :
  let batches := [([1; 2], [10; 20]); ([3], [30])] in
  let run := spec_fit Toy.x3 Toy.y3 2 2 0 Toy.world2 in
  fit Toy.x3 Toy.y3 2 2 0 Toy.world2 = (inr true, run) /\
  m_callback (net run)
  = Some (Toy.mkCallback 2 2 1 1 [(0, 0); (0, 1); (1, 0); (1, 1)]) /\
  (exists ets,
     trace run
     = trace Toy.world2
       ++ [EvOptReset] ++ []
       ++ [EvCreateShuffledBatches Toy.x3 Toy.y3 2; EvSetNbatch 2; EvSetNepoch 2]
       ++ concat ets /\
     Forall2 (epoch_trace 2 batches) (seqZ 0 2) ets) /\
  fst (fit Toy.x3 Toy.y3 2 2 0
         (built default_network [Toy.layer0; Toy.layer1] (Toy.mkHead 0 []) 0))
  = inl NullHandle.
Proof.
  assert (Hne : m_layers (net Toy.world2) <> []) by (vm_compute; discriminate).
  destruct (fit_order Toy.world2 Toy.x3 Toy.y3 2 2 0 Hne) as (Hany & Hret & Hbuilt).
  assert (Hrun : fit Toy.x3 Toy.y3 2 2 0 Toy.world2
                 = (inr true, spec_fit Toy.x3 Toy.y3 2 2 0 Toy.world2)).
  { apply (Hret 1).
    - split; [eexists; reflexivity|]. split; [eexists; reflexivity|].
      exists Toy.layer0, [Toy.layer1]. split; reflexivity.
    - reflexivity.
    - reflexivity.
    - reflexivity.
    - intros b Hb. vm_compute in Hb.
      apply elem_of_cons in Hb as [->|Hb];
        [|apply elem_of_cons in Hb as [->|Hb]; [|inversion Hb]];
        split; try reflexivity; intros o; reflexivity. }
  cbv zeta. split; [exact Hrun|]. split; [vm_compute; reflexivity|]. split.
  - destruct (Hany true _ Hrun) as (_ & _ & Hex). exact Hex.
  - destruct (Hbuilt default_network [Toy.layer0; Toy.layer1] (Toy.mkHead 0 []) 0)
      as (_ & _ & _ & Hnull); [left; reflexivity|discriminate|].
    rewrite Hnull. reflexivity.
Defined.

Lemma set_parameters_count_spec_witness :
  set_parameters [[5]] Toy.world2 = (inl ParameterCountMismatch, Toy.world2) /\
  fst (set_parameters [[5]; [6; 7]] Toy.world2) = inl LayerRejected.
Proof.
  assert (H1 : Z.of_nat (length [[5]]) <= max_int) by (vm_compute; discriminate).
  assert (H2 : Z.of_nat (length [[5]; [6; 7]]) <= max_int)
    by (vm_compute; discriminate).
  destruct (set_parameters_count_spec Toy.world2 [[5]] H1)
    as (_ & _ & _ & Hcount & _).
  destruct (set_parameters_count_spec Toy.world2 [[5]; [6; 7]] H2)
    as (_ & _ & _ & _ & Hsame).
  split.
  - apply Hcount. vm_compute. discriminate.
  - destruct (Hsame eq_refl) as [_ [_ Hrej]]. apply Hrej.
    exists 1%nat, Toy.layer1, [6; 7]. repeat split.
Defined.

Lemma set_get_parameters_witness :
  exists w',
    set_parameters [[5]; [7]] Toy.world2 = (inr tt, w') /\
    get_parameters w' = (inr [[5]; [7]], w').
Proof.
  apply (set_get_parameters Toy.world2 [[5]; [7]]).
  - reflexivity.
  - intros i l p Hl Hp.
    destruct i as [|[|i]]; cbn in Hl, Hp; try discriminate;
      injection Hl as <-; injection Hp as <-; eexists; reflexivity.
  - intros l p l' _ Hset. destruct p as [|a [|? ?]]; try discriminate.
    injection Hset as <-. reflexivity.
Defined.

(** C3, as stated, fails: over two epochs the second epoch runs over the
    batches of the first, [[1; 2]] then [[3]], where a partition re-derived
    from the advanced generator would be [[2; 3]] then [[1]]. *)
Lemma fit_reshuffles_counterexample :
  ~ spec_fit_reshuffles Toy.world2 Toy.x3 Toy.y3 2 2 0.
Proof.
  intros Hspec.
  specialize (Hspec true (snd (fit Toy.x3 Toy.y3 2 2 0 Toy.world2))
                (trace (snd (fit Toy.x3 Toy.y3 2 2 0 Toy.world2)))).
  assert (Hrun : fit Toy.x3 Toy.y3 2 2 0 Toy.world2
                 = (inr true, snd (fit Toy.x3 Toy.y3 2 2 0 Toy.world2)))
    by (vm_compute; reflexivity).
  specialize (Hspec Hrun eq_refl). vm_compute in Hspec. discriminate Hspec.
Qed.

(** ** The further facts on the concrete instance *)

Lemma fit_no_epochs_witness :
  exists w',
    fit Toy.x3 Toy.y3 2 0 0 Toy.world2 = (inr true, w') /\
    trace w'
    = [EvOptReset; EvCreateShuffledBatches Toy.x3 Toy.y3 2;
       EvSetNbatch 2; EvSetNepoch 0] /\
    m_layers (net w') = [Toy.layer0; Toy.layer1] /\
    m_rng (net w') = 1.
Proof.
  assert (Hne : m_layers (net Toy.world2) <> []) by (vm_compute; discriminate).
  assert (Hc : m_callback (net Toy.world2) = Some (Toy.mkCallback 0 0 0 0 []))
    by reflexivity.
  assert (Hep : 0 <= 0) by lia.
  destruct (fit_no_epochs Toy.world2 Toy.x3 Toy.y3 2 0 0 _ Hne Hc Hep)
    as (w' & Hrun & Htr & Hls & _ & _ & Hrng & _).
  exists w'. split; [exact Hrun|]. split; [exact Htr|].
  split; [exact Hls|exact Hrng].
Defined.

Lemma seeded_runs_reproducible_witness :
  fit Toy.x3 Toy.y3 2 2 3 (mkWorld (mkNetwork 7 (m_output (net Toy.world2))
                                      (m_callback (net Toy.world2))
                                      (m_layers (net Toy.world2))) 0 [])
  = fit Toy.x3 Toy.y3 2 2 3 Toy.world2.
Proof.
  assert (Hseed : 0 < 3) by lia.
  destruct (seeded_runs_reproducible Toy.world2 7 3 Hseed) as [Hfit _].
  assert (Hne : m_layers (net Toy.world2) <> []) by (vm_compute; discriminate).
  exact (Hfit Toy.x3 Toy.y3 2 2 Hne).
Defined.

Lemma backprop_outcomes_witness :
  backprop Toy.x3 [10; -1; 3] Toy.world2
  = (inl TargetMismatch,
     after (m_layers (net Toy.world2)) [EvCheckTargetData [10; -1; 3]] Toy.world2).
Proof.
  assert (Hne : m_layers (net Toy.world2) <> []) by (vm_compute; discriminate).
  destruct (backprop_outcomes Toy.world2 Toy.x3 [10; -1; 3] Hne)
    as (_ & Hrej & _).
  apply (Hrej (Toy.mkHead 0 [])); reflexivity.
Defined.

Lemma fit_first_batch_mismatch_witness :
  let w := Toy.world_of [Toy.mkLayer 2 5 1 [] [] 0] in
  exists w',
    fit Toy.x3 Toy.y3 2 2 0 w = (inl ShapeMismatch, w') /\
    trace w'
    = [EvOptReset; EvCreateShuffledBatches Toy.x3 Toy.y3 2;
       EvSetNbatch 2; EvSetNepoch 2; EvSetEpochId 0; EvSetBatchId 0;
       EvPreTrainingBatch [1; 2] [10; 20]] /\
    m_layers (net w') = [Toy.mkLayer 2 5 1 [] [] 0].
Proof.
  assert (Hl0 : m_layers (net (Toy.world_of [Toy.mkLayer 2 5 1 [] [] 0])) !! 0%nat
                = Some (Toy.mkLayer 2 5 1 [] [] 0)) by reflexivity.
  assert (Hc : m_callback (net (Toy.world_of [Toy.mkLayer 2 5 1 [] [] 0]))
               = Some (Toy.mkCallback 0 0 0 0 [])) by reflexivity.
  assert (Hep : 0 < 2) by lia.
  assert (Hb0 : head (fst (Random.create_shuffled_batches Toy.x3 Toy.y3 2
                             (fit_rng 0 (Toy.world_of [Toy.mkLayer 2 5 1 [] [] 0]))))
                = Some ([1; 2], [10; 20])) by (vm_compute; reflexivity).
  assert (Hrows : rows (fst ([1; 2], [10; 20])) <> Layer.in_size (Toy.mkLayer 2 5 1 [] [] 0))
    by (vm_compute; discriminate).
  exact (fit_first_batch_mismatch (Toy.world_of [Toy.mkLayer 2 5 1 [] [] 0])
           Toy.x3 Toy.y3 2 2 0 _ _ _ Hl0 Hc Hep Hb0 Hrows).
Defined.

Example init_mismatch_example :
  init 0 1 5 (Toy.world_of [Toy.mkLayer 2 1 4 [] [] 0; Toy.layer1])
  = (inl ShapeMismatch, Toy.world_of [Toy.mkLayer 2 1 4 [] [] 0; Toy.layer1]).
Proof. vm_compute. reflexivity. Qed.

Example init_example :
  let r := init 10 2 5 Toy.world2 in
  fst r = inr tt /\
  Toy.weight <$> m_layers (net (snd r)) = [20; 22] /\
  m_rng (net (snd r)) = 7 /\
  trace (snd r) = [EvRngSeed 5; EvLayerInit 0; EvLayerInit 1].
Proof. vm_compute. repeat split. Qed.

Example predict_example :
  fst (predict Toy.x3 Toy.world2) = inr [6; 12; 18] /\
  fst (predict Toy.x3 Toy.world0) = inr [].
Proof. vm_compute. split; reflexivity. Qed.

End Network.
